(** * Telemetry ingestion and persistence pipeline

    A shallow embedding of the Go sources: the line decoder [ParsePacket]
    (parser.go), the live buffer and the frame-event drain step (main.go),
    and the persistence and export layer of the [Database] type.

    Go strings are byte sequences: they are [string]s of [ascii] bytes here.
    A Go [float64] is a primitive [float]; an [int] or [int64] is a [Z].
    A Go call returning [(v, err)] returns a pair [(v, e)] with
    [e : option error], [None] standing for the nil error. *)

From Stdlib Require Import ZArith List Bool Arith Lia.
From Stdlib Require Import Ascii String.
From Stdlib Require Import Floats.
From Stdlib Require Import Permutation Sorted.
Import ListNotations.

Set Warnings "-inexact-float,-register-all".

Open Scope string_scope.
Open Scope list_scope.

(* ===================================================================== *)
(** * Part I: definitions                                                 *)
(* ===================================================================== *)

(** ** Go error values *)

(** The two sentinel errors of strconv's [NumError]. *)
Inductive numErr := ErrSyntax | ErrRange.

(** The error values the program builds or receives: [errors.New],
    strconv's [*NumError], [fmt.Errorf] with a wrapped cause, and
    database/sql's [ErrNoRows]. *)
Inductive error :=
| errorString (msg : string)
| NumError (Func Num : string) (Err : numErr)
| wrapError (msg : string) (cause : error)
| ErrNoRows.

(** ** The package [strings] of the Go library, as far as the decoder uses it *)

Module strings.

(** [strings.HasPrefix(s, prefix)]. *)
Fixpoint HasPrefix (s prefix : string) {struct prefix} : bool :=
  match prefix with
  | EmptyString => true
  | String a prefix' =>
      match s with
      | EmptyString => false
      | String b s' => Ascii.eqb b a && HasPrefix s' prefix'
      end
  end.

(** [s[n:]] for [n <= len(s)]. *)
Fixpoint skip (n : nat) (s : string) {struct n} : string :=
  match n, s with
  | S n', String _ s' => skip n' s'
  | _, _ => s
  end.

(** [strings.TrimPrefix(s, prefix)]: [s] without the leading [prefix], or
    [s] itself when it does not start with [prefix]. *)
Definition TrimPrefix (s prefix : string) : string :=
  if HasPrefix s prefix then skip (String.length prefix) s else s.

(** [strings.Split(s, sep)] at a one-byte separator, which is what every call
    site passes: the pieces of [s] between the occurrences of [sep]; one
    piece more than there are separators, so never the empty list. *)
Fixpoint Split (s : string) (sep : ascii) : list string :=
  match s with
  | EmptyString => [EmptyString]
  | String c rest =>
      if Ascii.eqb c sep then EmptyString :: Split rest sep
      else match Split rest sep with
           | [] => [String c EmptyString]
           | w :: ws => String c w :: ws
           end
  end.

(** [strings.Join(elems, sep)] at a one-byte separator. *)
Fixpoint Join (elems : list string) (sep : ascii) : string :=
  match elems with
  | [] => EmptyString
  | [w] => w
  | w :: ws => w ++ String sep (Join ws sep)
  end.

(** The bytes of [s], last first. *)
Fixpoint rev (s : string) : string :=
  match s with
  | EmptyString => EmptyString
  | String c s' => rev s' ++ String c EmptyString
  end.

Definition byte (n : nat) : ascii := ascii_of_nat n.

Definition bytes (l : list nat) : string :=
  fold_right (fun n s => String (byte n) s) EmptyString l.

(** The UTF-8 encodings of the code points [unicode.IsSpace] accepts: tab,
    line feed, vertical tab, form feed, carriage return, space, U+0085,
    U+00A0, U+1680, U+2000 to U+200A, U+2028, U+2029, U+202F, U+205F and
    U+3000. *)
Definition spaceRunes : list string :=
  map bytes
    ([[9]; [10]; [11]; [12]; [13]; [32]; [194; 133]; [194; 160]; [225; 154; 128]]
     ++ map (fun k => [226; 128; 128 + k]) (seq 0 11)
     ++ [[226; 128; 168]; [226; 128; 169]; [226; 128; 175]; [226; 129; 159];
         [227; 128; 128]]).

(** What is left of [s] after one leading rune out of [runes], if there is
    one. *)
Fixpoint cutRune (runes : list string) (s : string) : option string :=
  match runes with
  | [] => None
  | r :: runes' =>
      if HasPrefix s r then Some (skip (String.length r) s) else cutRune runes' s
  end.

Fixpoint trimLeft (fuel : nat) (runes : list string) (s : string) : string :=
  match fuel with
  | O => s
  | S fuel' =>
      match cutRune runes s with
      | Some s' => trimLeft fuel' runes s'
      | None => s
      end
  end.

Definition TrimLeftSpace (s : string) : string :=
  trimLeft (String.length s) spaceRunes s.

(** Trailing runes are cut on the reversed bytes, against the reversed
    encodings. *)
Definition TrimRightSpace (s : string) : string :=
  rev (trimLeft (String.length s) (map rev spaceRunes) (rev s)).

(** [strings.TrimSpace(s)]: [s] without its leading and trailing white
    space. *)
Definition TrimSpace (s : string) : string :=
  TrimRightSpace (TrimLeftSpace s).

End strings.

(** ** The package [strconv] of the Go library, as far as the program uses it

    Decimal integers in full; the floating-point grammar of [ParseFloat]:
    decimal and hexadecimal numbers, underscores between digits and the
    special values, rounded to the nearest binary64, ties to even. *)

Module strconv.

Definition isDigit (c : ascii) : bool :=
  (48 <=? nat_of_ascii c)%nat && (nat_of_ascii c <=? 57)%nat.

Definition digitValue (c : ascii) : Z := Z.of_nat (nat_of_ascii c) - 48.

(** The longest run of decimal digits [s] starts with: how many there are,
    their value after [acc], and the rest of [s]. *)
Fixpoint readDigits (acc : Z) (s : string) : nat * Z * string :=
  match s with
  | String c s' =>
      if isDigit c then
        let '(n, v, rest) := readDigits (acc * 10 + digitValue c) s' in (S n, v, rest)
      else (O, acc, s)
  | EmptyString => (O, acc, s)
  end.

(** An optional sign: whether it is a minus, and the rest. *)
Definition readSign (s : string) : bool * string :=
  match s with
  | String "+"%char s' => (false, s')
  | String "-"%char s' => (true, s')
  | _ => (false, s)
  end.

Definition maxInt : Z := 2 ^ 63 - 1.
Definition minInt : Z := - 2 ^ 63.

(** [strconv.Atoi(s)] where [int] has 64 bits. *)
Definition Atoi (s : string) : Z * option error :=
  let '(neg, body) := readSign s in
  match readDigits 0 body with
  | (S _, v, EmptyString) =>
      let n := if neg then (- v)%Z else v in
      if (n <? minInt)%Z then (minInt, Some (NumError "Atoi" s ErrRange))
      else if (maxInt <? n)%Z then (maxInt, Some (NumError "Atoi" s ErrRange))
      else (n, None)
  | _ => (0%Z, Some (NumError "Atoi" s ErrSyntax))
  end.

Definition lower (c : ascii) : ascii :=
  let n := nat_of_ascii c in
  if (65 <=? n)%nat && (n <=? 90)%nat then ascii_of_nat (n + 32) else c.

Fixpoint lowerString (s : string) : string :=
  match s with
  | EmptyString => EmptyString
  | String c s' => String (lower c) (lowerString s')
  end.

(** The special values: a signed or unsigned infinity, or an unsigned NaN,
    in any letter case. *)
Definition special (s : string) : option float :=
  let '(neg, body) := readSign s in
  let w := lowerString body in
  if String.eqb w "inf" || String.eqb w "infinity" then
    Some (if neg then neg_infinity else infinity)
  else if String.eqb (lowerString s) "nan" then Some nan
  else None.

Definition isHexLetter (c : ascii) : bool :=
  let n := nat_of_ascii (lower c) in (97 <=? n)%nat && (n <=? 102)%nat.

Definition hexLetterValue (c : ascii) : Z := Z.of_nat (nat_of_ascii (lower c)) - 97 + 10.

(** The mantissa loop of [readFloat] in base 10 or 16: underscores are
    passed over, one point is taken, and the loop stops at the first byte
    that is no part of the mantissa. The digits are kept as one integer [m]
    (the library keeps the first 19, or 16, and whether a later one was not
    zero, and rounds as for all of them); [nf] counts the digits after the
    point. The result is [m], whether a digit was seen, [nf] and the
    rest. *)
Fixpoint readMantissa (base m : Z) (sawdot sawdigits : bool) (nf : nat) (s : string)
  : Z * bool * nat * string :=
  match s with
  | EmptyString => (m, sawdigits, nf, s)
  | String c s' =>
      if Ascii.eqb c "_" then readMantissa base m sawdot sawdigits nf s'
      else if Ascii.eqb c "." then
        if sawdot then (m, sawdigits, nf, s)
        else readMantissa base m true sawdigits nf s'
      else if isDigit c then
        readMantissa base (m * base + digitValue c) sawdot true
                     (if sawdot then S nf else nf) s'
      else if (base =? 16)%Z && isHexLetter c then
        readMantissa base (m * 16 + hexLetterValue c) sawdot true
                     (if sawdot then S nf else nf) s'
      else (m, sawdigits, nf, s)
  end.

(** The digits of the exponent, underscores passed over; the value stops
    growing from 10000 on. *)
Fixpoint readExpDigits (e : Z) (s : string) : Z * string :=
  match s with
  | String c s' =>
      if Ascii.eqb c "_" then readExpDigits e s'
      else if isDigit c then
        readExpDigits (if (e <? 10000)%Z then e * 10 + digitValue c else e) s'
      else (e, s)
  | EmptyString => (e, s)
  end.

(** An optional exponent part after [expChar], which a hexadecimal mantissa
    must have: [None] when it is malformed or missing there. *)
Definition readExponent (expChar : ascii) (hex : bool) (s : string) : option (Z * string) :=
  match s with
  | String c s' =>
      if Ascii.eqb (lower c) expChar then
        let '(neg, body) := readSign s' in
        match body with
        | String d _ =>
            if isDigit d then
              let '(e, rest) := readExpDigits 0 body in
              Some (if neg then (- e)%Z else e, rest)
            else None
        | EmptyString => None
        end
      else if hex then None else Some (0%Z, s)
  | EmptyString => if hex then None else Some (0%Z, s)
  end.

(** What [underscoreOK] saw last: the beginning, a digit or the base
    prefix, an underscore, or anything else. *)
Inductive sawKind := SawStart | SawDigit | SawUnderscore | SawOther.

Fixpoint underscoreLoop (hex : bool) (saw : sawKind) (s : string) : bool :=
  match s with
  | EmptyString =>
      match saw with
      | SawUnderscore => false
      | _ => true
      end
  | String c s' =>
      if isDigit c || (hex && isHexLetter c) then underscoreLoop hex SawDigit s'
      else if Ascii.eqb c "_" then
        match saw with
        | SawDigit => underscoreLoop hex SawUnderscore s'
        | _ => false
        end
      else
        match saw with
        | SawUnderscore => false
        | _ => underscoreLoop hex SawOther s'
        end
  end.

(** [underscoreOK(s)]: every underscore separates two digits, the base
    prefix counting as a digit. *)
Definition underscoreOK (s : string) : bool :=
  let s := snd (readSign s) in
  match s with
  | String "0"%char (String c s') =>
      let l := lower c in
      if Ascii.eqb l "b" || Ascii.eqb l "o" || Ascii.eqb l "x" then
        underscoreLoop (Ascii.eqb l "x") SawDigit s'
      else underscoreLoop false SawStart s
  | _ => underscoreLoop false SawStart s
  end.

(** A decimal or hexadecimal number read in full: its sign, whether it is
    hexadecimal, its digits as one integer [m] and the exponent [e], with
    value [m * 10 ^ e], or [m * 2 ^ e] when hexadecimal. *)
Definition readFloat (s : string) : option (bool * bool * Z * Z) :=
  let '(neg, body) := readSign s in
  let hex :=
    match body with
    | String "0"%char (String c (String _ _)) => Ascii.eqb (lower c) "x"
    | _ => false
    end in
  let digits :=
    match hex, body with
    | true, String _ (String _ rest) => rest
    | _, _ => body
    end in
  let '(m, sawdigits, nf, rest) :=
    readMantissa (if hex then 16 else 10) 0 false false 0 digits in
  if negb sawdigits then None
  else
    match readExponent (if hex then "p" else "e")%char hex rest with
    | Some (e, EmptyString) =>
        if underscoreOK s then
          Some (neg, hex, m,
                if hex then (e - 4 * Z.of_nat nf)%Z else (e - Z.of_nat nf)%Z)
        else None
    | _ => None
    end.

(** The binary64 nearest to [m * 10 ^ e], ties to even, as a specification
    float: an infinity when it is out of range. *)
Definition nearest (neg : bool) (m e : Z) : spec_float :=
  match (m * 10 ^ Z.max e 0)%Z, (10 ^ Z.max (- e) 0)%Z with
  | Zpos num, Zpos den =>
      SFdiv prec emax (S754_finite neg num 0) (S754_finite false den 0)
  | _, _ => S754_zero neg
  end.

(** The same for [m * 2 ^ e]. *)
Definition nearestHex (neg : bool) (m e : Z) : spec_float :=
  if (m =? 0)%Z then S754_zero neg
  else binary_normalize prec emax (if neg then (- m)%Z else m) e false.

(** [strconv.ParseFloat(s, 64)]. *)
Definition ParseFloat (s : string) (bitSize : Z) : float * option error :=
  match special s with
  | Some f => (f, None)
  | None =>
      match readFloat s with
      | None => (0%float, Some (NumError "ParseFloat" s ErrSyntax))
      | Some (neg, hex, m, e) =>
          match (if hex then nearestHex neg m e else nearest neg m e) with
          | S754_infinity sg =>
              (SF2Prim (S754_infinity sg), Some (NumError "ParseFloat" s ErrRange))
          | x => (SF2Prim x, None)
          end
      end
  end.

Definition digitChar (d : Z) : ascii := ascii_of_nat (48 + Z.to_nat d).

(** The decimal digits of [n >= 0], most significant first. *)
Fixpoint decimalDigits (fuel : nat) (n : Z) : string :=
  match fuel with
  | O => EmptyString
  | S fuel' =>
      if (n <? 10)%Z then String (digitChar n) EmptyString
      else decimalDigits fuel' (n / 10) ++ String (digitChar (n mod 10)) EmptyString
  end.

Definition formatNat (n : Z) : string :=
  decimalDigits (S (Z.to_nat (Z.log2 n))) n.

(** [strconv.FormatInt(i, 10)] and [strconv.Itoa(i)]. *)
Definition FormatInt (i : Z) : string :=
  if (i <? 0)%Z then String "-"%char (formatNat (- i)) else formatNat i.

Definition Itoa (i : Z) : string := FormatInt i.

(** The last [prec] decimal digits of [n >= 0], zero-padded. *)
Fixpoint fracDigits (prec : nat) (n : Z) : string :=
  match prec with
  | O => EmptyString
  | S prec' => fracDigits prec' (n / 10) ++ String (digitChar (n mod 10)) EmptyString
  end.

(** [num / den] rounded to the nearest integer, ties to even. *)
Definition roundHalfEven (num den : Z) : Z :=
  let q := (num / den)%Z in
  let r := (num mod den)%Z in
  match (2 * r ?= den)%Z with
  | Lt => q
  | Gt => (q + 1)%Z
  | Eq => if Z.even q then q else (q + 1)%Z
  end.

(** The digits of the format ['f'] with [prec] digits after the point, for
    the magnitude [m * 2 ^ e]. *)
Definition fixedDigits (m e : Z) (prec : nat) : string :=
  let scaled :=
    roundHalfEven (m * 10 ^ Z.of_nat prec * 2 ^ Z.max e 0) (2 ^ Z.max (- e) 0) in
  let int := (scaled / 10 ^ Z.of_nat prec)%Z in
  match prec with
  | O => formatNat int
  | _ => formatNat int ++ String "."%char (fracDigits prec scaled)
  end.

(** [strconv.FormatFloat(f, 'f', prec, 64)] for [prec >= 0]. *)
Definition FormatFloat (f : float) (prec : nat) : string :=
  match Prim2SF f with
  | S754_nan => "NaN"
  | S754_infinity sg => if sg then "-Inf" else "+Inf"
  | S754_zero sg => (if sg then "-" else "") ++ fixedDigits 0 0 prec
  | S754_finite sg m e => (if sg then "-" else "") ++ fixedDigits (Zpos m) e prec
  end.

End strconv.

(** ** The decoder (parser.go) *)

(** A [[3]float64]. *)
Definition array3 : Type := (float * float * float)%type.

(** [a[i]] and [a[i] = f] for [i < 3]. *)
Definition get3 (a : array3) (i : nat) : float :=
  let '(x, y, z) := a in
  match i with
  | 0%nat => x
  | 1%nat => y
  | _ => z
  end.

Definition set3 (a : array3) (i : nat) (f : float) : array3 :=
  let '(x, y, z) := a in
  match i with
  | 0%nat => (f, y, z)
  | 1%nat => (x, f, z)
  | _ => (x, y, f)
  end.

Record Packet := mkPacket {
  Time : string;
  Latitude : float;
  Longitude : float;
  Satellites : Z;
  Acceleration : array3
}.

(** [var p Packet]: the zero value. *)
Definition zeroPacket : Packet :=
  mkPacket "" 0%float 0%float 0%Z (0%float, 0%float, 0%float).

Definition setTime (p : Packet) (v : string) : Packet :=
  mkPacket v (Latitude p) (Longitude p) (Satellites p) (Acceleration p).

Definition setLatitude (p : Packet) (f : float) : Packet :=
  mkPacket (Time p) f (Longitude p) (Satellites p) (Acceleration p).

Definition setLongitude (p : Packet) (f : float) : Packet :=
  mkPacket (Time p) (Latitude p) f (Satellites p) (Acceleration p).

Definition setSatellites (p : Packet) (n : Z) : Packet :=
  mkPacket (Time p) (Latitude p) (Longitude p) n (Acceleration p).

Definition setAcceleration (p : Packet) (i : nat) (f : float) : Packet :=
  mkPacket (Time p) (Latitude p) (Longitude p) (Satellites p)
           (set3 (Acceleration p) i f).

(** The two conversions of the Go library the decoder calls, as an
    interface: what is proved of the decoder holds for whatever they
    return. *)
Class Strconv := {
  ParseFloat : string -> Z -> float * option error;
  Atoi : string -> Z * option error
}.

(** The conversions as modelled above. *)
Definition goStrconv : Strconv :=
  {| ParseFloat := strconv.ParseFloat; Atoi := strconv.Atoi |}.

Section Decoder.

Context {lib : Strconv}.

(** [for i := 0; i < 3; i++ { ... p.Acceleration[i] = f }], [fuel] rounds of
    it from index [i]. *)
Fixpoint accelLoop (fuel i : nat) (nums : list string) (p : Packet)
  : Packet * option error :=
  match fuel with
  | O => (p, None)
  | S fuel' =>
      match ParseFloat (nth i nums "") 64 with
      | (_, Some err) => (p, Some err)
      | (f, None) => accelLoop fuel' (S i) nums (setAcceleration p i f)
      end
  end.

(** The body of the loop over [parts[1:]]: the [switch] on the field's
    prefix. An error leaves the loop and the function with the packet as it
    is then. *)
Definition parseField (p : Packet) (field : string) : Packet * option error :=
  if strings.HasPrefix field "Time-" then
    (setTime p (strings.TrimPrefix field "Time-"), None)
  else if strings.HasPrefix field "Latitude-" then
    let v := strings.TrimPrefix field "Latitude-" in
    match ParseFloat v 64 with
    | (_, Some err) => (p, Some err)
    | (f, None) => (setLatitude p f, None)
    end
  else if strings.HasPrefix field "Longitude-" then
    let v := strings.TrimPrefix field "Longitude-" in
    match ParseFloat v 64 with
    | (_, Some err) => (p, Some err)
    | (f, None) => (setLongitude p f, None)
    end
  else if strings.HasPrefix field "Satellites-" then
    let v := strings.TrimPrefix field "Satellites-" in
    match Atoi v with
    | (_, Some err) => (p, Some err)
    | (n, None) => (setSatellites p n, None)
    end
  else if strings.HasPrefix field "Acceleration" then
    let partsAcc := strings.Split field ":"%char in
    if negb (List.length partsAcc =? 2)%nat then
      (p, Some (errorString "bad accel field"))
    else
      let nums := strings.Split (nth 1 partsAcc "") ","%char in
      if negb (List.length nums =? 3)%nat then
        (p, Some (errorString "bad accel values"))
      else accelLoop 3 0 nums p
  else (p, None).

(** [for _, field := range fields { ... }]. *)
Fixpoint parseFields (p : Packet) (fields : list string) : Packet * option error :=
  match fields with
  | [] => (p, None)
  | field :: rest =>
      match parseField p field with
      | (p', Some err) => (p', Some err)
      | (p', None) => parseFields p' rest
      end
  end.

Definition ParsePacket (line : string) : Packet * option error :=
  let p := zeroPacket in
  let line := strings.TrimSpace line in
  if String.eqb line "" then (p, Some (errorString "empty line"))
  else
    let parts := strings.Split line ";"%char in
    if (List.length parts <? 6)%nat then (p, Some (errorString "not enough fields"))
    else parseFields p (tl parts).

End Decoder.

(** The decoder over the library conversions modelled above. *)
Definition DecodeLine : string -> Packet * option error :=
  ParsePacket (lib := goStrconv).


(** ** The live buffer (main.go): [packets := make(chan Packet, 128)] *)

Definition chanCapacity : nat := 128.

(** The channel's buffer, oldest pending packet first. *)
Definition chan : Type := list Packet.

(** [select { case out <- p: ... default: ... }]: the send goes through when
    the buffer has room. A blocking [out <- p] is ready in the same case
    and waits otherwise. *)
Definition trySend (q : chan) (p : Packet) : option chan :=
  if (List.length q <? chanCapacity)%nat then Some (q ++ [p]) else None.

(** [select { case <-out: default: }]: takes the oldest pending packet when
    there is one. *)
Definition tryRecv (q : chan) : option (Packet * chan) :=
  match q with
  | [] => None
  | x :: q' => Some (x, q')
  end.

(** The enqueue of [startSerialReader], run with no receive of the frame
    loop in between. [None] stands for a final send that has to wait. *)
Definition enqueue (q : chan) (p : Packet) : option chan :=
  match trySend q p with
  | Some q' => Some q'
  | None =>
      let q1 := match tryRecv q with
                | Some (_, q') => q'
                | None => q
                end in
      trySend q1 p
  end.

(** Where the reader goroutine stands: reading and decoding the next line,
    or at one of the three channel operations with the decoded packet. *)
Inductive readerAt :=
| AtRead
| AtOffer (p : Packet)
| AtEvict (p : Packet)
| AtSend (p : Packet).

(** The reader, the channel buffer, and the packets decoded so far in decode
    order (the last one is the reader's while it is not back at [AtRead]). *)
Record pipeline := mkPipeline {
  reader : readerAt;
  buffer : chan;
  decoded : list Packet
}.

Definition startPipeline : pipeline := mkPipeline AtRead [] [].

(** One atomic move: the reader decodes [next] or performs the channel
    operation it stands at, or the frame loop receives one packet. *)
Inductive move :=
| Reader (next : Packet)
| Receive.

(** [None] when the move is the reader's and the reader has to wait. *)
Definition step (c : pipeline) (m : move) : option pipeline :=
  match m with
  | Receive =>
      match tryRecv (buffer c) with
      | Some (_, q) => Some (mkPipeline (reader c) q (decoded c))
      | None => Some c
      end
  | Reader next =>
      match reader c with
      | AtRead => Some (mkPipeline (AtOffer next) (buffer c) (decoded c ++ [next]))
      | AtOffer p =>
          match trySend (buffer c) p with
          | Some q => Some (mkPipeline AtRead q (decoded c))
          | None => Some (mkPipeline (AtEvict p) (buffer c) (decoded c))
          end
      | AtEvict p =>
          match tryRecv (buffer c) with
          | Some (_, q) => Some (mkPipeline (AtSend p) q (decoded c))
          | None => Some (mkPipeline (AtSend p) (buffer c) (decoded c))
          end
      | AtSend p =>
          match trySend (buffer c) p with
          | Some q => Some (mkPipeline AtRead q (decoded c))
          | None => None
          end
      end
  end.

Fixpoint run (c : pipeline) (ms : list move) : option pipeline :=
  match ms with
  | [] => Some c
  | m :: ms' =>
      match step c m with
      | Some c' => run c' ms'
      | None => None
      end
  end.

(** The packet the reader holds and has not inserted yet. *)
Definition inHand (r : readerAt) : list Packet :=
  match r with
  | AtRead => []
  | AtOffer p | AtEvict p | AtSend p => [p]
  end.

(** A sequence of enqueues, with no receive of the frame loop in between. *)
Fixpoint enqueueAll (q : chan) (ps : list Packet) : option chan :=
  match ps with
  | [] => Some q
  | p :: ps' =>
      match enqueue q p with
      | Some q' => enqueueAll q' ps'
      | None => None
      end
  end.

(** The moves of a reader that runs alone from [AtRead] on the buffer [q],
    over lines that decode to [ps]: for each packet the decode, then the
    channel operations of its enqueue, one when the buffer has room then,
    three when it is full. *)
Fixpoint readerMoves (q : chan) (ps : list Packet) : list move :=
  match ps with
  | [] => []
  | p :: ps' =>
      Reader p
        :: (if (List.length q <? chanCapacity)%nat then [Reader p]
            else [Reader p; Reader p; Reader p])
        ++ match enqueue q p with
           | Some q' => readerMoves q' ps'
           | None => []
           end
  end.

(** The packets the receives of the frame loop return over the moves, in
    the order they return them. *)
Fixpoint delivered (c : pipeline) (ms : list move) : list Packet :=
  match ms with
  | [] => []
  | m :: ms' =>
      match m, tryRecv (buffer c) with
      | Receive, Some (x, _) => [x]
      | _, _ => []
      end
      ++ match step c m with
         | Some c' => delivered c' ms'
         | None => []
         end
  end.

(** The packets the reader's moves carry: a move decodes its packet when
    the reader stands at [AtRead], and is a channel operation otherwise. *)
Definition carried (ms : list move) : list Packet :=
  flat_map (fun m => match m with
                     | Reader next => [next]
                     | Receive => []
                     end) ms.

(** [l] is [l'] with some elements left out, the others in their order. *)
Inductive subsequence {A : Type} : list A -> list A -> Prop :=
| subsequence_nil : subsequence [] []
| subsequence_skip (x : A) (l l' : list A) : subsequence l l' -> subsequence l (x :: l')
| subsequence_keep (x : A) (l l' : list A) :
    subsequence l l' -> subsequence (x :: l) (x :: l').

(** ** The frame-event drain step (main.go) *)

Definition seriesCapacity : nat := 300.
Definition logCapacity : nat := 200.

(** A [float32], held as the binary64 of the same value. *)
Definition float32 : Type := float.

(** The conversion [float32(x)]: the nearest binary32, ties to even. *)
Definition toFloat32 (x : float) : float32 :=
  match Prim2SF x with
  | S754_finite sg m e =>
      SF2Prim (binary_round_aux 24 128 sg (Zpos m) e loc_Exact)
  | _ => x
  end.

Record UIState := mkUIState {
  LastPacket : Packet;
  Series : list float32;
  LogLines : list string;
  PortOpen : bool
}.

(** [s[len(s)-capacity:]] when [len(s) > capacity], else [s]. *)
Definition keepLast {A : Type} (capacity : nat) (s : list A) : list A :=
  if (capacity <? List.length s)%nat then skipn (List.length s - capacity) s else s.

(** [fmt.Sprintf("%s Lat:%.6f Lon:%.6f Sat:%d AccZ:%.2f", ...)]. *)
Definition logLine (p : Packet) : string :=
  Time p ++ " Lat:" ++ strconv.FormatFloat (Latitude p) 6
         ++ " Lon:" ++ strconv.FormatFloat (Longitude p) 6
         ++ " Sat:" ++ strconv.Itoa (Satellites p)
         ++ " AccZ:" ++ strconv.FormatFloat (get3 (Acceleration p) 2) 2.

(** The [case p := <-packets:] branch of the drain loop. *)
Definition drainStep (st : UIState) (p : Packet) : UIState :=
  let v := toFloat32 (get3 (Acceleration p) 2) in
  let series := keepLast seriesCapacity (Series st ++ [v]) in
  let line := logLine p in
  let logs := keepLast logCapacity (LogLines st ++ [line]) in
  mkUIState p series logs (PortOpen st).

(** The drain loop: one step per packet received, until the channel is
    found empty. *)
Definition drain (st : UIState) (received : list Packet) : UIState :=
  fold_left drainStep received st.

(** ** The persistence layer: the type [Database] and its table [packets] *)

(** A [time.Time] read from a TIMESTAMP column: seconds since the Unix
    epoch, in UTC. *)
Definition time : Type := Z.

Module StoredPacket.
Record t := mk {
  ID : Z;
  Time : string;
  Latitude : float;
  Longitude : float;
  Satellites : Z;
  AccelerationX : float;
  AccelerationY : float;
  AccelerationZ : float;
  CreatedAt : time;
  UpdatedAt : time
}.
End StoredPacket.

Definition StoredPacket : Type := StoredPacket.t.

(** A Go slice value: [None] is the nil slice, which [var s []T] declares;
    [append] always returns a slice that is not nil. *)
Definition slice (A : Type) : Type := option (list A).

Definition elems {A : Type} (s : slice A) : list A :=
  match s with
  | None => []
  | Some l => l
  end.

Definition append {A : Type} (s : slice A) (x : A) : slice A :=
  Some (elems s ++ [x]).

(** The database behind the handle [d.db]: the rows of [packets] in the
    order they were inserted, the AUTO_INCREMENT counter, and the error
    every statement fails with while the connection is down. *)
Record Database := mkDatabase {
  rows : list StoredPacket;
  lastID : Z;
  down : option error
}.

Inductive direction := ASC | DESC.

(** The two SELECT statements over [packets]: [ORDER BY created_at] in one
    direction, with an optional [LIMIT]. *)
Record selectQuery := mkSelect {
  orderBy : direction;
  limitTo : option Z
}.

(** [query += fmt.Sprintf(" LIMIT %d", limit)]. *)
Definition withLimit (q : selectQuery) (limit : Z) : selectQuery :=
  mkSelect (orderBy q) (Some limit).

(** Whether a row may come before another under [ORDER BY created_at]. *)
Definition inOrder (dir : direction) (a b : StoredPacket) : bool :=
  match dir with
  | ASC => (StoredPacket.CreatedAt a <=? StoredPacket.CreatedAt b)%Z
  | DESC => (StoredPacket.CreatedAt b <=? StoredPacket.CreatedAt a)%Z
  end.

Section Store.

(** The server's sort for [ORDER BY created_at]. SQL leaves the order of
    rows with equal timestamps to the server, so it is a parameter, held to
    return the same rows in an order the direction allows. *)
Variable sortRows : direction -> list StoredPacket -> list StoredPacket.

(** The server's result for a SELECT. *)
Definition selectRows (d : Database) (q : selectQuery) : list StoredPacket :=
  let sorted := sortRows (orderBy q) (rows d) in
  match limitTo q with
  | Some n => firstn (Z.to_nat n) sorted
  | None => sorted
  end.

(** [d.db.Query(query)] with every row scanned. *)
Definition Query (d : Database) (q : selectQuery) : list StoredPacket * option error :=
  match down d with
  | Some err => ([], Some err)
  | None => (selectRows d q, None)
  end.

(** [d.db.QueryRow(query).Scan(...)] for a SELECT: the first row, or
    [sql.ErrNoRows]. *)
Definition QueryRow (d : Database) (q : selectQuery) : option StoredPacket * option error :=
  match down d with
  | Some err => (None, Some err)
  | None =>
      match selectRows d q with
      | [] => (None, Some ErrNoRows)
      | r :: _ => (Some r, None)
      end
  end.

(** [INSERT INTO packets (...) VALUES (...)] at server time [now], and
    [result.LastInsertId()]. The server is taken to accept the values: a
    satellite count outside INT, a float that DOUBLE does not hold (NaN, an
    infinity) and a time longer than VARCHAR(255) are outside this model;
    on them the statement fails, no row is added and the code returns the
    same wrapped error as when the connection is down. *)
Definition InsertPacket (now : time) (d : Database) (packet : Packet)
  : Database * (Z * option error) :=
  match down d with
  | Some err => (d, (0%Z, Some (wrapError "failed to insert packet" err)))
  | None =>
      let id := (lastID d + 1)%Z in
      let '(x, y, z) := Acceleration packet in
      let r := StoredPacket.mk id (Time packet) (Latitude packet) (Longitude packet)
                 (Satellites packet) x y z now now in
      (mkDatabase (rows d ++ [r]) id None, (id, None))
  end.

Definition GetPackets (d : Database) (limit : Z) : slice StoredPacket * option error :=
  let query := mkSelect DESC None in
  let query := if (0 <? limit)%Z then withLimit query limit else query in
  match Query d query with
  | (_, Some err) => (None, Some (wrapError "failed to query packets" err))
  | (scanned, None) => (fold_left append scanned None, None)
  end.

Definition GetLatestPacket (d : Database) : option StoredPacket * option error :=
  let query := mkSelect DESC (Some 1%Z) in
  match QueryRow d query with
  | (_, Some ErrNoRows) => (None, None)
  | (_, Some err) => (None, Some (wrapError "failed to get latest packet" err))
  | (p, None) => (p, None)
  end.

(** [SELECT COUNT( * ) FROM packets]. *)
Definition GetPacketCount (d : Database) : Z * option error :=
  match down d with
  | Some err => (0%Z, Some (wrapError "failed to get packet count" err))
  | None => (Z.of_nat (List.length (rows d)), None)
  end.

(** [DELETE FROM packets]. *)
Definition DeleteAllPackets (d : Database) : Database * option error :=
  match down d with
  | Some err => (d, Some (wrapError "failed to delete all packets" err))
  | None => (mkDatabase [] (lastID d) None, None)
  end.

Definition GetAccelerationSeries (d : Database) (limit : Z) : slice float32 * option error :=
  let query := mkSelect ASC None in
  let query := if (0 <? limit)%Z then withLimit query limit else query in
  match Query d query with
  | (_, Some err) => (None, Some (wrapError "failed to query acceleration series" err))
  | (scanned, None) =>
      (fold_left (fun series r => append series (toFloat32 (StoredPacket.AccelerationZ r)))
                 scanned None, None)
  end.

End Store.

(** A sort a server may use: insertion sort, rows with equal timestamps
    kept in the order they have in the table. *)
Fixpoint insertRow (dir : direction) (r : StoredPacket) (l : list StoredPacket)
  : list StoredPacket :=
  match l with
  | [] => [r]
  | x :: l' => if inOrder dir r x then r :: l else x :: insertRow dir r l'
  end.

Definition stableSort (dir : direction) (l : list StoredPacket) : list StoredPacket :=
  fold_right (insertRow dir) [] l.

(** ** The export engine *)

(** [n] in decimal, zero-padded to [width] digits. *)
Definition padded (width : nat) (n : Z) : string := strconv.fracDigits width n.

(** The civil date and the time of day of [t] in UTC, as
    [(date, clock)] = [("2006-01-02", "15:04:05")]. *)
Definition civil (t : time) : string * string :=
  let days := (t / 86400)%Z in
  let secs := (t mod 86400)%Z in
  let z := (days + 719468)%Z in
  let era := (z / 146097)%Z in
  let doe := (z - era * 146097)%Z in
  let yoe := ((doe - doe / 1460 + doe / 36524 - doe / 146096) / 365)%Z in
  let doy := (doe - (365 * yoe + yoe / 4 - yoe / 100))%Z in
  let mp := ((5 * doy + 2) / 153)%Z in
  let day := (doy - (153 * mp + 2) / 5 + 1)%Z in
  let month := (if mp <? 10 then mp + 3 else mp - 9)%Z in
  let year := (yoe + era * 400 + (if month <=? 2 then 1 else 0))%Z in
  ((padded 4 year ++ "-" ++ padded 2 month ++ "-" ++ padded 2 day)%string,
   (padded 2 (secs / 3600) ++ ":" ++ padded 2 (secs / 60 mod 60) ++ ":"
      ++ padded 2 (secs mod 60))%string).

(** [t.Format("2006-01-02 15:04:05")]. *)
Definition formatTime (t : time) : string :=
  let '(date, clock) := civil t in (date ++ " " ++ clock)%string.

(** [t.MarshalJSON()]: RFC 3339. *)
Definition formatRFC3339 (t : time) : string :=
  let '(date, clock) := civil t in (date ++ "T" ++ clock ++ "Z")%string.

(** A CSV file as the records [writer.Write] was called with, in order. *)
Definition csvFile : Type := list (list string).

Definition csvHeader : list string :=
  ["ID"; "Time"; "Latitude"; "Longitude"; "Satellites";
   "AccelerationX"; "AccelerationY"; "AccelerationZ";
   "CreatedAt"; "UpdatedAt"].

Definition csvRow (p : StoredPacket) : list string :=
  [strconv.FormatInt (StoredPacket.ID p);
   StoredPacket.Time p;
   strconv.FormatFloat (StoredPacket.Latitude p) 6;
   strconv.FormatFloat (StoredPacket.Longitude p) 6;
   strconv.Itoa (StoredPacket.Satellites p);
   strconv.FormatFloat (StoredPacket.AccelerationX p) 3;
   strconv.FormatFloat (StoredPacket.AccelerationY p) 3;
   strconv.FormatFloat (StoredPacket.AccelerationZ p) 3;
   formatTime (StoredPacket.CreatedAt p);
   formatTime (StoredPacket.UpdatedAt p)].

(** A JSON document, as the value it denotes. *)
Inductive json :=
| JNull
| JNumber (f : float)
| JInt (n : Z)
| JString (s : string)
| JArray (items : list json)
| JObject (members : list (string * json)).

(** A float64 [encoding/json] can write. *)
Definition isFinite (f : float) : bool :=
  match Prim2SF f with
  | S754_zero _ | S754_finite _ _ _ => true
  | _ => false
  end.

(** The object of one [StoredPacket], named by its [json] tags; the two
    times are written as strings. *)
Definition marshalPacket (p : StoredPacket) : json :=
  JObject
    [("id", JInt (StoredPacket.ID p));
     ("time", JString (StoredPacket.Time p));
     ("latitude", JNumber (StoredPacket.Latitude p));
     ("longitude", JNumber (StoredPacket.Longitude p));
     ("satellites", JInt (StoredPacket.Satellites p));
     ("acceleration_x", JNumber (StoredPacket.AccelerationX p));
     ("acceleration_y", JNumber (StoredPacket.AccelerationY p));
     ("acceleration_z", JNumber (StoredPacket.AccelerationZ p));
     ("created_at", JString (formatRFC3339 (StoredPacket.CreatedAt p)));
     ("updated_at", JString (formatRFC3339 (StoredPacket.UpdatedAt p)))].

(** The five DOUBLE columns of a row hold finite values. *)
Definition finiteRow (p : StoredPacket) : bool :=
  isFinite (StoredPacket.Latitude p) && isFinite (StoredPacket.Longitude p)
  && isFinite (StoredPacket.AccelerationX p) && isFinite (StoredPacket.AccelerationY p)
  && isFinite (StoredPacket.AccelerationZ p).

(** The five [float64] fields of a packet, in the order they are
    encoded. *)
Definition floatsOf (p : StoredPacket) : list float :=
  [StoredPacket.Latitude p; StoredPacket.Longitude p; StoredPacket.AccelerationX p;
   StoredPacket.AccelerationY p; StoredPacket.AccelerationZ p].

(** [*json.UnsupportedValueError] for the first float that cannot be
    written: its text ends with the value as
    [strconv.FormatFloat(f, 'g', -1, 64)] writes it, which for a value that
    is not finite is what every format writes. *)
Definition unsupportedValue (l : list StoredPacket) : error :=
  let f := hd nan (filter (fun f => negb (isFinite f)) (flat_map floatsOf l)) in
  errorString ("json: unsupported value: " ++ strconv.FormatFloat f 0).

(** [encoder.Encode(packets)] for a [[]StoredPacket]: a nil slice is
    written as [null], any other as an array of objects; a float that is
    not finite is refused, and nothing is written then. *)
Definition Encode (packets : slice StoredPacket) : option json * option error :=
  match packets with
  | None => (Some JNull, None)
  | Some l =>
      if forallb finiteRow l then (Some (JArray (map marshalPacket l)), None)
      else (None, Some (unsupportedValue l))
  end.

Section ExportEngine.

Variable sortRows : direction -> list StoredPacket -> list StoredPacket.

(** [created] is what [os.Create(filename)] returns for its error. The
    result is the records written to the file, when it is created; writes
    to a file that is created are taken to succeed. *)
Definition SavePacketsToCSV (d : Database) (created : option error) (limit : Z)
  : option csvFile * option error :=
  match GetPackets sortRows d limit with
  | (_, Some err) => (None, Some (wrapError "failed to get packets" err))
  | (packets, None) =>
      match created with
      | Some err => (None, Some (wrapError "failed to create file" err))
      | None =>
          let file := [csvHeader] in
          let file := fold_left (fun w p => w ++ [csvRow p]) (elems packets) file in
          (Some file, None)
      end
  end.

(** The result is the document written to the file. There is none when
    the file is not created, and none when [Encode] fails: the file is
    created by then and is left empty. *)
Definition SavePacketsToJSON (d : Database) (created : option error) (limit : Z)
  : option json * option error :=
  match GetPackets sortRows d limit with
  | (_, Some err) => (None, Some (wrapError "failed to get packets" err))
  | (packets, None) =>
      match created with
      | Some err => (None, Some (wrapError "failed to create file" err))
      | None =>
          match Encode packets with
          | (_, Some err) => (None, Some (wrapError "failed to encode JSON" err))
          | (doc, None) => (doc, None)
          end
      end
  end.

End ExportEngine.

(** ** Vocabulary of the statements *)

(** The byte [c] does not occur in [s]. *)
Fixpoint noByte (c : ascii) (s : string) : Prop :=
  match s with
  | EmptyString => True
  | String b s' => b <> c /\ noByte c s'
  end.

(** The semicolon-delimited fields of a line, after trimming. *)
Definition fieldsOf (line : string) : list string :=
  strings.Split (strings.TrimSpace line) ";"%char.

(** The five kinds of field the decoder knows, each by the prefix it is
    recognised by. *)
Inductive kind := KTime | KLatitude | KLongitude | KSatellites | KAcceleration.

Definition prefixOf (k : kind) : string :=
  match k with
  | KTime => "Time-"
  | KLatitude => "Latitude-"
  | KLongitude => "Longitude-"
  | KSatellites => "Satellites-"
  | KAcceleration => "Acceleration"
  end.

(** [field] is a field of kind [k]: the prefix, then anything. *)
Definition isField (k : kind) (field : string) : Prop :=
  exists rest, field = (prefixOf k ++ rest)%string.

Definition hasKind (k : kind) (field : string) : bool :=
  strings.HasPrefix field (prefixOf k).

(** A field of one of the five kinds. *)
Definition recognized (field : string) : bool :=
  hasKind KTime field || hasKind KLatitude field || hasKind KLongitude field
  || hasKind KSatellites field || hasKind KAcceleration field.

(** [field] reads [Key:a,b,c]: one colon, and two commas after it. *)
Definition accelShape (field a b c : string) : Prop :=
  exists key,
    field = (key ++ ":" ++ a ++ "," ++ b ++ "," ++ c)%string
    /\ noByte ":" key /\ noByte ":" a /\ noByte ":" b /\ noByte ":" c
    /\ noByte "," a /\ noByte "," b /\ noByte "," c.

Section DecoderVocabulary.

Context {lib : Strconv}.

Definition floatOK (s : string) : Prop := snd (ParseFloat s 64) = None.
Definition intOK (s : string) : Prop := snd (Atoi s) = None.

(** The acceleration field has exactly three comma-separated numeric
    components. *)
Definition threeNumericComponents (field : string) : Prop :=
  exists a b c, accelShape field a b c /\ floatOK a /\ floatOK b /\ floatOK c.

(** A numeric field whose value does not parse: a latitude, a longitude, a
    satellite count, or one of the three components of an acceleration. *)
Definition numericFieldFails (field : string) : Prop :=
  (exists v, field = ("Latitude-" ++ v)%string /\ ~ floatOK v)
  \/ (exists v, field = ("Longitude-" ++ v)%string /\ ~ floatOK v)
  \/ (exists v, field = ("Satellites-" ++ v)%string /\ ~ intOK v)
  \/ (isField KAcceleration field
      /\ exists a b c, accelShape field a b c /\ ~ (floatOK a /\ floatOK b /\ floatOK c)).

(** An acceleration field without exactly three comma-separated numeric
    components. *)
Definition accelFieldFails (field : string) : Prop :=
  isField KAcceleration field /\ ~ threeNumericComponents field.

(** The record [r] holds, in the part fields of kind [k] write, the value
    of [field]. *)
Definition fieldValue (k : kind) (field : string) (r : Packet) : Prop :=
  match k with
  | KTime => exists v, field = ("Time-" ++ v)%string /\ Time r = v
  | KLatitude =>
      exists v, field = ("Latitude-" ++ v)%string
                /\ Latitude r = fst (ParseFloat v 64)
  | KLongitude =>
      exists v, field = ("Longitude-" ++ v)%string
                /\ Longitude r = fst (ParseFloat v 64)
  | KSatellites =>
      exists v, field = ("Satellites-" ++ v)%string /\ Satellites r = fst (Atoi v)
  | KAcceleration =>
      exists a b c,
        accelShape field a b c
        /\ Acceleration r
           = (fst (ParseFloat a 64), fst (ParseFloat b 64), fst (ParseFloat c 64))
  end.

End DecoderVocabulary.

(** The part of a record a kind of field writes. *)
Definition samePart (k : kind) (p q : Packet) : Prop :=
  match k with
  | KTime => Time p = Time q
  | KLatitude => Latitude p = Latitude q
  | KLongitude => Longitude p = Longitude q
  | KSatellites => Satellites p = Satellites q
  | KAcceleration => Acceleration p = Acceleration q
  end.

(** What holds of the pipeline at every moment: the buffer is within its
    capacity, it has room whenever the reader stands at the final send, and
    buffer and packet in hand are the latest of the decoded packets, in
    decode order. *)
Definition pipelineInv (c : pipeline) : Prop :=
  (List.length (buffer c) <= chanCapacity)%nat
  /\ (forall p, reader c = AtSend p -> (List.length (buffer c) < chanCapacity)%nat)
  /\ exists older, decoded c = older ++ buffer c ++ inHand (reader c).

(** All of [l] when [limit <= 0], its first [limit] elements otherwise. *)
Definition capped {A : Type} (limit : Z) (l : list A) : list A :=
  if (limit <=? 0)%Z then l else firstn (Z.to_nat limit) l.

(** Most recent first, and oldest first, by creation time. *)
Definition newerFirst (a b : StoredPacket) : Prop :=
  (StoredPacket.CreatedAt b <= StoredPacket.CreatedAt a)%Z.

Definition olderFirst (a b : StoredPacket) : Prop :=
  (StoredPacket.CreatedAt a <= StoredPacket.CreatedAt b)%Z.

(** A server's sort is lawful when it returns the rows it is given, in an
    order the direction allows. *)
Definition lawfulSort (sortRows : direction -> list StoredPacket -> list StoredPacket)
  : Prop :=
  forall dir l,
    Permutation (sortRows dir l) l
    /\ StronglySorted (fun a b => inOrder dir a b = true) (sortRows dir l).

Fixpoint allDigits (s : string) : Prop :=
  match s with
  | EmptyString => True
  | String c s' => strconv.isDigit c = true /\ allDigits s'
  end.

(** [cell] is a decimal number written with exactly [n] digits after the
    point: an optional minus sign, at least one digit, the point, [n]
    digits. *)
Definition decimalPlaces (n : nat) (cell : string) : Prop :=
  exists sign int frac,
    cell = (sign ++ int ++ "." ++ frac)%string
    /\ (sign = "" \/ sign = "-")
    /\ int <> "" /\ allDigits int
    /\ allDigits frac /\ String.length frac = n.

(** ** Data for the examples *)

Definition exampleRow (id : Z) (z : float) (created : time) : StoredPacket :=
  StoredPacket.mk id "12:00:00" 54.1%float 25.2%float 9%Z 0.1%float (-0.2)%float z
                  created created.

Definition exampleDatabase : Database :=
  mkDatabase [exampleRow 1 0.5%float 100%Z; exampleRow 2 1.5%float 300%Z;
              exampleRow 3 2.5%float 200%Z] 3%Z None.

(** ** The read loop of [startSerialReader] (main.go) *)

Section ReadLoop.

Context {lib : Strconv}.

(** One round of the loop: [reader.ReadString] returned [line] and [err].
    After a read error or a decode error the loop goes on with the next
    line; a decoded packet is enqueued and, when there is a database,
    handed to a goroutine that inserts it. The result is the channel buffer
    ([None] for a send that has to wait) and the packets handed over. *)
Definition readRound (hasDB : bool) (q : chan) (line : string) (err : option error)
  : option chan * list Packet :=
  match err with
  | Some _ => (Some q, [])
  | None =>
      match ParsePacket line with
      | (_, Some _) => (Some q, [])
      | (p, None) => (enqueue q p, if hasDB then [p] else [])
      end
  end.

(** The loop over the reads of the port, with no receive of the frame loop
    in between. *)
Fixpoint readRounds (hasDB : bool) (q : chan) (reads : list (string * option error))
  : option chan * list Packet :=
  match reads with
  | [] => (Some q, [])
  | (line, err) :: reads' =>
      match readRound hasDB q line err with
      | (Some q', saved) =>
          let '(q'', saved') := readRounds hasDB q' reads' in (q'', saved ++ saved')
      | (None, saved) => (None, saved)
      end
  end.

(** The packets of the reads that came without error and decode, in
    order. *)
Definition decodedOf (reads : list (string * option error)) : list Packet :=
  flat_map (fun r =>
              match snd r, ParsePacket (fst r) with
              | None, (p, None) => [p]
              | _, _ => []
              end) reads.

End ReadLoop.

(** ** What a stored row holds *)

(** The row an insert of [packet] makes. *)
Definition holds (r : StoredPacket) (packet : Packet) : Prop :=
  StoredPacket.Time r = Time packet
  /\ StoredPacket.Latitude r = Latitude packet
  /\ StoredPacket.Longitude r = Longitude packet
  /\ StoredPacket.Satellites r = Satellites packet
  /\ (StoredPacket.AccelerationX r, StoredPacket.AccelerationY r,
      StoredPacket.AccelerationZ r) = Acceleration packet.

(** ** [CreateTestPacket], [getDatabaseDSN] and [getEnvOrDefault] *)

(** The conversion [float64(n)] of an integer: the nearest binary64. *)
Definition float64OfInt (n : Z) : float :=
  SF2Prim (binary_normalize prec emax n 0 false).

(** [CreateTestPacket] calls [time.Now()] seven times: [clock] is the first
    reading formatted as ["15:04:05"], [n1] to [n6] are the [UnixNano()] of
    the others. Go's [%] is the remainder of the truncating division. *)
Definition CreateTestPacket (clock : string) (n1 n2 n3 n4 n5 n6 : Z) : Packet :=
  mkPacket clock
    (54.687157 + float64OfInt (Z.rem n1 1000) / 100000.0)%float
    (25.279652 + float64OfInt (Z.rem n2 1000) / 100000.0)%float
    (8 + Z.rem n3 5)%Z
    ((float64OfInt (Z.rem n4 200 - 100) / 100.0)%float,
     (float64OfInt (Z.rem n5 200 - 100) / 100.0)%float,
     (float64OfInt (Z.rem n6 200 - 100) / 100.0)%float).

(** The environment: [os.Getenv], which returns [""] for a variable that is
    not set. *)
Definition environment : Type := string -> string.

Definition getEnvOrDefault (env : environment) (key defaultValue : string) : string :=
  let value := env key in
  if negb (String.eqb value "") then value else defaultValue.

Definition getDatabaseDSN (env : environment) : string :=
  let dsn := env "DATABASE_DSN" in
  if negb (String.eqb dsn "") then dsn
  else
    let host := getEnvOrDefault env "DB_HOST" "127.0.0.1" in
    let port := getEnvOrDefault env "DB_PORT" "3306" in
    let user := getEnvOrDefault env "DB_USER" "root" in
    let password := getEnvOrDefault env "DB_PASSWORD" "" in
    let dbname := getEnvOrDefault env "DB_NAME" "komkomunikacijos" in
    user ++ ":" ++ password ++ "@tcp(" ++ host ++ ":" ++ port ++ ")/" ++ dbname
         ++ "?parseTime=true".

(** A byte [strings.TrimSpace] cuts as a rune of its own. *)
Definition asciiSpace (c : ascii) : bool :=
  match nat_of_ascii c with
  | 9%nat | 10%nat | 11%nat | 12%nat | 13%nat | 32%nat => true
  | _ => false
  end.

Fixpoint allSpace (s : string) : Prop :=
  match s with
  | EmptyString => True
  | String c s' => asciiSpace c = true /\ allSpace s'
  end.

(** [lo <= x <= hi] on floats. *)
Definition within (lo hi x : float) : bool :=
  (PrimFloat.leb lo x && PrimFloat.leb x hi)%bool.

(** ** The frame event of [runApp] (main.go) *)

(** [GenerateExportFilename(format)], where [stamp] is
    [time.Now().Format("20060102_150405")]. *)
Definition GenerateExportFilename (stamp format : string) : string :=
  "komkomunikacijos_data_" ++ stamp ++ "." ++ format.

(** The fields of [UIState] the frame event reads or writes besides those
    of the drain step, and the drain step's. *)
Record AppState := mkAppState {
  ui : UIState;
  PortListValue : string;
  BaudListValue : string;
  DBConnected : bool;
  DBPacketCount : Z;
  DBSeries : slice float32;
  DBLastPacket : option StoredPacket
}.

(** What [Clicked(gtx)] returns for each button in one frame. *)
Record clicks := mkClicks {
  OpenBtn : bool;
  ClearBtn : bool;
  TestWriteBtn : bool;
  TestReadBtn : bool;
  ClearDBBtn : bool;
  LoadFromDBBtn : bool;
  SaveCSVBtn : bool;
  SaveJSONBtn : bool
}.

(** What one frame takes from outside: the button clicks, the packets the
    channel holds, the packet [CreateTestPacket] returns, the server time
    of an insert, the time stamp [GenerateExportFilename] reads for each
    file name, and what [os.Create] returns for each file. *)
Record frameInput := mkFrameInput {
  clicked : clicks;
  received : list Packet;
  testPacket : Packet;
  insertTime : time;
  csvStamp : string;
  jsonStamp : string;
  csvCreated : option error;
  jsonCreated : option error
}.

(** A file an export has written records or a document to. *)
Inductive exported :=
| CSVFile (name : string) (records : csvFile)
| JSONFile (name : string) (document : json).

(** What a frame leaves: the state, the database behind the handle [db]
    ([None] for the nil handle), and the files written. *)
Record frameOutput := mkFrameOutput {
  state : AppState;
  database : option Database;
  files : list exported
}.

Definition withUI (a : AppState) (u : UIState) : AppState :=
  mkAppState u (PortListValue a) (BaudListValue a) (DBConnected a) (DBPacketCount a)
             (DBSeries a) (DBLastPacket a).

(** [state.LogLines = append(state.LogLines, line)]. *)
Definition appendLog (a : AppState) (line : string) : AppState :=
  withUI a (mkUIState (LastPacket (ui a)) (Series (ui a)) (LogLines (ui a) ++ [line])
                      (PortOpen (ui a))).

(** [if len(state.LogLines) > logCapacity { ... }]. *)
Definition trimLog (a : AppState) : AppState :=
  withUI a (mkUIState (LastPacket (ui a)) (Series (ui a))
                      (keepLast logCapacity (LogLines (ui a))) (PortOpen (ui a))).

(** [len(s)] of a slice. *)
Definition len {A : Type} (s : slice A) : Z := Z.of_nat (List.length (elems s)).

Section Frame.

Variable sortRows : direction -> list StoredPacket -> list StoredPacket.

(** The text of an error, as [%v] prints it. *)
Variable errorText : error -> string.

Definition onOpen (a : AppState) : AppState :=
  let a := withUI a (mkUIState (LastPacket (ui a)) (Series (ui a)) (LogLines (ui a)) true) in
  let a := appendLog a ("[INFO] COM PORT opened: " ++ PortListValue a ++ " @ "
                        ++ BaudListValue a ++ " baud") in
  trimLog a.

Definition onClear (a : AppState) : AppState :=
  withUI a (mkUIState (LastPacket (ui a)) [] [] (PortOpen (ui a))).

(** The body of a database button's handler: from the state and the
    database to the state, the database and the files written. *)
Definition handler : Type := AppState -> Database -> AppState * Database * list exported.

Definition onTestWrite (input : frameInput) : handler := fun a db =>
  let '(db', (id, err)) := InsertPacket (insertTime input) db (testPacket input) in
  let a :=
    match err with
    | Some e => appendLog a ("[ERROR] Failed to write to DB: " ++ errorText e)
    | None =>
        let a := appendLog a ("[DB] Test packet written with ID: " ++ strconv.Itoa id) in
        match GetPacketCount db' with
        | (count, None) =>
            mkAppState (ui a) (PortListValue a) (BaudListValue a) (DBConnected a) count
                       (DBSeries a) (DBLastPacket a)
        | (_, Some _) => a
        end
    end in
  (trimLog a, db', []).

(** [fmt.Sprintf("[DB] ID:%d Lat:%.6f Lon:%.6f Sat:%d AccZ:%.2f", ...)]. *)
Definition storedLine (p : StoredPacket) : string :=
  "[DB] ID:" ++ strconv.Itoa (StoredPacket.ID p)
    ++ " Lat:" ++ strconv.FormatFloat (StoredPacket.Latitude p) 6
    ++ " Lon:" ++ strconv.FormatFloat (StoredPacket.Longitude p) 6
    ++ " Sat:" ++ strconv.Itoa (StoredPacket.Satellites p)
    ++ " AccZ:" ++ strconv.FormatFloat (StoredPacket.AccelerationZ p) 2.

(** [for i, p := range packets { if i < 3 { ... } }], from index [i]. *)
Fixpoint logFirstThree (i : nat) (packets : list StoredPacket) (a : AppState) : AppState :=
  match packets with
  | [] => a
  | p :: rest =>
      logFirstThree (S i) rest (if (i <? 3)%nat then appendLog a (storedLine p) else a)
  end.

Definition onTestRead : handler := fun a db =>
  let '(packets, err) := GetPackets sortRows db 5 in
  let a :=
    match err with
    | Some e => appendLog a ("[ERROR] Failed to read from DB: " ++ errorText e)
    | None =>
        let a := appendLog a ("[DB] Retrieved " ++ strconv.Itoa (len packets)
                              ++ " packets from database") in
        let a := logFirstThree 0 (elems packets) a in
        match elems packets with
        | first :: _ =>
            mkAppState (ui a) (PortListValue a) (BaudListValue a) (DBConnected a)
                       (DBPacketCount a) (DBSeries a) (Some first)
        | [] => a
        end
    end in
  (trimLog a, db, []).

Definition onClearDB : handler := fun a db =>
  let '(db', err) := DeleteAllPackets db in
  let a :=
    match err with
    | Some e => appendLog a ("[ERROR] Failed to clear DB: " ++ errorText e)
    | None =>
        let a := appendLog a "[DB] All packets cleared from database" in
        mkAppState (ui a) (PortListValue a) (BaudListValue a) (DBConnected a) 0 None None
    end in
  (trimLog a, db', []).

Definition onLoadFromDB : handler := fun a db =>
  let '(series, err) := GetAccelerationSeries sortRows db (Z.of_nat seriesCapacity) in
  let a :=
    match err with
    | Some e => appendLog a ("[ERROR] Failed to load series from DB: " ++ errorText e)
    | None =>
        let a := mkAppState (ui a) (PortListValue a) (BaudListValue a) (DBConnected a)
                            (DBPacketCount a) series (DBLastPacket a) in
        appendLog a ("[DB] Loaded " ++ strconv.Itoa (len series)
                     ++ " data points for visualization")
    end in
  (trimLog a, db, []).

Definition onSaveCSV (input : frameInput) : handler := fun a db =>
  let filename := GenerateExportFilename (csvStamp input) "csv" in
  let '(file, err) := SavePacketsToCSV sortRows db (csvCreated input) 0 in
  let a :=
    match err with
    | Some e => appendLog a ("[ERROR] Failed to save CSV: " ++ errorText e)
    | None => appendLog a ("[EXPORT] Data saved to: " ++ filename)
    end in
  (trimLog a, db, match file with
                  | Some records => [CSVFile filename records]
                  | None => []
                  end).

Definition onSaveJSON (input : frameInput) : handler := fun a db =>
  let filename := GenerateExportFilename (jsonStamp input) "json" in
  let '(file, err) := SavePacketsToJSON sortRows db (jsonCreated input) 0 in
  let a :=
    match err with
    | Some e => appendLog a ("[ERROR] Failed to save JSON: " ++ errorText e)
    | None => appendLog a ("[EXPORT] Data saved to: " ++ filename)
    end in
  (trimLog a, db, match file with
                  | Some document => [JSONFile filename document]
                  | None => []
                  end).

(** [if btn.Clicked(gtx) && state.DBConnected && db != nil { ... }]: the
    handler runs on the database behind a handle that is not nil. *)
Definition handle (click : bool) (h : handler) (s : AppState * option Database * list exported)
  : AppState * option Database * list exported :=
  let '(a, db, written) := s in
  match db with
  | Some d =>
      if click && DBConnected a then
        let '(a', d', fs) := h a d in (a', Some d', written ++ fs)
      else s
  | None => s
  end.

(** The [app.FrameEvent] branch, up to the layout: the drain loop, then the
    handlers of the eight buttons in their order. *)
Definition frame (input : frameInput) (a : AppState) (db : option Database) : frameOutput :=
  let c := clicked input in
  let a := withUI a (drain (ui a) (received input)) in
  let a := if OpenBtn c then onOpen a else a in
  let a := if ClearBtn c then onClear a else a in
  let s := (a, db, []) in
  let s := handle (TestWriteBtn c) (onTestWrite input) s in
  let s := handle (TestReadBtn c) onTestRead s in
  let s := handle (ClearDBBtn c) onClearDB s in
  let s := handle (LoadFromDBBtn c) onLoadFromDB s in
  let s := handle (SaveCSVBtn c) (onSaveCSV input) s in
  let s := handle (SaveJSONBtn c) (onSaveJSON input) s in
  let '(a, db, written) := s in
  mkFrameOutput a db written.

(** The frames of a run, one after the other. *)
Fixpoint frames (inputs : list frameInput) (a : AppState) (db : option Database)
  : frameOutput :=
  match inputs with
  | [] => mkFrameOutput a db []
  | input :: inputs' =>
      let out := frame input a db in
      let rest := frames inputs' (state out) (database out) in
      mkFrameOutput (state rest) (database rest) (files out ++ files rest)
  end.

(** [series := st.Series; if len(st.DBSeries) > 0 { series = st.DBSeries }]
    of [rightPanel]: what is handed to [drawGraph]. *)
Definition shownSeries (a : AppState) : list float32 :=
  if (0 <? len (DBSeries a))%Z then elems (DBSeries a) else Series (ui a).

End Frame.

(** [var state UIState] with the port and baud rate [runApp] selects, and
    [state.DBConnected] as [NewDatabase] succeeded or not. *)
Definition startState (connected : bool) : AppState :=
  mkAppState (mkUIState zeroPacket [] [] false) "COM40 - STMicroelect" "115200"
             connected 0 None None.

(** The state is within its capacities. *)
Definition withinCapacity (a : AppState) : Prop :=
  (List.length (Series (ui a)) <= seriesCapacity)%nat
  /\ (List.length (LogLines (ui a)) <= logCapacity)%nat
  /\ (List.length (elems (DBSeries a)) <= seriesCapacity)%nat.

(** The clicks with the six database buttons released. *)
Definition withoutDatabaseButtons (c : clicks) : clicks :=
  mkClicks (OpenBtn c) (ClearBtn c) false false false false false false.

Definition withClicks (input : frameInput) (c : clicks) : frameInput :=
  mkFrameInput c (received input) (testPacket input) (insertTime input) (csvStamp input)
               (jsonStamp input) (csvCreated input) (jsonCreated input).

(** What the handlers leave alone of the database fields of the state. *)
Definition sameDatabaseFields (a b : AppState) : Prop :=
  DBConnected a = DBConnected b /\ DBPacketCount a = DBPacketCount b
  /\ DBSeries a = DBSeries b /\ DBLastPacket a = DBLastPacket b.

(* ===================================================================== *)
(** * Part II: properties                                                 *)
(* ===================================================================== *)

(** ** Strings *)

Lemma HasPrefix_app (p r : string) : strings.HasPrefix (p ++ r) p = true.
Proof.
  induction p as [|a p IH]; simpl; [reflexivity|].
  now rewrite Ascii.eqb_refl.
Qed.

Lemma HasPrefix_inv (s p : string) :
  strings.HasPrefix s p = true -> exists r, s = (p ++ r)%string.
Proof.
  revert s. induction p as [|a p IH]; intros s H; simpl in *.
  - now exists s.
  - destruct s as [|b s]; [discriminate|].
    apply andb_true_iff in H. destruct H as [Hb Hs].
    apply Ascii.eqb_eq in Hb. subst b.
    destruct (IH _ Hs) as [r ->]. now exists r.
Qed.

Lemma skip_app (p r : string) : strings.skip (String.length p) (p ++ r) = r.
Proof. induction p as [|a p IH]; simpl; [now destruct r|exact IH]. Qed.

Lemma TrimPrefix_app (p r : string) : strings.TrimPrefix (p ++ r) p = r.
Proof. unfold strings.TrimPrefix. now rewrite HasPrefix_app, skip_app. Qed.

Lemma Split_not_nil (s : string) (c : ascii) : strings.Split s c <> [].
Proof.
  destruct s as [|b s]; simpl; [discriminate|].
  destruct (Ascii.eqb b c); [discriminate|].
  destruct (strings.Split s c); discriminate.
Qed.

Lemma Split_noByte (s : string) (c : ascii) : Forall (noByte c) (strings.Split s c).
Proof.
  induction s as [|b s IH]; simpl.
  - repeat constructor.
  - destruct (Ascii.eqb b c) eqn:E.
    + constructor; [exact I|exact IH].
    + apply Ascii.eqb_neq in E.
      destruct (strings.Split s c) as [|w ws].
      * repeat constructor. exact E.
      * inversion IH; subst. constructor; [split; assumption|assumption].
Qed.

Lemma Join_Split (s : string) (c : ascii) :
  strings.Join (strings.Split s c) c = s.
Proof.
  induction s as [|b s IH]; simpl; [reflexivity|].
  destruct (Ascii.eqb b c) eqn:E.
  - apply Ascii.eqb_eq in E. subst b.
    pose proof (Split_not_nil s c) as Hn.
    destruct (strings.Split s c) as [|w ws]; [contradiction|].
    simpl in *. now rewrite IH.
  - pose proof (Split_not_nil s c) as Hn.
    destruct (strings.Split s c) as [|w ws]; [contradiction|].
    destruct ws as [|w' ws]; simpl in *; now rewrite <- IH.
Qed.

Lemma Split_whole (w : string) (c : ascii) :
  noByte c w -> strings.Split w c = [w].
Proof.
  induction w as [|b w IH]; simpl; intros H; [reflexivity|].
  destruct H as [Hb Hw]. apply Ascii.eqb_neq in Hb. rewrite Hb.
  now rewrite (IH Hw).
Qed.

Lemma Split_app (w rest : string) (c : ascii) :
  noByte c w ->
  strings.Split (w ++ String c rest) c = w :: strings.Split rest c.
Proof.
  induction w as [|b w IH]; simpl; intros H.
  - now rewrite Ascii.eqb_refl.
  - destruct H as [Hb Hw]. apply Ascii.eqb_neq in Hb. rewrite Hb.
    now rewrite (IH Hw).
Qed.

Lemma Split_Join (l : list string) (c : ascii) :
  l <> [] -> Forall (noByte c) l -> strings.Split (strings.Join l c) c = l.
Proof.
  induction l as [|w l IH]; intros Hn Hall; [contradiction|].
  inversion Hall as [|? ? Hw Hl]; subst.
  destruct l as [|w' l].
  - simpl. now apply Split_whole.
  - change (strings.Join (w :: w' :: l) c)
      with (w ++ String c (strings.Join (w' :: l) c))%string.
    rewrite Split_app by assumption.
    f_equal. apply IH; [discriminate|assumption].
Qed.

(** [Split] gives exactly two pieces on the strings with exactly one
    separator, and exactly three on those with exactly two. *)
Lemma Split_two (s k v : string) (c : ascii) :
  strings.Split s c = [k; v]
  <-> s = (k ++ String c v)%string /\ noByte c k /\ noByte c v.
Proof.
  split.
  - intros H. pose proof (Join_Split s c) as HJ.
    pose proof (Split_noByte s c) as HF. rewrite H in HJ, HF.
    simpl in HJ.
    inversion HF as [|? ? Hk HF']. inversion HF' as [|? ? Hv _].
    repeat split; [now symmetry|assumption|assumption].
  - intros (-> & Hk & Hv).
    change (k ++ String c v)%string with (strings.Join [k; v] c).
    apply Split_Join; [discriminate|]. repeat constructor; assumption.
Qed.

Lemma Split_three (s x y z : string) (c : ascii) :
  strings.Split s c = [x; y; z]
  <-> s = (x ++ String c (y ++ String c z))%string
      /\ noByte c x /\ noByte c y /\ noByte c z.
Proof.
  split.
  - intros H. pose proof (Join_Split s c) as HJ.
    pose proof (Split_noByte s c) as HF. rewrite H in HJ, HF.
    simpl in HJ.
    inversion HF as [|? ? Hx HF']. inversion HF' as [|? ? Hy HF''].
    inversion HF'' as [|? ? Hz _].
    repeat split; [now symmetry|assumption|assumption|assumption].
  - intros (-> & Hx & Hy & Hz).
    change (x ++ String c (y ++ String c z))%string with (strings.Join [x; y; z] c).
    apply Split_Join; [discriminate|]. repeat constructor; assumption.
Qed.

Lemma noByte_app (c : ascii) (s t : string) :
  noByte c (s ++ t) <-> noByte c s /\ noByte c t.
Proof.
  induction s as [|b s IH]; simpl; [tauto|]. rewrite IH. tauto.
Qed.

(** ** The decoder *)

Lemma hasKind_isField (k : kind) (field : string) :
  hasKind k field = true <-> isField k field.
Proof.
  unfold hasKind, isField. split.
  - apply HasPrefix_inv.
  - intros [r ->]. apply HasPrefix_app.
Qed.

(** The five prefixes exclude one another. *)
Lemma hasKind_unique (k k' : kind) (field : string) :
  hasKind k field = true -> hasKind k' field = true -> k = k'.
Proof.
  intros H H'. apply hasKind_isField in H. destruct H as [r ->].
  destruct k, k'; try reflexivity; discriminate H'.
Qed.

Lemma recognized_hasKind (field : string) :
  recognized field = true <-> exists k, hasKind k field = true.
Proof.
  unfold recognized. split.
  - intros H. repeat (apply orb_true_iff in H; destruct H as [H|H]);
      eauto.
  - intros [k H]. destruct k; rewrite H; repeat rewrite orb_true_r; reflexivity.
Qed.

Lemma length_two {A : Type} (l : list A) :
  List.length l = 2%nat <-> exists x y, l = [x; y].
Proof.
  split.
  - destruct l as [|x [|y [|z l]]]; try discriminate. eauto.
  - intros (x & y & ->). reflexivity.
Qed.

Lemma length_three {A : Type} (l : list A) :
  List.length l = 3%nat <-> exists x y z, l = [x; y; z].
Proof.
  split.
  - destruct l as [|x [|y [|z [|w l]]]]; try discriminate. eauto.
  - intros (x & y & z & ->). reflexivity.
Qed.

(** The shape [Key:a,b,c] is what the two [Split]s of the decoder find. *)
Lemma accelShape_Split (field a b c : string) :
  accelShape field a b c
  <-> exists key v, strings.Split field ":"%char = [key; v]
                    /\ strings.Split v ","%char = [a; b; c].
Proof.
  unfold accelShape. split.
  - intros (key & -> & Hk & Ha & Hb & Hc & Ha' & Hb' & Hc').
    exists key, (a ++ "," ++ b ++ "," ++ c)%string. split.
    + apply Split_two. repeat split; try assumption.
      apply (proj2 (noByte_app _ a _)). split; [assumption|].
      split; [discriminate|].
      apply (proj2 (noByte_app _ b _)). split; [assumption|].
      split; [discriminate|assumption].
    + apply Split_three. repeat split; assumption.
  - intros (key & v & H2 & H3).
    apply Split_two in H2. destruct H2 as (-> & Hk & Hv).
    apply Split_three in H3. destruct H3 as (-> & Ha & Hb & Hc).
    apply (proj1 (noByte_app _ a _)) in Hv. destruct Hv as [Hva [_ Hv]].
    apply (proj1 (noByte_app _ b _)) in Hv. destruct Hv as [Hvb [_ Hvc]].
    exists key. repeat split; assumption.
Qed.

Lemma accelShape_unique (field a b c a' b' c' : string) :
  accelShape field a b c -> accelShape field a' b' c' ->
  a = a' /\ b = b' /\ c = c'.
Proof.
  intros H H'. apply accelShape_Split in H, H'.
  destruct H as (k & v & H2 & H3). destruct H' as (k' & v' & H2' & H3').
  rewrite H2 in H2'. injection H2' as _ <-. rewrite H3 in H3'.
  injection H3' as -> -> ->. auto.
Qed.

Section DecoderFacts.

Context {lib : Strconv}.

Lemma parseField_Time (p : Packet) (v : string) :
  parseField p ("Time-" ++ v) = (setTime p v, None).
Proof. reflexivity. Qed.

Lemma parseField_Latitude (p : Packet) (v : string) :
  parseField p ("Latitude-" ++ v)
  = match ParseFloat v 64 with
    | (_, Some err) => (p, Some err)
    | (f, None) => (setLatitude p f, None)
    end.
Proof. reflexivity. Qed.

Lemma parseField_Longitude (p : Packet) (v : string) :
  parseField p ("Longitude-" ++ v)
  = match ParseFloat v 64 with
    | (_, Some err) => (p, Some err)
    | (f, None) => (setLongitude p f, None)
    end.
Proof. reflexivity. Qed.

Lemma parseField_Satellites (p : Packet) (v : string) :
  parseField p ("Satellites-" ++ v)
  = match Atoi v with
    | (_, Some err) => (p, Some err)
    | (n, None) => (setSatellites p n, None)
    end.
Proof. reflexivity. Qed.

Lemma parseField_other (p : Packet) (field : string) :
  recognized field = false -> parseField p field = (p, None).
Proof.
  unfold recognized, hasKind. cbn [prefixOf]. intros H.
  repeat (apply orb_false_iff in H; destruct H as [H ?]).
  unfold parseField.
  repeat match goal with E : _ = false |- _ => rewrite E; clear E end.
  reflexivity.
Qed.

(** The acceleration branch on a field of the shape [Key:a,b,c]. *)
Lemma parseField_Acceleration (p : Packet) (field a b c : string) :
  isField KAcceleration field -> accelShape field a b c ->
  parseField p field = accelLoop 3 0 [a; b; c] p.
Proof.
  intros [r ->] H. cbn [prefixOf] in *. apply accelShape_Split in H.
  destruct H as (key & v & H2 & H3).
  unfold parseField.
  change (strings.HasPrefix ("Acceleration" ++ r) "Time-") with false.
  change (strings.HasPrefix ("Acceleration" ++ r) "Latitude-") with false.
  change (strings.HasPrefix ("Acceleration" ++ r) "Longitude-") with false.
  change (strings.HasPrefix ("Acceleration" ++ r) "Satellites-") with false.
  rewrite (HasPrefix_app "Acceleration" r).
  cbv zeta. rewrite H2. simpl nth. rewrite H3. reflexivity.
Qed.

(** The acceleration branch on a field of any other shape. *)
Lemma parseField_Acceleration_bad (p : Packet) (field : string) :
  isField KAcceleration field -> (forall a b c, ~ accelShape field a b c) ->
  exists err, parseField p field = (p, Some err).
Proof.
  intros [r ->] H. cbn [prefixOf] in *.
  unfold parseField.
  change (strings.HasPrefix ("Acceleration" ++ r) "Time-") with false.
  change (strings.HasPrefix ("Acceleration" ++ r) "Latitude-") with false.
  change (strings.HasPrefix ("Acceleration" ++ r) "Longitude-") with false.
  change (strings.HasPrefix ("Acceleration" ++ r) "Satellites-") with false.
  rewrite (HasPrefix_app "Acceleration" r).
  cbv zeta.
  destruct (List.length (strings.Split ("Acceleration" ++ r) ":") =? 2)%nat eqn:E2;
    [|eexists; reflexivity].
  apply Nat.eqb_eq, length_two in E2. destruct E2 as (key & v & E2).
  rewrite E2. simpl nth. simpl negb.
  destruct (List.length (strings.Split v ",") =? 3)%nat eqn:E3;
    [|eexists; reflexivity].
  apply Nat.eqb_eq, length_three in E3. destruct E3 as (a & b & c & E3).
  exfalso. apply (H a b c). apply accelShape_Split. eauto.
Qed.

Lemma accelLoop_three (p : Packet) (a b c : string) :
  accelLoop 3 0 [a; b; c] p
  = match ParseFloat a 64 with
    | (_, Some err) => (p, Some err)
    | (fa, None) =>
        match ParseFloat b 64 with
        | (_, Some err) => (setAcceleration p 0 fa, Some err)
        | (fb, None) =>
            match ParseFloat c 64 with
            | (_, Some err) =>
                (setAcceleration (setAcceleration p 0 fa) 1 fb, Some err)
            | (fc, None) =>
                (mkPacket (Time p) (Latitude p) (Longitude p) (Satellites p)
                          (fa, fb, fc), None)
            end
        end
    end.
Proof.
  simpl. destruct (ParseFloat a 64) as [fa [ea|]]; [reflexivity|].
  destruct (ParseFloat b 64) as [fb [eb|]]; [reflexivity|].
  destruct (ParseFloat c 64) as [fc [ec|]]; [reflexivity|].
  destruct p as [t la lo sa [[x y] z]]. reflexivity.
Qed.

Lemma accelLoop_ok (p : Packet) (a b c : string) :
  snd (accelLoop 3 0 [a; b; c] p) = None
  <-> floatOK a /\ floatOK b /\ floatOK c.
Proof.
  rewrite accelLoop_three. unfold floatOK.
  destruct (ParseFloat a 64) as [fa [ea|]];
    destruct (ParseFloat b 64) as [fb [eb|]];
    destruct (ParseFloat c 64) as [fc [ec|]]; simpl;
    split; try discriminate; try tauto; intros (? & ? & ?); discriminate.
Qed.

Lemma accelLoop_value (p q : Packet) (a b c : string) :
  accelLoop 3 0 [a; b; c] p = (q, None) ->
  q = mkPacket (Time p) (Latitude p) (Longitude p) (Satellites p)
        (fst (ParseFloat a 64), fst (ParseFloat b 64), fst (ParseFloat c 64)).
Proof.
  rewrite accelLoop_three.
  destruct (ParseFloat a 64) as [fa [ea|]]; [discriminate|].
  destruct (ParseFloat b 64) as [fb [eb|]]; [discriminate|].
  destruct (ParseFloat c 64) as [fc [ec|]]; [discriminate|].
  now intros [= <-].
Qed.

(** A field makes the decoder fail exactly when it is a numeric field that
    does not parse or an acceleration field of the wrong shape. *)
Lemma parseField_error_iff (p : Packet) (field : string) :
  snd (parseField p field) <> None <-> numericFieldFails field \/ accelFieldFails field.
Proof.
  unfold numericFieldFails, accelFieldFails, threeNumericComponents.
  destruct (recognized field) eqn:R.
  - apply recognized_hasKind in R. destruct R as [k Hk].
    apply hasKind_isField in Hk. destruct k; destruct Hk as [r ->]; cbn [prefixOf].
    + rewrite parseField_Time. simpl. split; [congruence|].
      intros [[(v & E & _)|[(v & E & _)|[(v & E & _)|([r' E] & _)]]]|[[r' E] _]];
        discriminate E.
    + rewrite parseField_Latitude. split.
      * intros H. left. left. exists r. split; [reflexivity|].
        unfold floatOK.
        destruct (ParseFloat r 64) as [f [e|]]; simpl in *; congruence.
      * intros [[(v & E & H)|[(v & E & _)|[(v & E & _)|([r' E] & _)]]]|[[r' E] _]];
          try discriminate E.
        injection E as <-. unfold floatOK in H.
        destruct (ParseFloat r 64) as [f [e|]]; simpl in *; congruence.
    + rewrite parseField_Longitude. split.
      * intros H. left. right. left. exists r. split; [reflexivity|].
        unfold floatOK.
        destruct (ParseFloat r 64) as [f [e|]]; simpl in *; congruence.
      * intros [[(v & E & _)|[(v & E & H)|[(v & E & _)|([r' E] & _)]]]|[[r' E] _]];
          try discriminate E.
        injection E as <-. unfold floatOK in H.
        destruct (ParseFloat r 64) as [f [e|]]; simpl in *; congruence.
    + rewrite parseField_Satellites. split.
      * intros H. left. right. right. left. exists r. split; [reflexivity|].
        unfold intOK.
        destruct (Atoi r) as [f [e|]]; simpl in *; congruence.
      * intros [[(v & E & _)|[(v & E & _)|[(v & E & H)|([r' E] & _)]]]|[[r' E] _]];
          try discriminate E.
        injection E as <-. unfold intOK in H.
        destruct (Atoi r) as [f [e|]]; simpl in *; congruence.
    + assert (HA : isField KAcceleration ("Acceleration" ++ r)) by (now exists r).
      split.
      * intros H. right. split; [exact HA|].
        intros (a & b & c & Hs & Hok).
        apply H. rewrite (parseField_Acceleration p _ a b c HA Hs).
        now apply accelLoop_ok.
      * intros H Hnone. 
        assert (Hex : exists a b c, accelShape ("Acceleration" ++ r) a b c
                                    /\ floatOK a /\ floatOK b /\ floatOK c).
        { destruct (parseField p ("Acceleration" ++ r)) as [q e] eqn:E.
          simpl in Hnone. subst e.
          unfold parseField in E.
          change (strings.HasPrefix ("Acceleration" ++ r) "Time-") with false in E.
          change (strings.HasPrefix ("Acceleration" ++ r) "Latitude-") with false in E.
          change (strings.HasPrefix ("Acceleration" ++ r) "Longitude-") with false in E.
          change (strings.HasPrefix ("Acceleration" ++ r) "Satellites-") with false in E.
          rewrite (HasPrefix_app "Acceleration" r) in E. cbv zeta in E.
          destruct (List.length (strings.Split ("Acceleration" ++ r) ":") =? 2)%nat eqn:E2;
            [|discriminate E].
          apply Nat.eqb_eq, length_two in E2. destruct E2 as (key & v & E2).
          rewrite E2 in E. simpl nth in E. simpl negb in E.
          destruct (List.length (strings.Split v ",") =? 3)%nat eqn:E3;
            [|discriminate E].
          apply Nat.eqb_eq, length_three in E3. destruct E3 as (a & b & c & E3).
          rewrite E3 in E. simpl negb in E. cbv iota in E.
          exists a, b, c. split; [apply accelShape_Split; eauto|].
          apply (accelLoop_ok p). now rewrite E. }
        destruct H as [[(v & E & _)|[(v & E & _)|[(v & E & _)|(_ & a & b & c & Hs & Hbad)]]]
                      |[_ Hbad]]; try discriminate E.
        -- destruct Hex as (a' & b' & c' & Hs' & Hok).
           destruct (accelShape_unique _ _ _ _ _ _ _ Hs Hs') as (-> & -> & ->).
           now apply Hbad.
        -- now apply Hbad.
  - rewrite (parseField_other p field R). simpl. split; [congruence|].
    assert (Hno : forall k, ~ isField k field).
    { intros k Hk. apply hasKind_isField in Hk.
      assert (recognized field = true) by (apply recognized_hasKind; eauto).
      congruence. }
    intros [[(v & E & _)|[(v & E & _)|[(v & E & _)|(HA & _)]]]|[HA _]]; exfalso.
    + apply (Hno KLatitude). now exists v.
    + apply (Hno KLongitude). now exists v.
    + apply (Hno KSatellites). now exists v.
    + now apply (Hno KAcceleration).
    + now apply (Hno KAcceleration).
Qed.

Lemma parseFields_app (p : Packet) (l1 l2 : list string) :
  parseFields p (l1 ++ l2)
  = match parseFields p l1 with
    | (p', None) => parseFields p' l2
    | (p', Some err) => (p', Some err)
    end.
Proof.
  revert p. induction l1 as [|f l1 IH]; intros p; simpl; [reflexivity|].
  destruct (parseField p f) as [p' [e|]]; [reflexivity|apply IH].
Qed.

(** The loop fails exactly when one of the fields does. *)
Lemma parseFields_error_iff (p : Packet) (fs : list string) :
  snd (parseFields p fs) <> None <-> exists field, In field fs /\ (numericFieldFails field \/ accelFieldFails field).
Proof.
  revert p. induction fs as [|f fs IH]; intros p; simpl.
  - split; [congruence|]. intros (? & [] & _).
  - pose proof (parseField_error_iff p f) as Hf.
    destruct (parseField p f) as [p' [e|]]; simpl in *.
    + split; [|congruence]. intros _. exists f. split; [now left|].
      apply Hf. congruence.
    + rewrite IH. split.
      * intros (g & Hin & Hg). exists g. split; [now right|assumption].
      * intros (g & [<-|Hin] & Hg); [|eauto].
        exfalso. apply Hf in Hg. now apply Hg.
Qed.

Lemma fieldsOf_not_empty (line : string) :
  (6 <= List.length (fieldsOf line))%nat -> strings.TrimSpace line <> "".
Proof.
  unfold fieldsOf. intros H E. rewrite E in H. simpl in H. lia.
Qed.

(** On a line of six fields or more the decoder is the loop over the fields
    after the first. *)
Lemma ParsePacket_fields (line : string) :
  (6 <= List.length (fieldsOf line))%nat ->
  ParsePacket line = parseFields zeroPacket (tl (fieldsOf line)).
Proof.
  intros H. pose proof (fieldsOf_not_empty line H) as Hne.
  unfold ParsePacket. cbv zeta.
  apply String.eqb_neq in Hne. rewrite Hne.
  fold (fieldsOf line).
  destruct (Nat.ltb_spec (List.length (fieldsOf line)) 6); [lia|reflexivity].
Qed.

Lemma ParsePacket_short (line : string) :
  (List.length (fieldsOf line) < 6)%nat ->
  exists err, ParsePacket line = (zeroPacket, Some err).
Proof.
  intros H. unfold ParsePacket. cbv zeta.
  destruct (String.eqb (strings.TrimSpace line) ""); [eexists; reflexivity|].
  fold (fieldsOf line).
  destruct (Nat.ltb_spec (List.length (fieldsOf line)) 6); [|lia].
  eexists; reflexivity.
Qed.

(** C1. [ParsePacket] returns an error exactly when the trimmed line is
    empty, or it has fewer than six semicolon-delimited fields, or a field
    after the first is a latitude, longitude, satellite count or
    acceleration component that does not parse as a number, or is an
    acceleration field without exactly three comma-separated numeric
    components. A line of fewer than six fields is always an error, returned
    with the zero record. *)
Theorem ParsePacket_fails_exactly_when (line : string) :
  (snd (ParsePacket line) <> None
   <-> strings.TrimSpace line = ""
       \/ (List.length (fieldsOf line) < 6)%nat
       \/ (exists field, In field (tl (fieldsOf line))
                         /\ numericFieldFails field)
       \/ (exists field, In field (tl (fieldsOf line))
                         /\ accelFieldFails field))
  /\ ((List.length (fieldsOf line) < 6)%nat ->
      exists err, ParsePacket line = (zeroPacket, Some err)).
Proof.
  split; [|apply ParsePacket_short].
  destruct (Nat.lt_ge_cases (List.length (fieldsOf line)) 6) as [Hlt|Hge].
  - destruct (ParsePacket_short line Hlt) as [err ->]. simpl.
    split; [auto|congruence].
  - rewrite (ParsePacket_fields line Hge), parseFields_error_iff.
    split.
    + intros (f & Hin & [Hf|Hf]); eauto 6.
    + intros [He|[Hlt|[(f & Hin & Hf)|(f & Hin & Hf)]]]; eauto.
      * now apply fieldsOf_not_empty in Hge.
      * lia.
Qed.

(** C10. On a line of six fields or more, a field after the first that
    begins with [Acceleration] and that [Split] does not cut at [:] into
    exactly two parts makes [ParsePacket] return an error. *)
Theorem ParsePacket_rejects_unsplit_acceleration (line field : string) :
  (6 <= List.length (fieldsOf line))%nat ->
  In field (tl (fieldsOf line)) ->
  strings.HasPrefix field "Acceleration" = true ->
  List.length (strings.Split field ":"%char) <> 2%nat ->
  snd (ParsePacket line) <> None.
Proof.
  intros Hge Hin Hpre Hsplit.
  rewrite (ParsePacket_fields line Hge), parseFields_error_iff.
  exists field. split; [assumption|]. right. split.
  - now apply (hasKind_isField KAcceleration).
  - intros (a & b & c & Hs & _). apply accelShape_Split in Hs.
    destruct Hs as (key & v & H2 & _). rewrite H2 in Hsplit. now apply Hsplit.
Qed.

(** *** What a field writes *)

Lemma Packet_ext (p q : Packet) : (forall k, samePart k p q) -> p = q.
Proof.
  intros H. destruct p, q.
  pose proof (H KTime). pose proof (H KLatitude). pose proof (H KLongitude).
  pose proof (H KSatellites). pose proof (H KAcceleration).
  simpl in *. congruence.
Qed.

Lemma samePart_refl (k : kind) (p : Packet) : samePart k p p.
Proof. destruct k; reflexivity. Qed.

Lemma samePart_trans (k : kind) (p q r : Packet) :
  samePart k p q -> samePart k q r -> samePart k p r.
Proof. destruct k; simpl; congruence. Qed.

Lemma samePart_sym (k : kind) (p q : Packet) : samePart k p q -> samePart k q p.
Proof. destruct k; simpl; congruence. Qed.

(** A field leaves the parts of the other kinds as they are, also when it
    fails. *)
Lemma parseField_frame (k : kind) (p : Packet) (field : string) :
  hasKind k field = false -> samePart k p (fst (parseField p field)).
Proof.
  intros Hk. destruct (recognized field) eqn:R.
  - apply recognized_hasKind in R. destruct R as [k' Hk'].
    assert (Hne : k <> k') by congruence.
    apply hasKind_isField in Hk'.
    destruct k'; destruct Hk' as [r Er]; cbn [prefixOf] in Er.
    + subst field. rewrite parseField_Time. destruct k; try reflexivity. congruence.
    + subst field. rewrite parseField_Latitude.
      destruct (ParseFloat r 64) as [f [e|]]; destruct k; try reflexivity; congruence.
    + subst field. rewrite parseField_Longitude.
      destruct (ParseFloat r 64) as [f [e|]]; destruct k; try reflexivity; congruence.
    + subst field. rewrite parseField_Satellites.
      destruct (Atoi r) as [f [e|]]; destruct k; try reflexivity; congruence.
    + assert (HA : isField KAcceleration field) by (now exists r).
      destruct (List.length (strings.Split field ":") =? 2)%nat eqn:E2.
      * apply Nat.eqb_eq, length_two in E2. destruct E2 as (key & v & E2).
        destruct (List.length (strings.Split v ",") =? 3)%nat eqn:E3.
        -- apply Nat.eqb_eq, length_three in E3. destruct E3 as (a & b & c & E3).
           assert (Hs : accelShape field a b c) by (apply accelShape_Split; eauto).
           rewrite (parseField_Acceleration p field a b c HA Hs), accelLoop_three.
           destruct (ParseFloat a 64) as [fa [ea|]];
             [destruct k; try reflexivity; congruence|].
           destruct (ParseFloat b 64) as [fb [eb|]];
             [destruct k; try reflexivity; congruence|].
           destruct (ParseFloat c 64) as [fc [ec|]];
             destruct k; try reflexivity; congruence.
        -- destruct (parseField_Acceleration_bad p field HA) as [err ->];
             [|apply samePart_refl].
           intros a b c Hs. apply accelShape_Split in Hs.
           destruct Hs as (key' & v' & H2 & H3). rewrite E2 in H2.
           injection H2 as _ <-. rewrite H3 in E3. discriminate E3.
      * destruct (parseField_Acceleration_bad p field HA) as [err ->];
          [|apply samePart_refl].
        intros a b c Hs. apply accelShape_Split in Hs.
        destruct Hs as (key' & v' & H2 & _). rewrite H2 in E2. discriminate E2.
  - rewrite (parseField_other p field R). apply samePart_refl.
Qed.

(** A field that is decoded leaves its value in its part of the record. *)
Lemma parseField_value (k : kind) (p q : Packet) (field : string) :
  hasKind k field = true -> parseField p field = (q, None) -> fieldValue k field q.
Proof.
  intros Hk E. apply hasKind_isField in Hk.
  destruct k; destruct Hk as [r Er]; cbn [prefixOf] in Er; simpl.
  - subst field. rewrite parseField_Time in E. injection E as <-. now exists r.
  - subst field. rewrite parseField_Latitude in E.
    destruct (ParseFloat r 64) as [f [e|]] eqn:EF; [discriminate|].
    injection E as <-. exists r. now rewrite EF.
  - subst field. rewrite parseField_Longitude in E.
    destruct (ParseFloat r 64) as [f [e|]] eqn:EF; [discriminate|].
    injection E as <-. exists r. now rewrite EF.
  - subst field. rewrite parseField_Satellites in E.
    destruct (Atoi r) as [f [e|]] eqn:EF; [discriminate|].
    injection E as <-. exists r. now rewrite EF.
  - assert (HA : isField KAcceleration field) by (now exists r).
    assert (Hok : ~ (numericFieldFails field \/ accelFieldFails field)).
    { intros Hf. apply (parseField_error_iff p) in Hf. rewrite E in Hf. now apply Hf. }
    assert (Hex : exists a b c, accelShape field a b c).
    { destruct (List.length (strings.Split field ":") =? 2)%nat eqn:E2.
      - apply Nat.eqb_eq, length_two in E2. destruct E2 as (key & v & E2).
        destruct (List.length (strings.Split v ",") =? 3)%nat eqn:E3.
        + apply Nat.eqb_eq, length_three in E3. destruct E3 as (a & b & c & E3).
          exists a, b, c. apply accelShape_Split; eauto.
        + exfalso. apply Hok. right. split; [exact HA|].
          intros (a & b & c & Hs & _). apply accelShape_Split in Hs.
          destruct Hs as (key' & v' & H2 & H3). rewrite E2 in H2.
          injection H2 as _ <-. rewrite H3 in E3. discriminate E3.
      - exfalso. apply Hok. right. split; [exact HA|].
        intros (a & b & c & Hs & _). apply accelShape_Split in Hs.
        destruct Hs as (key' & v' & H2 & _). rewrite H2 in E2. discriminate E2. }
    destruct Hex as (a & b & c & Hs). exists a, b, c. split; [exact Hs|].
    rewrite (parseField_Acceleration p field a b c HA Hs) in E.
    apply accelLoop_value in E. now subst q.
Qed.

Lemma fieldValue_samePart (k : kind) (field : string) (q r : Packet) :
  fieldValue k field q -> samePart k q r -> fieldValue k field r.
Proof.
  destruct k; simpl.
  - intros (v & E & H) S. exists v. split; congruence.
  - intros (v & E & H) S. exists v. split; congruence.
  - intros (v & E & H) S. exists v. split; congruence.
  - intros (v & E & H) S. exists v. split; congruence.
  - intros (a & b & c & E & H) S. exists a, b, c. split; congruence.
Qed.

Lemma fieldValue_unique (k : kind) (field : string) (q r : Packet) :
  fieldValue k field q -> fieldValue k field r -> samePart k q r.
Proof.
  destruct k; simpl.
  - intros (v & E & H) (v' & E' & H'). subst field. injection E' as ->. congruence.
  - intros (v & E & H) (v' & E' & H'). subst field. injection E' as ->. congruence.
  - intros (v & E & H) (v' & E' & H'). subst field. injection E' as ->. congruence.
  - intros (v & E & H) (v' & E' & H'). subst field. injection E' as ->. congruence.
  - intros (a & b & c & E & H) (a' & b' & c' & E' & H').
    destruct (accelShape_unique _ _ _ _ _ _ _ E E') as (-> & -> & ->). congruence.
Qed.

Lemma parseFields_frame (k : kind) (p : Packet) (fs : list string) :
  (forall f, In f fs -> hasKind k f = false) ->
  samePart k p (fst (parseFields p fs)).
Proof.
  revert p. induction fs as [|f fs IH]; intros p H; simpl.
  - apply samePart_refl.
  - pose proof (parseField_frame k p f (H f (or_introl eq_refl))) as Hf.
    destruct (parseField p f) as [p' [e|]]; simpl in *; [exact Hf|].
    eapply samePart_trans; [exact Hf|]. apply IH. intros g Hg. apply H. now right.
Qed.

(** The last field of a kind decides that part of the record. *)
Lemma parseFields_last (k : kind) (p r : Packet) (before after : list string)
      (field : string) :
  hasKind k field = true ->
  (forall f, In f after -> hasKind k f = false) ->
  parseFields p (before ++ field :: after) = (r, None) ->
  fieldValue k field r.
Proof.
  intros Hk Hafter E. rewrite parseFields_app in E.
  destruct (parseFields p before) as [p1 [e|]]; [discriminate|].
  simpl in E. destruct (parseField p1 field) as [q [e|]] eqn:Eq; [discriminate|].
  apply (fieldValue_samePart k field q).
  - now apply (parseField_value k p1).
  - pose proof (parseFields_frame k q after Hafter) as Hf. now rewrite E in Hf.
Qed.

(** Fields of no kind can be left out. *)
Lemma parseFields_recognized (p : Packet) (fs : list string) :
  parseFields p (filter recognized fs) = parseFields p fs.
Proof.
  revert p. induction fs as [|f fs IH]; intros p; simpl; [reflexivity|].
  destruct (recognized f) eqn:R; simpl.
  - destruct (parseField p f) as [p' [e|]]; [reflexivity|apply IH].
  - rewrite (parseField_other p f R). apply IH.
Qed.

Lemma Permutation_filter_length {A : Type} (f : A -> bool) (l l' : list A) :
  Permutation l l' -> List.length (filter f l) = List.length (filter f l').
Proof.
  induction 1 as [|x l l' _ IH|x y l|l l' l'' _ IH1 _ IH2]; simpl.
  - reflexivity.
  - destruct (f x); simpl; congruence.
  - destruct (f x), (f y); reflexivity.
  - congruence.
Qed.

(** When a kind occurs once at most, the one field of that kind is the last
    one. *)
Lemma once_last (k : kind) (fs : list string) (field : string) :
  (List.length (filter (hasKind k) fs) <= 1)%nat ->
  In field fs -> hasKind k field = true ->
  exists before after,
    fs = before ++ field :: after /\ forall f, In f after -> hasKind k f = false.
Proof.
  intros Hlen Hin Hk. apply in_split in Hin. destruct Hin as (before & after & ->).
  exists before, after. split; [reflexivity|]. intros f Hf.
  rewrite filter_app in Hlen. simpl in Hlen. rewrite Hk in Hlen.
  rewrite length_app in Hlen. simpl in Hlen.
  destruct (hasKind k f) eqn:E; [|reflexivity]. exfalso.
  assert (Hin : In f (filter (hasKind k) after)) by (apply filter_In; auto).
  destruct (filter (hasKind k) after); [contradiction|]. simpl in Hlen. lia.
Qed.

(** The order of the fields does not matter when no kind occurs twice. *)
Lemma parseFields_Permutation (p r : Packet) (fs fs' : list string) :
  Permutation fs fs' ->
  (forall k, List.length (filter (hasKind k) fs) <= 1)%nat ->
  parseFields p fs = (r, None) ->
  parseFields p fs' = (r, None).
Proof.
  intros HP Honce E.
  destruct (parseFields p fs') as [r' e'] eqn:E'.
  assert (He : e' = None).
  { destruct e' as [err|]; [exfalso|reflexivity].
    assert (Hf : snd (parseFields p fs') <> None) by (rewrite E'; discriminate).
    apply parseFields_error_iff in Hf. destruct Hf as (f & Hin & Hf).
    assert (Hf' : snd (parseFields p fs) <> None).
    { apply parseFields_error_iff. exists f. split; [|exact Hf].
      eapply Permutation_in; [apply Permutation_sym; exact HP|exact Hin]. }
    rewrite E in Hf'. now apply Hf'. }
  subst e'. f_equal. apply Packet_ext. intros k.
  destruct (existsb (hasKind k) fs) eqn:Ex.
  - apply existsb_exists in Ex. destruct Ex as (f & Hin & Hk).
    destruct (once_last k fs f (Honce k) Hin Hk) as (b & a & -> & Ha).
    assert (Hin' : In f fs') by (eapply Permutation_in; eauto).
    assert (Honce' : (List.length (filter (hasKind k) fs') <= 1)%nat).
    { rewrite <- (Permutation_filter_length _ _ _ HP). apply Honce. }
    destruct (once_last k fs' f Honce' Hin' Hk) as (b' & a' & -> & Ha').
    apply (fieldValue_unique k f).
    + now apply (parseFields_last k p r' b' a').
    + now apply (parseFields_last k p r b a).
  - assert (Hno : forall f, In f fs -> hasKind k f = false).
    { intros f Hin. destruct (hasKind k f) eqn:Hk; [|reflexivity].
      assert (existsb (hasKind k) fs = true) by (apply existsb_exists; eauto).
      congruence. }
    assert (Hno' : forall f, In f fs' -> hasKind k f = false).
    { intros f Hin. apply Hno. eapply Permutation_in; [apply Permutation_sym|]; eauto. }
    pose proof (parseFields_frame k p fs Hno) as H1.
    pose proof (parseFields_frame k p fs' Hno') as H2.
    rewrite E in H1. rewrite E' in H2. simpl in *.
    eapply samePart_trans; [apply samePart_sym; exact H2|exact H1].
Qed.

Lemma fieldsOf_length (line : string) :
  List.length (fieldsOf line) = S (List.length (tl (fieldsOf line))).
Proof.
  unfold fieldsOf. pose proof (Split_not_nil (strings.TrimSpace line) ";") as H.
  destruct (strings.Split (strings.TrimSpace line) ";"); [contradiction|reflexivity].
Qed.

(** C7. On lines of six fields or more: the fields after the first may
    come in any order (when no kind of field occurs twice, a line with the
    same fields in another order decodes to the same record); fields of
    none of the five kinds are ignored (the result is that of the recognised
    fields alone, and the zero record without error when there are none);
    and the last field of a kind wins (a decoded record holds, in the part
    that kind writes, the value of the last field of the kind). *)
Theorem ParsePacket_order_unknown_duplicate :
  (forall line line' r,
      (6 <= List.length (fieldsOf line))%nat ->
      Permutation (tl (fieldsOf line)) (tl (fieldsOf line')) ->
      (forall k, (List.length (filter (hasKind k) (tl (fieldsOf line))) <= 1)%nat) ->
      ParsePacket line = (r, None) ->
      ParsePacket line' = (r, None))
  /\ (forall line,
         (6 <= List.length (fieldsOf line))%nat ->
         ParsePacket line
         = parseFields zeroPacket (filter recognized (tl (fieldsOf line))))
  /\ (forall line,
         (6 <= List.length (fieldsOf line))%nat ->
         (forall f, In f (tl (fieldsOf line)) -> recognized f = false) ->
         ParsePacket line = (zeroPacket, None))
  /\ (forall line before field after k r,
         (6 <= List.length (fieldsOf line))%nat ->
         tl (fieldsOf line) = before ++ field :: after ->
         hasKind k field = true ->
         (forall f, In f after -> hasKind k f = false) ->
         ParsePacket line = (r, None) ->
         fieldValue k field r).
Proof.
  repeat split.
  - intros line line' r Hge HP Honce E.
    assert (Hge' : (6 <= List.length (fieldsOf line'))%nat).
    { rewrite fieldsOf_length in *. rewrite <- (Permutation_length HP). exact Hge. }
    rewrite (ParsePacket_fields line Hge) in E. rewrite (ParsePacket_fields line' Hge').
    now apply (parseFields_Permutation zeroPacket r (tl (fieldsOf line))).
  - intros line Hge. rewrite (ParsePacket_fields line Hge).
    symmetry. apply parseFields_recognized.
  - intros line Hge Hno. rewrite (ParsePacket_fields line Hge).
    rewrite <- parseFields_recognized.
    replace (filter recognized (tl (fieldsOf line))) with (@nil string); [reflexivity|].
    symmetry. induction (tl (fieldsOf line)) as [|f fs IH]; [reflexivity|].
    simpl. rewrite (Hno f (or_introl eq_refl)). apply IH.
    intros g Hg. apply Hno. now right.
  - intros line before field after k r Hge Hfs Hk Hafter E.
    rewrite (ParsePacket_fields line Hge), Hfs in E.
    now apply (parseFields_last k zeroPacket r before after).
Qed.

End DecoderFacts.

(** *** The decoder on concrete lines *)

(** C2. The line of the wire format's example decodes, without error, to
    the record with that time, latitude, longitude, satellite count and
    acceleration. *)
Theorem ParsePacket_example_line :
  ParsePacket (lib := goStrconv)
    "ignored;Time-12:00:00;Latitude-54.1;Longitude-25.2;Satellites-9;Acceleration:0.1,-0.2,0.3"
  = (mkPacket "12:00:00" 54.1%float 25.2%float 9%Z
              (0.1%float, (-0.2)%float, 0.3%float),
     None).
Proof. vm_compute. reflexivity. Qed.

Lemma ParsePacket_rejects_unsplit_acceleration_witness :
  snd (ParsePacket (lib := goStrconv) "x;Time-1;Latitude-2;Longitude-3;Satellites-4;Acceleration-1,2,3")
  <> None.
Proof.
  apply (ParsePacket_rejects_unsplit_acceleration
           "x;Time-1;Latitude-2;Longitude-3;Satellites-4;Acceleration-1,2,3"
           "Acceleration-1,2,3").
  - vm_compute. lia.
  - vm_compute. tauto.
  - reflexivity.
  - vm_compute. lia.
Defined.

Lemma ParsePacket_order_unknown_duplicate_witness :
  ParsePacket (lib := goStrconv) "x;Satellites-7;note;Time-b;Latitude-1.5;Time-a"
  = ParsePacket (lib := goStrconv) "y;Time-b;Time-a;Satellites-7;Latitude-1.5;junk"
  /\ fieldValue (lib := goStrconv) KTime "Time-a"
       (mkPacket "a" 1.5%float 0%float 7%Z (0%float, 0%float, 0%float)).
Proof.
  pose proof (@ParsePacket_order_unknown_duplicate goStrconv) as (_ & H2 & _ & H4).
  split.
  - rewrite (H2 "x;Satellites-7;note;Time-b;Latitude-1.5;Time-a") by (vm_compute; lia).
    rewrite (H2 "y;Time-b;Time-a;Satellites-7;Latitude-1.5;junk") by (vm_compute; lia).
    vm_compute. reflexivity.
  - apply (H4 "x;Satellites-7;note;Time-b;Latitude-1.5;Time-a"
              ["Satellites-7"; "note"; "Time-b"; "Latitude-1.5"] "Time-a" [] KTime).
    + vm_compute. lia.
    + vm_compute. reflexivity.
    + reflexivity.
    + intros f [].
    + vm_compute. reflexivity.
Defined.

(** ** Keeping the latest entries *)

Lemma keepLast_length {A : Type} (capacity : nat) (s : list A) :
  (List.length (keepLast capacity s) <= capacity)%nat.
Proof.
  unfold keepLast. destruct (Nat.ltb_spec capacity (List.length s)).
  - rewrite length_skipn. lia.
  - lia.
Qed.

(** What [keepLast] keeps is the end of the list, in order. *)
Lemma keepLast_suffix {A : Type} (capacity : nat) (s : list A) :
  exists evicted, s = evicted ++ keepLast capacity s.
Proof.
  unfold keepLast. destruct (Nat.ltb_spec capacity (List.length s)).
  - exists (firstn (List.length s - capacity) s). symmetry. apply firstn_skipn.
  - now exists [].
Qed.

Lemma keepLast_room {A : Type} (capacity : nat) (s : list A) (x : A) :
  (List.length s < capacity)%nat -> keepLast capacity (s ++ [x]) = s ++ [x].
Proof.
  intros H. unfold keepLast. rewrite length_app. simpl.
  destruct (Nat.ltb_spec capacity (List.length s + 1)); [lia|reflexivity].
Qed.

Lemma keepLast_full {A : Type} (capacity : nat) (s : list A) (x : A) :
  (0 < capacity)%nat -> List.length s = capacity ->
  keepLast capacity (s ++ [x]) = tl s ++ [x].
Proof.
  intros Hpos H. unfold keepLast. rewrite length_app. simpl.
  destruct (Nat.ltb_spec capacity (List.length s + 1)); [|lia].
  replace (List.length s + 1 - capacity)%nat with 1%nat by lia.
  destruct s as [|y s]; [simpl in H; lia|reflexivity].
Qed.

Lemma keepLast_skipn {A : Type} (capacity : nat) (l : list A) :
  keepLast capacity l = skipn (List.length l - capacity) l.
Proof.
  unfold keepLast. destruct (Nat.ltb_spec capacity (List.length l)); [reflexivity|].
  now replace (List.length l - capacity)%nat with 0%nat by lia.
Qed.

(** Keeping the last entries twice is keeping them once. *)
Lemma keepLast_app {A : Type} (capacity : nat) (l l' : list A) :
  keepLast capacity (keepLast capacity l ++ l') = keepLast capacity (l ++ l').
Proof.
  destruct (Nat.le_gt_cases (List.length l) capacity) as [Hle|Hgt].
  - unfold keepLast at 2.
    destruct (Nat.ltb_spec capacity (List.length l)); [lia|reflexivity].
  - rewrite !keepLast_skipn. rewrite !length_app, length_skipn.
    replace (List.length l - (List.length l - capacity) + List.length l' - capacity)%nat
      with (List.length l')%nat by lia.
    rewrite !skipn_app, skipn_skipn, length_skipn.
    f_equal; f_equal; lia.
Qed.

(** ** The live buffer *)

Lemma trySend_Some (q : chan) (p : Packet) :
  (List.length q < chanCapacity)%nat -> trySend q p = Some (q ++ [p]).
Proof.
  intros H. unfold trySend.
  destruct (Nat.ltb_spec (List.length q) chanCapacity); [reflexivity|lia].
Qed.

Lemma trySend_None (q : chan) (p : Packet) :
  (chanCapacity <= List.length q)%nat -> trySend q p = None.
Proof.
  intros H. unfold trySend.
  destruct (Nat.ltb_spec (List.length q) chanCapacity); [lia|reflexivity].
Qed.

Lemma trySend_inv (q q' : chan) (p : Packet) :
  trySend q p = Some q' -> (List.length q < chanCapacity)%nat /\ q' = q ++ [p].
Proof.
  unfold trySend.
  destruct (Nat.ltb_spec (List.length q) chanCapacity); [|discriminate].
  intros [= <-]. auto.
Qed.

Lemma pipelineInv_start : pipelineInv startPipeline.
Proof.
  repeat split; simpl.
  - unfold chanCapacity. lia.
  - discriminate.
  - now exists [].
Qed.

(** Every move is possible, the reader's included, and keeps the
    invariant. *)
Lemma step_pipelineInv (c : pipeline) (m : move) :
  pipelineInv c -> exists c', step c m = Some c' /\ pipelineInv c'.
Proof.
  intros (Hlen & Hsend & older & Hdec).
  destruct c as [r q d]. simpl in *. destruct m as [next|]; simpl.
  - destruct r as [|p|p|p]; simpl in *.
    + eexists. split; [reflexivity|]. repeat split; simpl; try assumption.
      * discriminate.
      * exists older. rewrite Hdec, app_nil_r. now rewrite app_assoc.
    + destruct (trySend q p) as [q'|] eqn:E.
      * apply trySend_inv in E. destruct E as [Hlt ->].
        eexists. split; [reflexivity|]. repeat split; simpl.
        -- rewrite length_app. simpl. lia.
        -- discriminate.
        -- exists older. now rewrite app_nil_r.
      * eexists. split; [reflexivity|]. repeat split; simpl; try assumption.
        -- discriminate.
        -- now exists older.
    + destruct q as [|x q']; simpl.
      * eexists. split; [reflexivity|]. repeat split; simpl.
        -- unfold chanCapacity. lia.
        -- intros _ _. unfold chanCapacity. lia.
        -- now exists older.
      * eexists. split; [reflexivity|]. simpl in Hlen. repeat split; simpl.
        -- lia.
        -- intros _ _. lia.
        -- exists (older ++ [x]). rewrite Hdec. now rewrite <- app_assoc.
    + rewrite (trySend_Some q p (Hsend p eq_refl)).
      eexists. split; [reflexivity|]. repeat split; simpl.
      * rewrite length_app. simpl. specialize (Hsend p eq_refl). lia.
      * discriminate.
      * exists older. now rewrite app_nil_r.
  - destruct q as [|x q']; simpl.
    + eexists. split; [reflexivity|]. repeat split; simpl; try assumption.
      now exists older.
    + eexists. split; [reflexivity|]. simpl in Hlen. repeat split; simpl.
      * lia.
      * intros p Hp. specialize (Hsend p Hp). simpl in Hsend. lia.
      * exists (older ++ [x]). rewrite Hdec. now rewrite <- app_assoc.
Qed.

Lemma run_pipelineInv (moves : list move) (c : pipeline) :
  pipelineInv c -> exists c', run c moves = Some c' /\ pipelineInv c'.
Proof.
  revert c. induction moves as [|m moves IH]; intros c Hc; simpl.
  - now exists c.
  - destruct (step_pipelineInv c m Hc) as (c1 & -> & Hc1). now apply IH.
Qed.

(** The enqueue is the reader's moves from the first channel operation back
    to reading, with no receive in between: one move when the channel has
    room, three when it is full. *)
Lemma enqueue_reader_moves (q : chan) (p next : Packet) (d : list Packet) :
  run (mkPipeline (AtOffer p) q d)
      (if (List.length q <? chanCapacity)%nat then [Reader next]
       else [Reader next; Reader next; Reader next])
  = option_map (fun q' => mkPipeline AtRead q' d) (enqueue q p).
Proof.
  unfold enqueue.
  destruct (Nat.ltb_spec (List.length q) chanCapacity) as [Hlt|Hge].
  - simpl. now rewrite (trySend_Some q p Hlt).
  - simpl. rewrite (trySend_None q p Hge). simpl.
    destruct q as [|x q']; simpl.
    + destruct (trySend [] p); reflexivity.
    + destruct (trySend q' p); reflexivity.
Qed.

Lemma enqueue_keepLast (q : chan) (p : Packet) :
  (List.length q <= chanCapacity)%nat ->
  enqueue q p = Some (keepLast chanCapacity (q ++ [p])).
Proof.
  intros H. unfold enqueue.
  destruct (Nat.eq_dec (List.length q) chanCapacity) as [E|N].
  - rewrite trySend_None by lia.
    rewrite (keepLast_full chanCapacity q p) by (unfold chanCapacity in *; lia).
    destruct q as [|x q']; [discriminate E|]. simpl in *.
    apply trySend_Some. lia.
  - rewrite trySend_Some by lia. now rewrite keepLast_room by lia.
Qed.

Lemma subsequence_refl {A : Type} (l : list A) : subsequence l l.
Proof. induction l; constructor; assumption. Qed.

Lemma subsequence_app {A : Type} (l1 l1' l2 l2' : list A) :
  subsequence l1 l1' -> subsequence l2 l2' -> subsequence (l1 ++ l2) (l1' ++ l2').
Proof.
  intros H1 H2. induction H1; simpl; [assumption| |]; constructor; assumption.
Qed.

Lemma subsequence_snoc {A : Type} (l l' : list A) (x : A) :
  subsequence l l' -> subsequence l (l' ++ [x]).
Proof.
  intros H. rewrite <- (app_nil_r l). apply subsequence_app; [assumption|].
  repeat constructor.
Qed.

Lemma enqueueAll_keepLast (ps : list Packet) (q : chan) :
  (List.length q <= chanCapacity)%nat ->
  enqueueAll q ps = Some (keepLast chanCapacity (q ++ ps)).
Proof.
  revert q. induction ps as [|p ps IH]; intros q Hq; simpl.
  - rewrite app_nil_r. unfold keepLast.
    destruct (Nat.ltb_spec chanCapacity (List.length q)); [lia|reflexivity].
  - rewrite (enqueue_keepLast q p Hq), IH by apply keepLast_length.
    now rewrite keepLast_app, <- app_assoc.
Qed.

Lemma run_app (ms ms' : list move) (c : pipeline) :
  run c (ms ++ ms')
  = match run c ms with
    | Some c' => run c' ms'
    | None => None
    end.
Proof.
  revert c. induction ms as [|m ms IH]; intros c; simpl; [reflexivity|].
  destruct (step c m); [apply IH|reflexivity].
Qed.

(** A reader that runs alone leaves the buffer the enqueues leave, and has
    decoded every packet. *)
Lemma run_readerMoves (ps : list Packet) (q : chan) (d : list Packet) :
  (List.length q <= chanCapacity)%nat ->
  run (mkPipeline AtRead q d) (readerMoves q ps)
  = Some (mkPipeline AtRead (keepLast chanCapacity (q ++ ps)) (d ++ ps)).
Proof.
  revert q d. induction ps as [|p ps IH]; intros q d Hq.
  - simpl. rewrite !app_nil_r. unfold keepLast.
    destruct (Nat.ltb_spec chanCapacity (List.length q)); [lia|reflexivity].
  - cbn [readerMoves]. change (run ?c (?m :: ?l ++ ?l')) with (run c ((m :: l) ++ l')).
    rewrite run_app.
    change (run (mkPipeline AtRead q d) (Reader p :: ?l))
      with (run (mkPipeline (AtOffer p) q (d ++ [p])) l).
    rewrite (enqueue_reader_moves q p p (d ++ [p])).
    rewrite (enqueue_keepLast q p Hq). cbn [option_map].
    rewrite IH by apply keepLast_length.
    now rewrite keepLast_app, <- !app_assoc.
Qed.

(** Every move is possible and keeps the invariant, and a packet a receive
    returns is the oldest pending one, which passes from the buffer to the
    older packets. *)
Lemma step_delivered (c : pipeline) (m : move) (older del : list Packet) :
  (List.length (buffer c) <= chanCapacity)%nat ->
  (forall p, reader c = AtSend p -> (List.length (buffer c) < chanCapacity)%nat) ->
  decoded c = older ++ buffer c ++ inHand (reader c) ->
  subsequence del older ->
  exists c' older',
    step c m = Some c'
    /\ (List.length (buffer c') <= chanCapacity)%nat
    /\ (forall p, reader c' = AtSend p -> (List.length (buffer c') < chanCapacity)%nat)
    /\ decoded c' = older' ++ buffer c' ++ inHand (reader c')
    /\ subsequence (del ++ delivered c [m]) older'.
Proof.
  intros Hlen Hsend Hdec Hsub.
  destruct c as [r q d]. cbn [buffer reader decoded] in *.
  destruct m as [next|].
  - assert (Hdel : del ++ delivered (mkPipeline r q d) [Reader next] = del).
    { cbn [delivered]. destruct (step (mkPipeline r q d) (Reader next)); cbn;
        apply app_nil_r. }
    rewrite Hdel. clear Hdel.
    destruct r as [|p|p|p]; cbn [step reader buffer decoded inHand] in *.
    + exists (mkPipeline (AtOffer next) q (d ++ [next])), older.
      cbn [buffer reader decoded inHand]. repeat split; try assumption.
      * discriminate.
      * rewrite Hdec, app_nil_r. now rewrite app_assoc.
    + destruct (trySend q p) as [q'|] eqn:E.
      * apply trySend_inv in E. destruct E as [Hlt ->].
        exists (mkPipeline AtRead (q ++ [p]) d), older.
        cbn [buffer reader decoded inHand]. repeat split; try assumption.
        -- rewrite length_app. simpl. lia.
        -- discriminate.
        -- now rewrite app_nil_r.
      * exists (mkPipeline (AtEvict p) q d), older.
        cbn [buffer reader decoded inHand]. repeat split; try assumption.
        discriminate.
    + destruct q as [|x q']; cbn [tryRecv].
      * exists (mkPipeline (AtSend p) [] d), older.
        cbn [buffer reader decoded inHand]. repeat split; try assumption.
        intros _ _. unfold chanCapacity. simpl. lia.
      * exists (mkPipeline (AtSend p) q' d), (older ++ [x]).
        cbn [buffer reader decoded inHand]. simpl in Hlen. repeat split.
        -- lia.
        -- intros _ _. lia.
        -- rewrite Hdec. now rewrite <- app_assoc.
        -- now apply subsequence_snoc.
    + rewrite (trySend_Some q p (Hsend p eq_refl)).
      exists (mkPipeline AtRead (q ++ [p]) d), older.
      cbn [buffer reader decoded inHand]. repeat split; try assumption.
      * rewrite length_app. simpl. specialize (Hsend p eq_refl). lia.
      * discriminate.
      * now rewrite app_nil_r.
  - destruct q as [|x q']; cbn [step delivered tryRecv buffer reader decoded].
    + exists (mkPipeline r [] d), older.
      cbn [buffer reader decoded]. rewrite !app_nil_r. repeat split; assumption.
    + exists (mkPipeline r q' d), (older ++ [x]).
      cbn [buffer reader decoded]. simpl in Hlen. repeat split.
      * lia.
      * intros p Hp. specialize (Hsend p Hp). simpl in Hsend. lia.
      * rewrite Hdec. now rewrite <- app_assoc.
      * rewrite app_nil_r. apply subsequence_app; [assumption|apply subsequence_refl].
Qed.

Lemma run_delivered (moves : list move) (c : pipeline) (older del : list Packet) :
  (List.length (buffer c) <= chanCapacity)%nat ->
  (forall p, reader c = AtSend p -> (List.length (buffer c) < chanCapacity)%nat) ->
  decoded c = older ++ buffer c ++ inHand (reader c) ->
  subsequence del older ->
  exists c' older',
    run c moves = Some c'
    /\ (List.length (buffer c') <= chanCapacity)%nat
    /\ decoded c' = older' ++ buffer c' ++ inHand (reader c')
    /\ subsequence (del ++ delivered c moves) older'.
Proof.
  revert c older del. induction moves as [|m moves IH]; intros c older del Hlen Hsend Hdec Hsub.
  - exists c, older. simpl. rewrite app_nil_r. auto.
  - destruct (step_delivered c m older del Hlen Hsend Hdec Hsub)
      as (c1 & older1 & E & Hlen1 & Hsend1 & Hdec1 & Hsub1).
    destruct (IH c1 older1 _ Hlen1 Hsend1 Hdec1 Hsub1) as (c' & older' & E' & H1 & H2 & H3).
    exists c', older'. cbn [run]. rewrite E. split; [exact E'|]. split; [exact H1|].
    split; [exact H2|].
    cbn [delivered] in *. rewrite E in *. cbn [delivered] in Hsub1, H3.
    rewrite !app_nil_r in H3. now rewrite app_assoc.
Qed.

(** What is decoded comes from the reader's moves, in their order. *)
Lemma step_decoded (c c' : pipeline) (m : move) :
  step c m = Some c' ->
  exists l, decoded c' = decoded c ++ l /\ subsequence l (carried [m]).
Proof.
  destruct c as [r q d]. destruct m as [next|]; cbn [step carried flat_map app].
  - destruct r as [|p|p|p]; cbn [reader buffer decoded].
    + intros [= <-]. exists [next]. split; [reflexivity|apply subsequence_refl].
    + destruct (trySend q p); intros [= <-]; exists []; cbn [decoded];
        (split; [now rewrite app_nil_r|repeat constructor]).
    + destruct (tryRecv q) as [[x q']|]; intros [= <-]; exists []; cbn [decoded];
        (split; [now rewrite app_nil_r|repeat constructor]).
    + destruct (trySend q p); [|discriminate]. intros [= <-]. exists []. cbn [decoded].
      split; [now rewrite app_nil_r|repeat constructor].
  - cbn [buffer reader decoded].
    destruct (tryRecv q) as [[x q']|]; intros [= <-]; exists []; cbn [decoded];
      (split; [now rewrite app_nil_r|constructor]).
Qed.

Lemma run_decoded (moves : list move) (c c' : pipeline) :
  run c moves = Some c' ->
  exists l, decoded c' = decoded c ++ l /\ subsequence l (carried moves).
Proof.
  revert c. induction moves as [|m moves IH]; intros c; cbn [run].
  - intros [= <-]. exists []. split; [now rewrite app_nil_r|constructor].
  - destruct (step c m) as [c1|] eqn:E; [|discriminate]. intros Hrun.
    destruct (step_decoded c c1 m E) as (l1 & H1 & S1).
    destruct (IH c1 Hrun) as (l2 & H2 & S2).
    exists (l1 ++ l2). split; [now rewrite H2, H1, app_assoc|].
    replace (carried (m :: moves)) with (carried [m] ++ carried moves)
      by (unfold carried; simpl; now rewrite app_nil_r).
    now apply subsequence_app.
Qed.

(** C3. The enqueue inserts the new packet when the channel has room, and
    on a full channel removes exactly the oldest pending packet and then
    inserts. Over any sequence of enqueues the channel holds the latest 128
    of the packets pending before and the packets enqueued, in order, and no
    enqueue waits. These enqueues are what the reader's moves do when it
    runs alone, and the reader has then decoded exactly the packets of its
    lines. Whatever the reader and the frame loop do in whatever
    interleaving, every move of the reader is possible (the final send never
    waits), the buffer holds at most 128 packets, what is decoded comes from
    the reader's moves in their order, what the buffer holds, with the
    packet in the reader's hand, are the latest decoded packets in decode
    order, and the packets the frame loop has received are, in the order it
    received them, among the decoded packets before those. *)
Theorem live_buffer_enqueue :
  (forall q p, (List.length q < 128)%nat -> enqueue q p = Some (q ++ [p]))
  /\ (forall q p, List.length q = 128%nat -> enqueue q p = Some (tl q ++ [p]))
  /\ (forall q ps, (List.length q <= 128)%nat ->
         enqueueAll q ps = Some (keepLast 128 (q ++ ps)))
  /\ (forall q d ps, (List.length q <= 128)%nat ->
         run (mkPipeline AtRead q d) (readerMoves q ps)
         = Some (mkPipeline AtRead (keepLast 128 (q ++ ps)) (d ++ ps)))
  /\ (forall moves,
         exists c, run startPipeline moves = Some c
                   /\ (List.length (buffer c) <= 128)%nat
                   /\ subsequence (decoded c) (carried moves)
                   /\ exists older,
                        decoded c = older ++ buffer c ++ inHand (reader c)
                        /\ subsequence (delivered startPipeline moves) older).
Proof.
  split; [|split; [|split; [|split]]].
  - intros q p H. unfold enqueue. now rewrite trySend_Some.
  - intros q p H. unfold enqueue.
    rewrite trySend_None by (unfold chanCapacity; lia).
    destruct q as [|x q']; [discriminate H|]. simpl in *.
    apply trySend_Some. unfold chanCapacity. lia.
  - intros q ps H. now apply enqueueAll_keepLast.
  - intros q d ps H. now apply run_readerMoves.
  - intros moves.
    destruct (run_delivered moves startPipeline [] [])
      as (c & older & E & Hlen & Hdec & Hsub).
    + simpl. unfold chanCapacity. lia.
    + discriminate.
    + reflexivity.
    + constructor.
    + destruct (run_decoded moves startPipeline c E) as (l & Hl & Sl).
      cbn in Hl. subst l.
      exists c. split; [exact E|]. split; [exact Hlen|]. split; [exact Sl|].
      exists older. now split.
Qed.

(** ** The frame-event drain step *)

Lemma drain_bounded (received : list Packet) (st : UIState) :
  (List.length (Series st) <= seriesCapacity)%nat ->
  (List.length (LogLines st) <= logCapacity)%nat ->
  (List.length (Series (drain st received)) <= seriesCapacity)%nat
  /\ (List.length (LogLines (drain st received)) <= logCapacity)%nat.
Proof.
  revert st. unfold drain.
  induction received as [|p ps IH]; intros st Hs Hl; simpl; [auto|].
  apply IH; simpl; apply keepLast_length.
Qed.

(** C8. After a drain step the live series holds at most 300 samples and
    the log ring at most 200 lines, whatever they held before, and a whole
    drain loop keeps both bounds; what each holds is the end of the old
    content followed by the new entry, in order; at capacity exactly the
    oldest entry goes, and below capacity none. *)
Theorem drainStep_bounded_fifo (st : UIState) (p : Packet) :
  ((List.length (Series (drainStep st p)) <= 300)%nat
   /\ (List.length (LogLines (drainStep st p)) <= 200)%nat)
  /\ (forall received,
         (List.length (Series st) <= 300)%nat ->
         (List.length (LogLines st) <= 200)%nat ->
         (List.length (Series (drain st received)) <= 300)%nat
         /\ (List.length (LogLines (drain st received)) <= 200)%nat)
  /\ (exists evicted,
         Series st ++ [toFloat32 (get3 (Acceleration p) 2)]
         = evicted ++ Series (drainStep st p))
  /\ (exists evicted,
         LogLines st ++ [logLine p] = evicted ++ LogLines (drainStep st p))
  /\ (List.length (Series st) = 300%nat ->
      Series (drainStep st p)
      = tl (Series st) ++ [toFloat32 (get3 (Acceleration p) 2)])
  /\ (List.length (LogLines st) = 200%nat ->
      LogLines (drainStep st p) = tl (LogLines st) ++ [logLine p])
  /\ ((List.length (Series st) < 300)%nat ->
      Series (drainStep st p) = Series st ++ [toFloat32 (get3 (Acceleration p) 2)])
  /\ ((List.length (LogLines st) < 200)%nat ->
      LogLines (drainStep st p) = LogLines st ++ [logLine p]).
Proof.
  unfold drainStep. cbn [Series LogLines].
  split; [split; apply keepLast_length|].
  split; [intros received; apply drain_bounded|].
  split; [apply keepLast_suffix|].
  split; [apply keepLast_suffix|].
  split; [intros H; apply keepLast_full; [unfold seriesCapacity; lia|exact H]|].
  split; [intros H; apply keepLast_full; [unfold logCapacity; lia|exact H]|].
  split; intros H; apply keepLast_room; exact H.
Qed.

(** ** The persistence layer *)

Lemma elems_fold_append {A : Type} (l : list A) (s : slice A) :
  elems (fold_left append l s) = elems s ++ l.
Proof.
  revert s. induction l as [|x l IH]; intros s; simpl.
  - now rewrite app_nil_r.
  - rewrite IH. simpl. now rewrite <- app_assoc.
Qed.

Lemma elems_fold_append_map {A B : Type} (g : A -> B) (l : list A) (s : slice B) :
  elems (fold_left (fun acc r => append acc (g r)) l s) = elems s ++ map g l.
Proof.
  revert s. induction l as [|x l IH]; intros s; simpl.
  - now rewrite app_nil_r.
  - rewrite IH. simpl. now rewrite <- app_assoc.
Qed.

(** A nil slice stays nil exactly when nothing is appended. *)
Lemma fold_append_nil {A : Type} (l : list A) :
  fold_left append l (@None (list A)) = None <-> l = [].
Proof.
  split; [|intros ->; reflexivity].
  destruct l as [|x l]; [reflexivity|]. simpl.
  assert (H : forall (l : list A) s, fold_left append l (Some s) <> None).
  { clear. induction l as [|y l IH]; intros s; simpl; [discriminate|apply IH]. }
  intros E. now apply H in E.
Qed.

Lemma StronglySorted_firstn {A : Type} (R : A -> A -> Prop) (n : nat) (l : list A) :
  StronglySorted R l -> StronglySorted R (firstn n l).
Proof.
  revert n. induction l as [|x l IH]; intros n H; destruct n; simpl;
    try constructor.
  - apply IH. now inversion H.
  - inversion H as [|? ? _ Hall]; subst.
    rewrite Forall_forall in *. intros y Hy. apply Hall.
    rewrite <- (firstn_skipn n l). apply in_or_app. now left.
Qed.

Lemma insertRow_Permutation (dir : direction) (r : StoredPacket) (l : list StoredPacket) :
  Permutation (insertRow dir r l) (r :: l).
Proof.
  induction l as [|x l IH]; simpl; [reflexivity|].
  destruct (inOrder dir r x); [reflexivity|].
  rewrite IH. apply perm_swap.
Qed.

Lemma inOrder_total (dir : direction) (a b : StoredPacket) :
  inOrder dir a b = false -> inOrder dir b a = true.
Proof. destruct dir; simpl; intros H; apply Z.leb_gt in H; apply Z.leb_le; lia. Qed.

Lemma inOrder_trans (dir : direction) (a b c : StoredPacket) :
  inOrder dir a b = true -> inOrder dir b c = true -> inOrder dir a c = true.
Proof.
  destruct dir; simpl; intros H1 H2; apply Z.leb_le in H1, H2; apply Z.leb_le; lia.
Qed.

Lemma insertRow_sorted (dir : direction) (r : StoredPacket) (l : list StoredPacket) :
  StronglySorted (fun a b => inOrder dir a b = true) l ->
  StronglySorted (fun a b => inOrder dir a b = true) (insertRow dir r l).
Proof.
  induction l as [|x l IH]; intros H; simpl.
  - repeat constructor.
  - inversion H as [|? ? Hl Hall]; subst.
    destruct (inOrder dir r x) eqn:E.
    + constructor; [exact H|]. constructor; [exact E|].
      rewrite Forall_forall in *. intros y Hy.
      eapply inOrder_trans; [exact E|auto].
    + constructor; [auto|].
      rewrite Forall_forall in *. intros y Hy.
      apply (Permutation_in _ (insertRow_Permutation dir r l)) in Hy.
      destruct Hy as [<-|Hy]; [now apply inOrder_total|auto].
Qed.

(** The insertion sort is a lawful server sort. *)
Lemma stableSort_lawful : lawfulSort stableSort.
Proof.
  intros dir l. unfold stableSort. induction l as [|r l [IHp IHs]]; simpl.
  - split; constructor.
  - split.
    + rewrite insertRow_Permutation. now constructor.
    + now apply insertRow_sorted.
Qed.

Section StoreFacts.

Variable sortRows : direction -> list StoredPacket -> list StoredPacket.
Hypothesis sortRows_lawful : lawfulSort sortRows.

Lemma sortRows_nil (dir : direction) : sortRows dir [] = [].
Proof. apply Permutation_nil. apply Permutation_sym, sortRows_lawful. Qed.

Lemma selectRows_capped (d : Database) (dir : direction) (limit : Z) :
  selectRows sortRows d
    (if (0 <? limit)%Z then withLimit (mkSelect dir None) limit else mkSelect dir None)
  = capped limit (sortRows dir (rows d)).
Proof.
  unfold capped, selectRows.
  destruct (Z.ltb_spec 0 limit); destruct (Z.leb_spec limit 0); try lia; reflexivity.
Qed.

Lemma sorted_newerFirst (l : list StoredPacket) :
  StronglySorted (fun a b => inOrder DESC a b = true) l -> StronglySorted newerFirst l.
Proof.
  induction 1 as [|x l _ IH Hall]; constructor; [exact IH|].
  rewrite Forall_forall in *. intros y Hy. apply Z.leb_le. now apply Hall.
Qed.

Lemma sorted_olderFirst (l : list StoredPacket) :
  StronglySorted (fun a b => inOrder ASC a b = true) l -> StronglySorted olderFirst l.
Proof.
  induction 1 as [|x l _ IH Hall]; constructor; [exact IH|].
  rewrite Forall_forall in *. intros y Hy. apply Z.leb_le. now apply Hall.
Qed.

(** C4. On the same table, while the connection is up: [GetPackets]
    returns the rows most recent first by creation time, all of them when
    [limit <= 0] and the first [limit] of them otherwise; and
    [GetAccelerationSeries] returns the z acceleration (as [float32]) of the
    rows oldest first, with the same reading of [limit]. *)
Theorem GetPackets_newest_first_series_oldest_first (d : Database) (limit : Z) :
  down d = None ->
  exists newest oldest,
    Permutation newest (rows d) /\ StronglySorted newerFirst newest
    /\ Permutation oldest (rows d) /\ StronglySorted olderFirst oldest
    /\ snd (GetPackets sortRows d limit) = None
    /\ elems (fst (GetPackets sortRows d limit)) = capped limit newest
    /\ StronglySorted newerFirst (elems (fst (GetPackets sortRows d limit)))
    /\ snd (GetAccelerationSeries sortRows d limit) = None
    /\ elems (fst (GetAccelerationSeries sortRows d limit))
       = map (fun r => toFloat32 (StoredPacket.AccelerationZ r)) (capped limit oldest).
Proof.
  intros Hup.
  destruct (sortRows_lawful DESC (rows d)) as [HPd HSd].
  destruct (sortRows_lawful ASC (rows d)) as [HPa HSa].
  exists (sortRows DESC (rows d)), (sortRows ASC (rows d)).
  unfold GetPackets, GetAccelerationSeries, Query. cbv zeta. rewrite Hup.
  rewrite !selectRows_capped. cbn [fst snd].
  rewrite elems_fold_append, elems_fold_append_map. cbn [elems app].
  repeat split; try assumption; try (now apply sorted_newerFirst);
    try (now apply sorted_olderFirst).
  unfold capped. destruct (limit <=? 0)%Z; [now apply sorted_newerFirst|].
  apply StronglySorted_firstn. now apply sorted_newerFirst.
Qed.

(** C9. After [DeleteAllPackets] has succeeded, [GetPacketCount] returns
    0 and [GetLatestPacket] returns no record and no error. *)
Theorem DeleteAllPackets_then_count_and_latest (d d' : Database) :
  DeleteAllPackets d = (d', None) ->
  GetPacketCount d' = (0%Z, None)
  /\ GetLatestPacket sortRows d' = (None, None).
Proof.
  unfold DeleteAllPackets. destruct (down d) as [err|] eqn:Hup; [discriminate|].
  intros [= <-]. split; [reflexivity|].
  unfold GetLatestPacket, QueryRow, selectRows. cbn.
  now rewrite sortRows_nil.
Qed.

End StoreFacts.

Lemma GetPackets_newest_first_series_oldest_first_witness :
  exists newest oldest,
    Permutation newest (rows exampleDatabase) /\ StronglySorted newerFirst newest
    /\ Permutation oldest (rows exampleDatabase) /\ StronglySorted olderFirst oldest
    /\ snd (GetPackets stableSort exampleDatabase 2%Z) = None
    /\ elems (fst (GetPackets stableSort exampleDatabase 2%Z)) = capped 2%Z newest
    /\ StronglySorted newerFirst (elems (fst (GetPackets stableSort exampleDatabase 2%Z)))
    /\ snd (GetAccelerationSeries stableSort exampleDatabase 2%Z) = None
    /\ elems (fst (GetAccelerationSeries stableSort exampleDatabase 2%Z))
       = map (fun r => toFloat32 (StoredPacket.AccelerationZ r)) (capped 2%Z oldest).
Proof.
  apply (GetPackets_newest_first_series_oldest_first stableSort stableSort_lawful
           exampleDatabase 2%Z).
  reflexivity.
Defined.

Lemma DeleteAllPackets_then_count_and_latest_witness :
  GetPacketCount (mkDatabase [] 3%Z None) = (0%Z, None)
  /\ GetLatestPacket stableSort (mkDatabase [] 3%Z None) = (None, None).
Proof.
  apply (DeleteAllPackets_then_count_and_latest stableSort stableSort_lawful
           exampleDatabase (mkDatabase [] 3%Z None)).
  reflexivity.
Defined.

(** ** The export engine *)

Lemma digitChar_isDigit (d : Z) : (d < 10)%Z -> strconv.isDigit (strconv.digitChar d) = true.
Proof.
  intros H. unfold strconv.digitChar.
  assert (Hk : (Z.to_nat d < 10)%nat) by lia.
  destruct (Z.to_nat d) as [|[|[|[|[|[|[|[|[|[|k]]]]]]]]]]; try reflexivity. lia.
Qed.

Lemma allDigits_app (s t : string) : allDigits (s ++ t) <-> allDigits s /\ allDigits t.
Proof. induction s as [|c s IH]; simpl; [tauto|]. rewrite IH. tauto. Qed.

Lemma decimalDigits_allDigits (fuel : nat) (n : Z) :
  allDigits (strconv.decimalDigits fuel n).
Proof.
  revert n. induction fuel as [|fuel IH]; intros n; simpl; [exact I|].
  destruct (Z.ltb_spec n 10).
  - split; [now apply digitChar_isDigit|exact I].
  - apply allDigits_app. split; [apply IH|].
    split; [|exact I]. apply digitChar_isDigit.
    apply Z.mod_pos_bound. lia.
Qed.

Lemma formatNat_not_empty (n : Z) : strconv.formatNat n <> "".
Proof.
  unfold strconv.formatNat. simpl. destruct (n <? 10)%Z; [discriminate|].
  destruct (strconv.decimalDigits _ _); discriminate.
Qed.

Lemma fracDigits_allDigits (prec : nat) (n : Z) : allDigits (strconv.fracDigits prec n).
Proof.
  revert n. induction prec as [|prec IH]; intros n; simpl; [exact I|].
  apply allDigits_app. split; [apply IH|].
  split; [|exact I]. apply digitChar_isDigit. apply Z.mod_pos_bound. lia.
Qed.

Lemma string_length_app (s t : string) :
  String.length (s ++ t) = (String.length s + String.length t)%nat.
Proof. induction s as [|c s IH]; simpl; [reflexivity|now rewrite IH]. Qed.

Lemma fracDigits_length (prec : nat) (n : Z) :
  String.length (strconv.fracDigits prec n) = prec.
Proof.
  revert n. induction prec as [|prec IH]; intros n; simpl; [reflexivity|].
  rewrite string_length_app, IH. simpl. lia.
Qed.

(** The format ['f'] writes a finite number with exactly as many digits
    after the point as it is asked to. *)
Lemma FormatFloat_decimalPlaces (f : float) (prec : nat) :
  isFinite f = true -> decimalPlaces (S prec) (strconv.FormatFloat f (S prec)).
Proof.
  unfold isFinite, strconv.FormatFloat, decimalPlaces.
  assert (H : forall m e, exists int frac,
               strconv.fixedDigits m e (S prec) = (int ++ "." ++ frac)%string
               /\ int <> "" /\ allDigits int /\ allDigits frac
               /\ String.length frac = S prec).
  { intros m e. unfold strconv.fixedDigits. cbv zeta.
    eexists _, _. split; [reflexivity|].
    split; [apply formatNat_not_empty|].
    split; [apply decimalDigits_allDigits|].
    split; [apply fracDigits_allDigits|apply fracDigits_length]. }
  destruct (Prim2SF f) as [sg|sg| |sg m e]; try discriminate; intros _.
  - destruct (H 0%Z 0%Z) as (int & frac & -> & Hrest).
    exists (if sg then "-" else ""), int, frac.
    split; [reflexivity|]. split; [destruct sg; auto|exact Hrest].
  - destruct (H (Zpos m) e) as (int & frac & -> & Hrest).
    exists (if sg then "-" else ""), int, frac.
    split; [reflexivity|]. split; [destruct sg; auto|exact Hrest].
Qed.

Section ExportFacts.

Variable sortRows : direction -> list StoredPacket -> list StoredPacket.

Lemma fold_rows (packets : list StoredPacket) (file : csvFile) :
  fold_left (fun w p => w ++ [csvRow p]) packets file = file ++ map csvRow packets.
Proof.
  revert file. induction packets as [|p ps IH]; intros file; simpl.
  - now rewrite app_nil_r.
  - rewrite IH. now rewrite <- app_assoc.
Qed.

(** C5. While the connection is up and the file can be created, the CSV
    export writes the header row and then one row per packet that
    [GetPackets] returns, in that order; header and rows have the ten
    columns identifier, time, latitude, longitude, satellite count, the
    three acceleration axes, creation and update time; on finite values the
    latitude and longitude are written with exactly 6 digits after the
    point and the acceleration axes with exactly 3; and with no packets the
    file is the header row alone. *)
Theorem SavePacketsToCSV_layout (d : Database) (limit : Z) :
  down d = None ->
  exists packets,
    GetPackets sortRows d limit = (packets, None)
    /\ SavePacketsToCSV sortRows d None limit
       = (Some (csvHeader :: map csvRow (elems packets)), None)
    /\ (elems packets = [] ->
        SavePacketsToCSV sortRows d None limit = (Some [csvHeader], None))
    /\ csvHeader = ["ID"; "Time"; "Latitude"; "Longitude"; "Satellites";
                    "AccelerationX"; "AccelerationY"; "AccelerationZ";
                    "CreatedAt"; "UpdatedAt"]
    /\ forall p, In p (elems packets) ->
         csvRow p = [strconv.FormatInt (StoredPacket.ID p);
                     StoredPacket.Time p;
                     strconv.FormatFloat (StoredPacket.Latitude p) 6;
                     strconv.FormatFloat (StoredPacket.Longitude p) 6;
                     strconv.Itoa (StoredPacket.Satellites p);
                     strconv.FormatFloat (StoredPacket.AccelerationX p) 3;
                     strconv.FormatFloat (StoredPacket.AccelerationY p) 3;
                     strconv.FormatFloat (StoredPacket.AccelerationZ p) 3;
                     formatTime (StoredPacket.CreatedAt p);
                     formatTime (StoredPacket.UpdatedAt p)]
         /\ (finiteRow p = true ->
             decimalPlaces 6 (strconv.FormatFloat (StoredPacket.Latitude p) 6)
             /\ decimalPlaces 6 (strconv.FormatFloat (StoredPacket.Longitude p) 6)
             /\ decimalPlaces 3 (strconv.FormatFloat (StoredPacket.AccelerationX p) 3)
             /\ decimalPlaces 3 (strconv.FormatFloat (StoredPacket.AccelerationY p) 3)
             /\ decimalPlaces 3 (strconv.FormatFloat (StoredPacket.AccelerationZ p) 3)).
Proof.
  intros Hup.
  assert (HG : exists packets, GetPackets sortRows d limit = (packets, None)).
  { unfold GetPackets, Query. cbv zeta. rewrite Hup. eexists. reflexivity. }
  destruct HG as [packets HG]. exists packets.
  assert (HS : SavePacketsToCSV sortRows d None limit
               = (Some (csvHeader :: map csvRow (elems packets)), None)).
  { unfold SavePacketsToCSV. rewrite HG. cbv zeta. now rewrite fold_rows. }
  split; [exact HG|]. split; [exact HS|].
  split; [intros E; rewrite HS, E; reflexivity|].
  split; [reflexivity|].
  intros p _. split; [reflexivity|].
  unfold finiteRow. intros H.
  repeat (apply andb_true_iff in H; destruct H as [H ?]).
  repeat split; now apply FormatFloat_decimalPlaces.
Qed.

End ExportFacts.

Lemma SavePacketsToCSV_layout_witness :
  exists packets,
    GetPackets stableSort exampleDatabase 0%Z = (packets, None)
    /\ SavePacketsToCSV stableSort exampleDatabase None 0%Z
       = (Some (csvHeader :: map csvRow (elems packets)), None)
    /\ (elems packets = [] ->
        SavePacketsToCSV stableSort exampleDatabase None 0%Z = (Some [csvHeader], None))
    /\ csvHeader = ["ID"; "Time"; "Latitude"; "Longitude"; "Satellites";
                    "AccelerationX"; "AccelerationY"; "AccelerationZ";
                    "CreatedAt"; "UpdatedAt"]
    /\ forall p, In p (elems packets) ->
         csvRow p = [strconv.FormatInt (StoredPacket.ID p);
                     StoredPacket.Time p;
                     strconv.FormatFloat (StoredPacket.Latitude p) 6;
                     strconv.FormatFloat (StoredPacket.Longitude p) 6;
                     strconv.Itoa (StoredPacket.Satellites p);
                     strconv.FormatFloat (StoredPacket.AccelerationX p) 3;
                     strconv.FormatFloat (StoredPacket.AccelerationY p) 3;
                     strconv.FormatFloat (StoredPacket.AccelerationZ p) 3;
                     formatTime (StoredPacket.CreatedAt p);
                     formatTime (StoredPacket.UpdatedAt p)]
         /\ (finiteRow p = true ->
             decimalPlaces 6 (strconv.FormatFloat (StoredPacket.Latitude p) 6)
             /\ decimalPlaces 6 (strconv.FormatFloat (StoredPacket.Longitude p) 6)
             /\ decimalPlaces 3 (strconv.FormatFloat (StoredPacket.AccelerationX p) 3)
             /\ decimalPlaces 3 (strconv.FormatFloat (StoredPacket.AccelerationY p) 3)
             /\ decimalPlaces 3 (strconv.FormatFloat (StoredPacket.AccelerationZ p) 3)).
Proof.
  apply (SavePacketsToCSV_layout stableSort exampleDatabase 0%Z). reflexivity.
Defined.

Example SavePacketsToCSV_example :
  SavePacketsToCSV stableSort exampleDatabase None 2%Z
  = (Some [csvHeader;
           ["2"; "12:00:00"; "54.100000"; "25.200000"; "9"; "0.100"; "-0.200"; "1.500";
            "1970-01-01 00:05:00"; "1970-01-01 00:05:00"];
           ["3"; "12:00:00"; "54.100000"; "25.200000"; "9"; "0.100"; "-0.200"; "2.500";
            "1970-01-01 00:03:20"; "1970-01-01 00:03:20"]],
     None).
Proof. vm_compute. reflexivity. Qed.

Example SavePacketsToCSV_empty :
  SavePacketsToCSV stableSort (mkDatabase [] 0%Z None) None 0%Z = (Some [csvHeader], None).
Proof. vm_compute. reflexivity. Qed.

(** C6, as the code has it. On an empty table [GetPackets] returns the
    nil slice, and the JSON export writes the document [null], not an
    empty array. *)
Theorem SavePacketsToJSON_empty_is_null :
  GetPackets stableSort (mkDatabase [] 0%Z None) 0%Z = (None, None)
  /\ SavePacketsToJSON stableSort (mkDatabase [] 0%Z None) None 0%Z = (Some JNull, None)
  /\ SavePacketsToJSON stableSort (mkDatabase [] 0%Z None) None 0%Z <> (Some (JArray []), None).
Proof.
  split; [vm_compute; reflexivity|].
  split; [vm_compute; reflexivity|vm_compute; discriminate].
Qed.

Example SavePacketsToJSON_one_row :
  exists members,
    SavePacketsToJSON stableSort (mkDatabase [exampleRow 1 0.5%float 100%Z] 1%Z None) None 0%Z
    = (Some (JArray [JObject members]), None)
    /\ map fst members
       = ["id"; "time"; "latitude"; "longitude"; "satellites"; "acceleration_x";
          "acceleration_y"; "acceleration_z"; "created_at"; "updated_at"].
Proof. eexists. split; vm_compute; reflexivity. Qed.

(** ** The library models on concrete inputs *)

Example TrimSpace_crlf :
  strings.TrimSpace (String (strings.byte 32) ("a;b c" ++ strings.bytes [13; 10])) = "a;b c".
Proof. vm_compute. reflexivity. Qed.

Example Split_ex : strings.Split "a;;b;" ";"%char = ["a"; ""; "b"; ""].
Proof. reflexivity. Qed.

Example Atoi_9 : strconv.Atoi "9" = (9%Z, None).
Proof. reflexivity. Qed.

Example Atoi_minus : strconv.Atoi "-" = (0%Z, Some (NumError "Atoi" "-" ErrSyntax)).
Proof. reflexivity. Qed.

Example ParseFloat_54_1 : strconv.ParseFloat "54.1" 64 = (54.1%float, None).
Proof. vm_compute. reflexivity. Qed.

Example ParseFloat_neg : strconv.ParseFloat "-0.2" 64 = ((-0.2)%float, None).
Proof. vm_compute. reflexivity. Qed.

Example ParseFloat_exp : strconv.ParseFloat "1.5E+3" 64 = (1500%float, None).
Proof. vm_compute. reflexivity. Qed.

Example ParseFloat_hex : strconv.ParseFloat "0x1.8p-1" 64 = (0.75%float, None).
Proof. vm_compute. reflexivity. Qed.

Example ParseFloat_hex_no_exponent :
  strconv.ParseFloat "0x1e2" 64 = (0%float, Some (NumError "ParseFloat" "0x1e2" ErrSyntax)).
Proof. vm_compute. reflexivity. Qed.

Example ParseFloat_underscores :
  strconv.ParseFloat "1_000.5" 64 = (1000.5%float, None)
  /\ strconv.ParseFloat "1__0" 64 = (0%float, Some (NumError "ParseFloat" "1__0" ErrSyntax))
  /\ strconv.ParseFloat "1_" 64 = (0%float, Some (NumError "ParseFloat" "1_" ErrSyntax)).
Proof. vm_compute. repeat split. Qed.

Example ParseFloat_range :
  strconv.ParseFloat "1e400" 64 = (infinity, Some (NumError "ParseFloat" "1e400" ErrRange)).
Proof. vm_compute. reflexivity. Qed.

Example ParseFloat_bad :
  strconv.ParseFloat "1,2" 64 = (0%float, Some (NumError "ParseFloat" "1,2" ErrSyntax)).
Proof. vm_compute. reflexivity. Qed.

Example FormatFloat_6 : strconv.FormatFloat 54.1%float 6 = "54.100000".
Proof. vm_compute. reflexivity. Qed.

Example FormatFloat_3 : strconv.FormatFloat (-0.2)%float 3 = "-0.200".
Proof. vm_compute. reflexivity. Qed.

Example FormatFloat_tie : strconv.FormatFloat 0.125%float 2 = "0.12".
Proof. vm_compute. reflexivity. Qed.

Example FormatInt_ex : strconv.FormatInt (-1203) = "-1203".
Proof. vm_compute. reflexivity. Qed.

Example DecodeLine_short :
  DecodeLine "x;Acceleration:1,2" = (zeroPacket, Some (errorString "not enough fields")).
Proof. vm_compute. reflexivity. Qed.

Example DecodeLine_partial :
  DecodeLine "x;Time-1;a;b;c;Acceleration:1,y,3"
  = (mkPacket "1" 0%float 0%float 0%Z (1%float, 0%float, 0%float),
     Some (NumError "ParseFloat" "y" ErrSyntax)).
Proof. vm_compute. reflexivity. Qed.

(** ** The theorems above on concrete inputs *)

Lemma ParsePacket_fails_exactly_when_witness :
  (exists err, ParsePacket (lib := goStrconv) "x;Acceleration:1,2" = (zeroPacket, Some err))
  /\ snd (ParsePacket (lib := goStrconv) "x;Time-1;Latitude-north;c;d;e") <> None.
Proof.
  split.
  - apply (proj2 (ParsePacket_fails_exactly_when (lib := goStrconv) "x;Acceleration:1,2")).
    vm_compute. lia.
  - apply (proj1 (ParsePacket_fails_exactly_when (lib := goStrconv)
                    "x;Time-1;Latitude-north;c;d;e")).
    right. right. left. exists "Latitude-north". split.
    + vm_compute. tauto.
    + left. exists "north". split; [reflexivity|]. vm_compute. discriminate.
Defined.

Lemma live_buffer_enqueue_witness :
  enqueue (repeat zeroPacket 5) (setTime zeroPacket "new")
  = Some (repeat zeroPacket 5 ++ [setTime zeroPacket "new"])
  /\ enqueue (setTime zeroPacket "old" :: repeat zeroPacket 127) (setTime zeroPacket "new")
     = Some (repeat zeroPacket 127 ++ [setTime zeroPacket "new"]).
Proof.
  destruct live_buffer_enqueue as (Hroom & Hfull & _). split.
  - apply Hroom. vm_compute. lia.
  - apply (Hfull (setTime zeroPacket "old" :: repeat zeroPacket 127)). reflexivity.
Defined.

Lemma drainStep_bounded_fifo_witness :
  Series (drainStep (mkUIState zeroPacket (1%float :: repeat 0%float 299) [] false)
                    zeroPacket)
  = repeat 0%float 299 ++ [toFloat32 0%float]
  /\ LogLines (drainStep (mkUIState zeroPacket (1%float :: repeat 0%float 299) [] false)
                         zeroPacket)
     = [logLine zeroPacket].
Proof.
  destruct (drainStep_bounded_fifo
              (mkUIState zeroPacket (1%float :: repeat 0%float 299) [] false) zeroPacket)
    as (_ & _ & _ & _ & Hfull & _ & _ & Hroom).
  split.
  - apply Hfull. reflexivity.
  - apply Hroom. vm_compute. lia.
Defined.

Example logLine_example :
  logLine (mkPacket "12:00:00" 54.1%float 25.2%float 9%Z (0.1%float, (-0.2)%float, 0.3%float))
  = "12:00:00 Lat:54.100000 Lon:25.200000 Sat:9 AccZ:0.30".
Proof. vm_compute. reflexivity. Qed.

(* ===================================================================== *)
(** * Part III: further properties of the code                            *)
(* ===================================================================== *)

(** ** More on the decoder *)

Section DecoderMore.

Context {lib : Strconv}.

(** X1. A decoded record keeps the zero value in every part no field of the
    line writes: a missing field is not an error. *)
Theorem ParsePacket_missing_field_zero (line : string) (r : Packet) (k : kind) :
  (6 <= List.length (fieldsOf line))%nat ->
  (forall f, In f (tl (fieldsOf line)) -> hasKind k f = false) ->
  ParsePacket line = (r, None) ->
  samePart k zeroPacket r.
Proof.
  intros Hge Hno E. rewrite (ParsePacket_fields line Hge) in E.
  pose proof (parseFields_frame k zeroPacket (tl (fieldsOf line)) Hno) as H.
  now rewrite E in H.
Qed.

(** The loop over the acceleration components writes no other part of the
    record. *)
Lemma accelLoop_frame (fuel i : nat) (nums : list string) (p : Packet) (k : kind) :
  k <> KAcceleration -> samePart k p (fst (accelLoop fuel i nums p)).
Proof.
  intros Hk. revert i p. induction fuel as [|fuel IH]; intros i p; simpl.
  - apply samePart_refl.
  - destruct (ParseFloat (nth i nums "") 64) as [f [e|]]; simpl.
    + apply samePart_refl.
    + apply (samePart_trans k p (setAcceleration p i f)); [|apply IH].
      destruct k; try reflexivity. now elim Hk.
Qed.

(** The record a failing field returns: the record it was given when the
    field is not an acceleration field, and otherwise a record that differs
    from it in the acceleration at most. *)
Lemma parseField_error_record (p q : Packet) (field : string) (err : error) :
  parseField p field = (q, Some err) ->
  (hasKind KAcceleration field = false -> q = p)
  /\ (forall k, k <> KAcceleration -> samePart k p q).
Proof.
  unfold parseField, hasKind. cbn [prefixOf].
  destruct (strings.HasPrefix field "Time-"); [discriminate|].
  destruct (strings.HasPrefix field "Latitude-").
  { cbv zeta. destruct (ParseFloat _ 64) as [f [e|]]; intros [= <- <-].
    split; [reflexivity|]. intros k _. apply samePart_refl. }
  destruct (strings.HasPrefix field "Longitude-").
  { cbv zeta. destruct (ParseFloat _ 64) as [f [e|]]; intros [= <- <-].
    split; [reflexivity|]. intros k _. apply samePart_refl. }
  destruct (strings.HasPrefix field "Satellites-").
  { cbv zeta. destruct (Atoi _) as [n [e|]]; intros [= <- <-].
    split; [reflexivity|]. intros k _. apply samePart_refl. }
  destruct (strings.HasPrefix field "Acceleration"); [|discriminate].
  cbv zeta. intros H. split; [discriminate|]. intros k Hk.
  destruct (negb _).
  { injection H as <- _. apply samePart_refl. }
  destruct (negb _).
  { injection H as <- _. apply samePart_refl. }
  pose proof (accelLoop_frame 3 0 (strings.Split (nth 1 (strings.Split field ":"%char) "")
                                     ","%char) p k Hk) as Hf.
  now rewrite H in Hf.
Qed.

(** X2. The decoder stops at the first field that fails: it returns the
    error of that field and the record that field returns on the record of
    the fields before it, whatever follows. That record is the record of
    the fields before when the failing field is not an acceleration field,
    and differs from it in the acceleration at most otherwise (the
    components before the one that fails are already written). *)
Theorem ParsePacket_stops_at_first_failure
        (line : string) (before after : list string) (field : string) :
  (6 <= List.length (fieldsOf line))%nat ->
  tl (fieldsOf line) = before ++ field :: after ->
  (forall f, In f before -> ~ (numericFieldFails f \/ accelFieldFails f)) ->
  numericFieldFails field \/ accelFieldFails field ->
  exists p q err,
    parseFields zeroPacket before = (p, None)
    /\ parseField p field = (q, Some err)
    /\ ParsePacket line = (q, Some err)
    /\ (forall after', parseFields zeroPacket (before ++ field :: after')
                       = (q, Some err))
    /\ (hasKind KAcceleration field = false -> q = p)
    /\ (forall k, k <> KAcceleration -> samePart k p q).
Proof.
  intros Hge Hfs Hbefore Hfield.
  rewrite (ParsePacket_fields line Hge), Hfs.
  destruct (parseFields zeroPacket before) as [p e] eqn:Eb.
  assert (He : e = None).
  { destruct e as [err|]; [exfalso|reflexivity].
    assert (Hf : snd (parseFields zeroPacket before) <> None) by (rewrite Eb; discriminate).
    apply parseFields_error_iff in Hf. destruct Hf as (f & Hin & Hf).
    exact (Hbefore f Hin Hf). }
  subst e.
  apply (parseField_error_iff p) in Hfield.
  destruct (parseField p field) as [q [err|]] eqn:Ef; [|now elim Hfield].
  exists p, q, err.
  assert (Hall : forall l, parseFields zeroPacket (before ++ field :: l) = (q, Some err)).
  { intros l. rewrite parseFields_app, Eb. simpl. now rewrite Ef. }
  destruct (parseField_error_record p q field err Ef) as [H1 H2].
  split; [reflexivity|]. split; [exact Ef|]. split; [apply Hall|].
  split; [exact Hall|]. split; [exact H1|exact H2].
Qed.

(** X3. Which error a field gives, and with which record: a numeric field the
    error of the library conversion and the record untouched; a field
    starting with [Acceleration] that [:] does not cut in two
    ["bad accel field"], and one whose second part [,] does not cut in three
    ["bad accel values"], both with the record untouched; and an
    acceleration component the error of the conversion, with the components
    before it already written. *)
Theorem parseField_errors (p : Packet) :
  (forall v f err, ParseFloat v 64 = (f, Some err) ->
     parseField p ("Latitude-" ++ v) = (p, Some err)
     /\ parseField p ("Longitude-" ++ v) = (p, Some err))
  /\ (forall v n err, Atoi v = (n, Some err) ->
        parseField p ("Satellites-" ++ v) = (p, Some err))
  /\ (forall field, hasKind KAcceleration field = true ->
        List.length (strings.Split field ":"%char) <> 2%nat ->
        parseField p field = (p, Some (errorString "bad accel field")))
  /\ (forall field key v, hasKind KAcceleration field = true ->
        strings.Split field ":"%char = [key; v] ->
        List.length (strings.Split v ","%char) <> 3%nat ->
        parseField p field = (p, Some (errorString "bad accel values")))
  /\ (forall field a b c fa fb err, isField KAcceleration field ->
        accelShape field a b c ->
        ParseFloat a 64 = (fa, None) -> ParseFloat b 64 = (fb, None) ->
        snd (ParseFloat c 64) = Some err ->
        parseField p field
        = (setAcceleration (setAcceleration p 0 fa) 1 fb, Some err)).
Proof.
  split; [|split; [|split; [|split]]].
  - intros v f err E. rewrite parseField_Latitude, parseField_Longitude, E. auto.
  - intros v n err E. now rewrite parseField_Satellites, E.
  - intros field Hk Hlen. apply hasKind_isField in Hk. destruct Hk as [r ->].
    cbn [prefixOf] in *. unfold parseField.
    change (strings.HasPrefix ("Acceleration" ++ r) "Time-") with false.
    change (strings.HasPrefix ("Acceleration" ++ r) "Latitude-") with false.
    change (strings.HasPrefix ("Acceleration" ++ r) "Longitude-") with false.
    change (strings.HasPrefix ("Acceleration" ++ r) "Satellites-") with false.
    rewrite (HasPrefix_app "Acceleration" r). cbv zeta.
    apply Nat.eqb_neq in Hlen. now rewrite Hlen.
  - intros field key v Hk H2 Hlen. apply hasKind_isField in Hk. destruct Hk as [r ->].
    cbn [prefixOf] in *. unfold parseField.
    change (strings.HasPrefix ("Acceleration" ++ r) "Time-") with false.
    change (strings.HasPrefix ("Acceleration" ++ r) "Latitude-") with false.
    change (strings.HasPrefix ("Acceleration" ++ r) "Longitude-") with false.
    change (strings.HasPrefix ("Acceleration" ++ r) "Satellites-") with false.
    rewrite (HasPrefix_app "Acceleration" r). cbv zeta.
    rewrite H2. simpl nth. simpl negb.
    apply Nat.eqb_neq in Hlen. now rewrite Hlen.
  - intros field a b c fa fb err HA Hs Ea Eb Ec.
    rewrite (parseField_Acceleration p field a b c HA Hs), accelLoop_three, Ea, Eb.
    destruct (ParseFloat c 64) as [fc [e|]]; simpl in Ec; [|discriminate].
    now injection Ec as ->.
Qed.

End DecoderMore.


(** ** White space around a line *)

Lemma asciiSpace_cases (c : ascii) :
  asciiSpace c = true ->
  c = strings.byte 9 \/ c = strings.byte 10 \/ c = strings.byte 11
  \/ c = strings.byte 12 \/ c = strings.byte 13 \/ c = strings.byte 32.
Proof.
  unfold asciiSpace. intros H.
  rewrite <- (ascii_nat_embedding c).
  destruct (nat_of_ascii c) as [|n]; [discriminate|].
  do 8 (destruct n as [|n]; [discriminate|]).
  do 5 (destruct n as [|n]; [tauto|]).
  do 18 (destruct n as [|n]; [discriminate|]).
  destruct n as [|n]; [tauto|discriminate].
Qed.

(** A white-space byte at the head of a string is cut, from the left and,
    on the reversed string, from the right. *)
Lemma cutRune_space (c : ascii) (s : string) :
  asciiSpace c = true ->
  strings.cutRune strings.spaceRunes (String c s) = Some s
  /\ strings.cutRune (map strings.rev strings.spaceRunes) (String c s) = Some s.
Proof.
  intros H. apply asciiSpace_cases in H.
  destruct H as [->|[->|[->|[->|[->| ->]]]]]; split; reflexivity.
Qed.

Lemma cutRune_empty (runes : list string) :
  Forall (fun r => r <> "") runes -> strings.cutRune runes "" = None.
Proof.
  induction 1 as [|r runes Hr _ IH]; simpl; [reflexivity|].
  destruct r; [contradiction|exact IH].
Qed.

Lemma spaceRunes_not_empty : Forall (fun r => r <> "") strings.spaceRunes.
Proof. vm_compute. repeat constructor; discriminate. Qed.

Lemma HasPrefix_snoc (c : ascii) (r s : string) :
  noByte c r -> strings.HasPrefix (s ++ String c "") r = strings.HasPrefix s r.
Proof.
  revert s. induction r as [|b r IH]; intros s H; simpl; [reflexivity|].
  destruct H as [Hb Hr]. destruct s as [|a s]; simpl.
  - apply Ascii.eqb_neq in Hb. rewrite Ascii.eqb_sym, Hb. reflexivity.
  - now rewrite IH.
Qed.

Lemma skip_snoc (s r : string) (c : ascii) :
  strings.HasPrefix s r = true ->
  strings.skip (String.length r) (s ++ String c "")
  = (strings.skip (String.length r) s ++ String c "")%string.
Proof.
  revert s. induction r as [|b r IH]; intros s H; simpl in *; [reflexivity|].
  destruct s as [|a s]; [discriminate|]. simpl.
  apply andb_true_iff in H. now apply IH.
Qed.

(** No rune of the white space has a white-space byte after its first
    byte. *)
Lemma spaceRunes_tails (c : ascii) :
  asciiSpace c = true ->
  Forall (fun r => match r with
                   | EmptyString => False
                   | String _ r' => noByte c r'
                   end) strings.spaceRunes.
Proof.
  intros H. apply asciiSpace_cases in H.
  destruct H as [->|[->|[->|[->|[->| ->]]]]];
    vm_compute; repeat constructor; discriminate.
Qed.

Lemma cutRune_snoc (c : ascii) (runes : list string) (a : ascii) (s : string) :
  Forall (fun r => match r with
                   | EmptyString => False
                   | String _ r' => noByte c r'
                   end) runes ->
  strings.cutRune runes (String a s ++ String c "")
  = option_map (fun t => (t ++ String c "")%string) (strings.cutRune runes (String a s)).
Proof.
  induction 1 as [|r runes Hr _ IH]; [reflexivity|].
  destruct r as [|b r]; [contradiction|].
  cbn [strings.cutRune].
  assert (E : strings.HasPrefix (String a s ++ String c "") (String b r)
              = strings.HasPrefix (String a s) (String b r)).
  { simpl. now rewrite HasPrefix_snoc. }
  rewrite E. destruct (strings.HasPrefix (String a s) (String b r)) eqn:Hp.
  - cbn [option_map]. f_equal. now apply skip_snoc.
  - exact IH.
Qed.

Lemma skip_length (n : nat) (s : string) :
  (String.length (strings.skip n s) <= String.length s)%nat.
Proof.
  revert s. induction n as [|n IH]; intros s; simpl; [lia|].
  destruct s as [|a s]; simpl; [lia|]. specialize (IH s). lia.
Qed.

Lemma cutRune_shorter (runes : list string) (s t : string) :
  Forall (fun r => r <> "") runes ->
  strings.cutRune runes s = Some t -> (String.length t < String.length s)%nat.
Proof.
  induction 1 as [|r runes Hr _ IH]; simpl; [discriminate|].
  destruct (strings.HasPrefix s r) eqn:Hp; [|exact IH].
  intros [= <-]. destruct r as [|b r]; [contradiction|].
  destruct s as [|a s]; [discriminate|]. simpl.
  pose proof (skip_length (String.length r) s). lia.
Qed.

Lemma trimLeft_snoc (c : ascii) (n : nat) (s : string) :
  asciiSpace c = true -> (String.length s <= n)%nat ->
  strings.trimLeft (S n) strings.spaceRunes (s ++ String c "")
  = match strings.trimLeft n strings.spaceRunes s with
    | EmptyString => EmptyString
    | t => (t ++ String c "")%string
    end.
Proof.
  intros Hc. revert s. induction n as [|n IH]; intros s Hlen.
  - destruct s; [|simpl in Hlen; lia]. simpl (_ ++ _)%string.
    cbn [strings.trimLeft]. now rewrite (proj1 (cutRune_space c "" Hc)).
  - destruct s as [|a s].
    + simpl (_ ++ _)%string. cbn [strings.trimLeft].
      rewrite (proj1 (cutRune_space c "" Hc)).
      now rewrite (cutRune_empty _ spaceRunes_not_empty).
    + change (strings.trimLeft (S (S n)) strings.spaceRunes (String a s ++ String c ""))
        with (match strings.cutRune strings.spaceRunes (String a s ++ String c "") with
              | Some s' => strings.trimLeft (S n) strings.spaceRunes s'
              | None => (String a s ++ String c "")%string
              end).
      rewrite (cutRune_snoc c _ a s (spaceRunes_tails c Hc)).
      cbn [strings.trimLeft].
      destruct (strings.cutRune strings.spaceRunes (String a s)) as [t|] eqn:Ecut.
      * cbn [option_map]. apply IH.
        pose proof (cutRune_shorter _ _ _ spaceRunes_not_empty Ecut). simpl in *. lia.
      * reflexivity.
Qed.

Lemma string_length_snoc (s : string) (c : ascii) :
  String.length (s ++ String c "") = S (String.length s).
Proof. induction s as [|a s IH]; simpl; [reflexivity|now rewrite IH]. Qed.

Lemma rev_snoc (s : string) (c : ascii) :
  strings.rev (s ++ String c "") = String c (strings.rev s).
Proof. induction s as [|a s IH]; simpl; [reflexivity|now rewrite IH]. Qed.

Lemma TrimRightSpace_snoc (c : ascii) (s : string) :
  asciiSpace c = true ->
  strings.TrimRightSpace (s ++ String c "") = strings.TrimRightSpace s.
Proof.
  intros Hc. unfold strings.TrimRightSpace.
  rewrite string_length_snoc, rev_snoc. cbn [strings.trimLeft].
  now rewrite (proj2 (cutRune_space c _ Hc)).
Qed.

Lemma TrimSpace_snoc (c : ascii) (s : string) :
  asciiSpace c = true -> strings.TrimSpace (s ++ String c "") = strings.TrimSpace s.
Proof.
  intros Hc. unfold strings.TrimSpace, strings.TrimLeftSpace.
  rewrite string_length_snoc, (trimLeft_snoc c _ s Hc (le_n _)).
  destruct (strings.trimLeft (String.length s) strings.spaceRunes s) as [|a t];
    [reflexivity|].
  now apply TrimRightSpace_snoc.
Qed.

Lemma TrimSpace_cons (c : ascii) (s : string) :
  asciiSpace c = true -> strings.TrimSpace (String c s) = strings.TrimSpace s.
Proof.
  intros Hc. unfold strings.TrimSpace, strings.TrimLeftSpace.
  cbn [String.length strings.trimLeft].
  now rewrite (proj1 (cutRune_space c s Hc)).
Qed.

Lemma string_app_assoc (s t u : string) : ((s ++ t) ++ u = s ++ (t ++ u))%string.
Proof. induction s as [|a s IH]; simpl; [reflexivity|now rewrite IH]. Qed.

Lemma string_app_nil_r (s : string) : (s ++ "")%string = s.
Proof. induction s as [|a s IH]; simpl; [reflexivity|now rewrite IH]. Qed.

Lemma TrimSpace_around (left right s : string) :
  allSpace left -> allSpace right ->
  strings.TrimSpace (left ++ s ++ right) = strings.TrimSpace s.
Proof.
  intros Hl Hr. induction left as [|c left IH]; simpl.
  - clear Hl. revert s. induction right as [|c right IH]; intros s.
    + now rewrite string_app_nil_r.
    + destruct Hr as [Hc Hr].
      change (String c right) with (String c "" ++ right)%string.
      rewrite <- string_app_assoc, (IH Hr). now apply TrimSpace_snoc.
  - destruct Hl as [Hc Hl]. rewrite (TrimSpace_cons c _ Hc). now apply IH.
Qed.

Section DecoderSpace.

Context {lib : Strconv}.

(** X4. White space before and after a line does not matter to the decoder:
    the line feed [ReadString] leaves at the end of each line, a carriage
    return before it, blanks and tabs. *)
Theorem ParsePacket_ignores_surrounding_space (left right line : string) :
  allSpace left -> allSpace right ->
  ParsePacket (left ++ line ++ right) = ParsePacket line.
Proof.
  intros Hl Hr. unfold ParsePacket. now rewrite (TrimSpace_around left right line Hl Hr).
Qed.

End DecoderSpace.

Lemma ParsePacket_ignores_surrounding_space_witness :
  ParsePacket (lib := goStrconv)
    (strings.bytes [32; 9] ++ "x;Time-1;a;b;c;d" ++ strings.bytes [13; 10])
  = ParsePacket (lib := goStrconv) "x;Time-1;a;b;c;d".
Proof.
  apply (ParsePacket_ignores_surrounding_space (lib := goStrconv));
    vm_compute; tauto.
Defined.


(** ** The read loop *)

Section ReadLoopFacts.

Context {lib : Strconv}.

(** X5. The read loop, run ahead of the frame loop from a buffer within its
    capacity, leaves in the channel the latest 128 of the packets pending
    before and the packets decoded since, in order; lines read with an
    error or not decoding change nothing; no send waits; and every decoded
    packet is handed to the database when there is one, none otherwise. *)
Theorem readRounds_latest (hasDB : bool) (q : chan) (reads : list (string * option error)) :
  (List.length q <= 128)%nat ->
  readRounds hasDB q reads
  = (Some (keepLast 128 (q ++ decodedOf reads)),
     if hasDB then decodedOf reads else []).
Proof.
  revert q. induction reads as [|[line err] reads IH]; intros q Hq.
  - simpl. rewrite app_nil_r. unfold keepLast.
    destruct (Nat.ltb_spec 128 (List.length q)); [lia|]. now destruct hasDB.
  - cbn [readRounds decodedOf flat_map fst snd]. unfold readRound.
    destruct err as [e|].
    + rewrite (IH q Hq). now destruct hasDB.
    + destruct (ParsePacket line) as [p [e|]].
      * rewrite (IH q Hq). now destruct hasDB.
      * rewrite (enqueue_keepLast q p Hq).
        rewrite IH by apply keepLast_length.
        change chanCapacity with 128%nat.
        rewrite keepLast_app, <- app_assoc. now destruct hasDB.
Qed.

End ReadLoopFacts.

Lemma readRounds_latest_witness :
  readRounds (lib := goStrconv) true []
    [("x;Time-1;a;b;c;d", None); ("garbage", None);
     ("x;Time-2;a;b;c;d", Some (errorString "timeout")); ("x;Time-3;a;b;c;d", None)]
  = (Some [setTime zeroPacket "1"; setTime zeroPacket "3"],
     [setTime zeroPacket "1"; setTime zeroPacket "3"]).
Proof.
  rewrite (readRounds_latest (lib := goStrconv) true []) by (simpl; lia).
  vm_compute. reflexivity.
Defined.


(** ** The drain loop as a whole *)

Lemma last_default {A : Type} (x : A) (l : list A) (d d' : A) :
  last (x :: l) d = last (x :: l) d'.
Proof.
  revert x. induction l as [|y l IH]; intros x; [reflexivity|].
  change (last (y :: l) d = last (y :: l) d'). apply IH.
Qed.

(** X6. After the drain loop, from a state within the two capacities: the
    series is the latest 300 of the old samples and the z acceleration of
    the packets received, the log the latest 200 of the old lines and one
    line per packet, both in order; the last packet received is the one
    shown; and the port flag is as before. *)
Theorem drain_latest (st : UIState) (received : list Packet) :
  (List.length (Series st) <= 300)%nat ->
  (List.length (LogLines st) <= 200)%nat ->
  Series (drain st received)
  = keepLast 300 (Series st ++ map (fun p => toFloat32 (get3 (Acceleration p) 2)) received)
  /\ LogLines (drain st received) = keepLast 200 (LogLines st ++ map logLine received)
  /\ LastPacket (drain st received) = last received (LastPacket st)
  /\ PortOpen (drain st received) = PortOpen st.
Proof.
  revert st. unfold drain.
  induction received as [|p ps IH]; intros st Hs Hl.
  - simpl. rewrite !app_nil_r. unfold keepLast.
    destruct (Nat.ltb_spec 300 (List.length (Series st))); [lia|].
    destruct (Nat.ltb_spec 200 (List.length (LogLines st))); [lia|]. auto.
  - cbn [fold_left map].
    destruct (IH (drainStep st p)) as (H1 & H2 & H3 & H4);
      [apply keepLast_length|apply keepLast_length|].
    rewrite H1, H2, H3, H4. unfold drainStep. cbn [Series LogLines LastPacket PortOpen].
    change seriesCapacity with 300%nat. change logCapacity with 200%nat.
    rewrite !keepLast_app, <- !app_assoc.
    repeat split. destruct ps as [|p0 ps]; [reflexivity|].
    change (last (p :: p0 :: ps) (LastPacket st)) with (last (p0 :: ps) (LastPacket st)).
    apply last_default.
Qed.

Lemma drain_latest_witness :
  Series (drain (mkUIState zeroPacket [] [] false)
                [zeroPacket; mkPacket "t" 0%float 0%float 1%Z (0%float, 0%float, 2%float)])
  = [0%float; 2%float]
  /\ LastPacket (drain (mkUIState zeroPacket [] [] false)
                [zeroPacket; mkPacket "t" 0%float 0%float 1%Z (0%float, 0%float, 2%float)])
     = mkPacket "t" 0%float 0%float 1%Z (0%float, 0%float, 2%float).
Proof.
  destruct (drain_latest (mkUIState zeroPacket [] [] false)
              [zeroPacket; mkPacket "t" 0%float 0%float 1%Z (0%float, 0%float, 2%float)])
    as (H1 & _ & H3 & _); [simpl; lia|simpl; lia|].
  split; [rewrite H1; vm_compute; reflexivity|exact H3].
Defined.


(** ** More on the persistence layer *)

Lemma capped_length {A : Type} (limit : Z) (l : list A) :
  List.length (capped limit l)
  = if (limit <=? 0)%Z then List.length l else Nat.min (Z.to_nat limit) (List.length l).
Proof. unfold capped. destruct (limit <=? 0)%Z; [reflexivity|apply length_firstn]. Qed.

Lemma capped_In {A : Type} (limit : Z) (l : list A) (x : A) :
  In x (capped limit l) -> In x l.
Proof.
  unfold capped. destruct (limit <=? 0)%Z; [auto|].
  intros H. rewrite <- (firstn_skipn (Z.to_nat limit) l). apply in_or_app. now left.
Qed.

Lemma StronglySorted_snoc {A : Type} (R : A -> A -> Prop) (l : list A) (x : A) :
  StronglySorted R l -> Forall (fun y => R y x) l -> StronglySorted R (l ++ [x]).
Proof.
  induction 1 as [|y l Hl IH Hy]; intros Hall; simpl.
  - repeat constructor.
  - inversion Hall as [|? ? Hyx Hall']; subst. constructor; [now apply IH|].
    apply Forall_app. split; [exact Hy|]. repeat constructor. exact Hyx.
Qed.

Lemma StronglySorted_rev {A : Type} (R : A -> A -> Prop) (l : list A) :
  StronglySorted R l -> StronglySorted (fun a b => R b a) (rev l).
Proof.
  induction 1 as [|x l Hl IH Hx]; simpl; [constructor|].
  apply StronglySorted_snoc; [exact IH|].
  apply Forall_forall. intros y Hy. apply in_rev in Hy.
  rewrite Forall_forall in Hx. now apply Hx.
Qed.

(** Rows with different creation times have one order only. *)
Lemma sorted_Permutation_unique (l1 l2 : list StoredPacket) :
  StronglySorted olderFirst l1 -> StronglySorted olderFirst l2 ->
  Permutation l1 l2 -> NoDup (map StoredPacket.CreatedAt l1) -> l1 = l2.
Proof.
  revert l2. induction l1 as [|x l1 IH]; intros l2 H1 H2 HP Hnd.
  - apply Permutation_nil in HP. now subst.
  - destruct l2 as [|y l2]; [apply Permutation_sym, Permutation_nil in HP; discriminate|].
    inversion H1 as [|? ? H1' Hx]; subst. inversion H2 as [|? ? H2' Hy]; subst.
    inversion Hnd as [|? ? Hnotin Hnd']; subst.
    rewrite Forall_forall in Hx, Hy.
    assert (Exy : x = y).
    { assert (Hin : In x (y :: l2)) by (eapply Permutation_in; [exact HP|now left]).
      destruct Hin as [->|Hin]; [reflexivity|].
      assert (Hin' : In y (x :: l1)).
      { eapply Permutation_in; [apply Permutation_sym; exact HP|now left]. }
      destruct Hin' as [->|Hin']; [reflexivity|].
      exfalso. apply Hnotin.
      pose proof (Hx y Hin') as Hle1. pose proof (Hy x Hin) as Hle2.
      unfold olderFirst in *.
      replace (StoredPacket.CreatedAt x) with (StoredPacket.CreatedAt y) by lia.
      now apply in_map. }
    subst y. f_equal. apply IH; try assumption.
    now apply Permutation_cons_inv in HP.
Qed.

Section StoreMore.

Variable sortRows : direction -> list StoredPacket -> list StoredPacket.
Hypothesis sortRows_lawful : lawfulSort sortRows.

(** X7. A packet inserted is stored and listed: a successful [InsertPacket]
    returns the counter's next value, adds one row with that identifier, the
    packet's values and the server's time, keeps the rows there were, and
    [GetPacketCount] and [GetPackets] see it next. *)
Theorem InsertPacket_stored (now : time) (d d' : Database) (packet : Packet) (id : Z) :
  InsertPacket now d packet = (d', (id, None)) ->
  id = (lastID d + 1)%Z
  /\ exists r,
       rows d' = rows d ++ [r]
       /\ StoredPacket.ID r = id /\ holds r packet
       /\ StoredPacket.CreatedAt r = now /\ StoredPacket.UpdatedAt r = now
       /\ GetPacketCount d' = ((Z.of_nat (List.length (rows d)) + 1)%Z, None)
       /\ snd (GetPackets sortRows d' 0) = None
       /\ In r (elems (fst (GetPackets sortRows d' 0))).
Proof.
  unfold InsertPacket. destruct (down d) as [e|] eqn:Hup; [discriminate|].
  destruct packet as [t la lo sa [[x y] z]]. cbn [Acceleration].
  intros [= <- <-]. split; [reflexivity|].
  eexists. split; [reflexivity|]. cbn.
  repeat split.
  - unfold GetPacketCount. cbn. rewrite length_app. simpl. f_equal. lia.
  - unfold GetPackets, Query, selectRows. cbn. rewrite elems_fold_append. cbn.
    eapply Permutation_in; [apply Permutation_sym, sortRows_lawful|].
    apply in_or_app. right. now left.
Qed.

(** X8. [GetLatestPacket] on a table with rows returns one of them, and none of
    the rows is more recent; on a table without rows it returns no packet
    and no error. *)
Theorem GetLatestPacket_most_recent (d : Database) :
  down d = None ->
  (rows d = [] -> GetLatestPacket sortRows d = (None, None))
  /\ (rows d <> [] ->
      exists r, GetLatestPacket sortRows d = (Some r, None)
                /\ In r (rows d)
                /\ Forall (fun x => (StoredPacket.CreatedAt x <= StoredPacket.CreatedAt r)%Z)
                          (rows d)).
Proof.
  intros Hup. destruct (sortRows_lawful DESC (rows d)) as [HP HS].
  unfold GetLatestPacket, QueryRow, selectRows. rewrite Hup. cbn.
  split.
  - intros E. rewrite E in *. apply Permutation_sym, Permutation_nil in HP.
    now rewrite HP.
  - intros Hne. destruct (sortRows DESC (rows d)) as [|r l] eqn:E.
    + apply Permutation_nil in HP. contradiction.
    + exists r. cbn. split; [reflexivity|]. split.
      * eapply Permutation_in; [exact HP|now left].
      * apply Forall_forall. intros x Hx.
        apply (Permutation_in _ (Permutation_sym HP)) in Hx.
        destruct Hx as [<-|Hx]; [lia|].
        inversion HS as [|? ? _ Hall]; subst. rewrite Forall_forall in Hall.
        apply Z.leb_le. exact (Hall x Hx).
Qed.

Lemma GetPackets_nil (d : Database) (limit : Z) :
  down d = None ->
  (fst (GetPackets sortRows d limit) = None <-> rows d = []).
Proof.
  intros Hup. destruct (sortRows_lawful DESC (rows d)) as [HP _].
  unfold GetPackets, Query. cbv zeta. rewrite Hup, selectRows_capped. cbn [fst].
  rewrite fold_append_nil. unfold capped. split.
  - destruct (Z.leb_spec limit 0).
    + intros E. rewrite E in HP. now apply Permutation_nil in HP.
    + destruct (Z.to_nat limit) as [|n] eqn:En; [lia|].
      destruct (sortRows DESC (rows d)) as [|r l] eqn:E; [|discriminate].
      intros _. now apply Permutation_nil in HP.
  - intros E. rewrite E in HP |- *. apply Permutation_sym, Permutation_nil in HP.
    rewrite HP.
    destruct (limit <=? 0)%Z; [reflexivity|apply firstn_nil].
Qed.

(** X9. How many packets [GetPackets] returns: all of them when [limit <= 0],
    at most [limit] otherwise; and the slice it returns is nil exactly when
    the table has no rows. *)
Theorem GetPackets_length (d : Database) (limit : Z) :
  down d = None ->
  List.length (elems (fst (GetPackets sortRows d limit)))
  = (if (limit <=? 0)%Z then List.length (rows d)
     else Nat.min (Z.to_nat limit) (List.length (rows d)))
  /\ (fst (GetPackets sortRows d limit) = None <-> rows d = []).
Proof.
  intros Hup. split; [|now apply GetPackets_nil].
  destruct (sortRows_lawful DESC (rows d)) as [HP _].
  unfold GetPackets, Query. cbv zeta. rewrite Hup, selectRows_capped. cbn [fst].
  rewrite elems_fold_append. cbn. rewrite capped_length.
  now rewrite (Permutation_length HP).
Qed.

(** X10. When no two rows have the same creation time, the whole series is the
    whole listing read backwards. *)
Theorem GetAccelerationSeries_reverses_GetPackets (d : Database) (limit : Z) :
  down d = None -> (limit <= 0)%Z ->
  NoDup (map StoredPacket.CreatedAt (rows d)) ->
  elems (fst (GetAccelerationSeries sortRows d limit))
  = rev (map (fun r => toFloat32 (StoredPacket.AccelerationZ r))
             (elems (fst (GetPackets sortRows d limit)))).
Proof.
  intros Hup Hlim Hnd.
  destruct (sortRows_lawful DESC (rows d)) as [HPd HSd].
  destruct (sortRows_lawful ASC (rows d)) as [HPa HSa].
  unfold GetPackets, GetAccelerationSeries, Query. cbv zeta. rewrite Hup.
  rewrite !selectRows_capped. cbn [fst].
  rewrite elems_fold_append, elems_fold_append_map. cbn [elems app].
  unfold capped. destruct (Z.leb_spec limit 0); [|lia].
  rewrite <- map_rev. f_equal.
  apply sorted_Permutation_unique.
  - now apply sorted_olderFirst.
  - apply (StronglySorted_rev newerFirst). now apply sorted_newerFirst.
  - rewrite HPa, <- Permutation_rev. now apply Permutation_sym.
  - eapply Permutation_NoDup; [|exact Hnd].
    apply Permutation_map, Permutation_sym, HPa.
Qed.

(** X11. While the connection is down nothing is read or written: every
    operation returns its zero result with an error that wraps the cause,
    the two writes leave the database as it is, and the exports stop before
    they create a file. *)
Theorem Database_down (d : Database) (cause : error) (now : time) (packet : Packet)
        (limit : Z) (created : option error) :
  down d = Some cause ->
  InsertPacket now d packet = (d, (0%Z, Some (wrapError "failed to insert packet" cause)))
  /\ DeleteAllPackets d = (d, Some (wrapError "failed to delete all packets" cause))
  /\ GetPackets sortRows d limit = (None, Some (wrapError "failed to query packets" cause))
  /\ GetPacketCount d = (0%Z, Some (wrapError "failed to get packet count" cause))
  /\ GetAccelerationSeries sortRows d limit
     = (None, Some (wrapError "failed to query acceleration series" cause))
  /\ (cause <> ErrNoRows ->
      GetLatestPacket sortRows d
      = (None, Some (wrapError "failed to get latest packet" cause)))
  /\ SavePacketsToCSV sortRows d created limit
     = (None, Some (wrapError "failed to get packets"
                              (wrapError "failed to query packets" cause)))
  /\ SavePacketsToJSON sortRows d created limit
     = (None, Some (wrapError "failed to get packets"
                              (wrapError "failed to query packets" cause))).
Proof.
  intros Hd.
  unfold InsertPacket, DeleteAllPackets, SavePacketsToCSV, SavePacketsToJSON,
    GetPackets, GetPacketCount, GetAccelerationSeries, GetLatestPacket, QueryRow, Query.
  cbv zeta. rewrite Hd. repeat split.
  intros Hne. destruct cause; try reflexivity. now elim Hne.
Qed.

End StoreMore.


(** ** More on the export engine *)

Section ExportMore.

Variable sortRows : direction -> list StoredPacket -> list StoredPacket.
Hypothesis sortRows_lawful : lawfulSort sortRows.

Lemma GetPackets_In (d : Database) (limit : Z) (p : StoredPacket) :
  In p (elems (fst (GetPackets sortRows d limit))) -> In p (rows d).
Proof.
  unfold GetPackets, Query. cbv zeta. destruct (down d); [intros []|].
  rewrite selectRows_capped. cbn [fst]. rewrite elems_fold_append. cbn.
  intros H. apply capped_In in H.
  eapply Permutation_in; [apply sortRows_lawful|exact H].
Qed.

(** X13. A CSV file that is written is a table: every record, the header
    included, has ten fields; there is one record per packet listed after
    the header; and the first column of those records is the identifiers of
    the packets in the order [GetPackets] lists them. *)
Theorem SavePacketsToCSV_table (d : Database) (created : option error) (limit : Z)
        (file : csvFile) :
  SavePacketsToCSV sortRows d created limit = (Some file, None) ->
  Forall (fun record => List.length record = 10%nat) file
  /\ List.length file = S (List.length (elems (fst (GetPackets sortRows d limit))))
  /\ map (fun record => hd "" record) (tl file)
     = map (fun p => strconv.FormatInt (StoredPacket.ID p))
           (elems (fst (GetPackets sortRows d limit))).
Proof.
  unfold SavePacketsToCSV.
  destruct (GetPackets sortRows d limit) as [packets [e|]]; [discriminate|].
  destruct created as [e|]; [discriminate|]. cbv zeta. rewrite fold_rows.
  intros [= <-]. cbn [fst app]. repeat split.
  - constructor; [reflexivity|]. apply Forall_forall. intros record Hin.
    apply in_map_iff in Hin. now destruct Hin as (p & <- & _).
  - simpl. now rewrite length_map.
  - cbn [tl]. now rewrite map_map.
Qed.

(** X14. The JSON export of a table with rows, all finite, is an array with one
    object per packet listed, in the order of the listing and of the rows
    of the CSV export; a file that cannot be created is an error of either
    export. *)
Theorem SavePacketsToJSON_array (d : Database) (limit : Z) :
  down d = None -> rows d <> [] ->
  forallb finiteRow (rows d) = true ->
  SavePacketsToJSON sortRows d None limit
  = (Some (JArray (map marshalPacket (elems (fst (GetPackets sortRows d limit))))), None)
  /\ SavePacketsToCSV sortRows d None limit
     = (Some (csvHeader :: map csvRow (elems (fst (GetPackets sortRows d limit)))), None)
  /\ forall cause,
       SavePacketsToJSON sortRows d (Some cause) limit
       = (None, Some (wrapError "failed to create file" cause))
       /\ SavePacketsToCSV sortRows d (Some cause) limit
          = (None, Some (wrapError "failed to create file" cause)).
Proof.
  intros Hup Hne Hfin.
  pose proof (GetPackets_In d limit) as Hin.
  pose proof (GetPackets_nil sortRows sortRows_lawful d limit Hup) as Hnil.
  unfold SavePacketsToJSON, SavePacketsToCSV.
  destruct (GetPackets sortRows d limit) as [packets e] eqn:EG.
  assert (He : e = None).
  { unfold GetPackets, Query in EG. cbv zeta in EG. rewrite Hup in EG.
    now injection EG as _ <-. }
  subst e. cbn [fst] in *. cbv zeta. rewrite fold_rows.
  destruct packets as [l|]; [|exfalso; apply Hne, Hnil; reflexivity].
  cbn [Encode elems app] in *.
  assert (Hl : forallb finiteRow l = true).
  { apply forallb_forall. intros p Hp.
    rewrite forallb_forall in Hfin. apply Hfin, Hin, Hp. }
  rewrite Hl. repeat split.
Qed.

End ExportMore.


(** ** [CreateTestPacket] and the database configuration *)

Lemma below_In (bound k : Z) :
  (0 <= k < bound)%Z -> In k (map Z.of_nat (seq 0 (Z.to_nat bound))).
Proof.
  intros H. apply in_map_iff. exists (Z.to_nat k). split; [lia|].
  apply in_seq. lia.
Qed.

Lemma latitude_range (k : Z) :
  (0 <= k < 1000)%Z ->
  within 54.687157 54.6972 (54.687157 + float64OfInt k / 100000.0)%float = true.
Proof.
  intros H.
  assert (Hall : forallb (fun k => within 54.687157 54.6972
                                     (54.687157 + float64OfInt k / 100000.0)%float)
                         (map Z.of_nat (seq 0 (Z.to_nat 1000))) = true)
    by (vm_compute; reflexivity).
  rewrite forallb_forall in Hall. apply Hall. now apply below_In.
Qed.

Lemma longitude_range (k : Z) :
  (0 <= k < 1000)%Z ->
  within 25.279652 25.2897 (25.279652 + float64OfInt k / 100000.0)%float = true.
Proof.
  intros H.
  assert (Hall : forallb (fun k => within 25.279652 25.2897
                                     (25.279652 + float64OfInt k / 100000.0)%float)
                         (map Z.of_nat (seq 0 (Z.to_nat 1000))) = true)
    by (vm_compute; reflexivity).
  rewrite forallb_forall in Hall. apply Hall. now apply below_In.
Qed.

Lemma acceleration_range (k : Z) :
  (0 <= k < 200)%Z ->
  within (-1) 0.99 (float64OfInt (k - 100) / 100.0)%float = true.
Proof.
  intros H.
  assert (Hall : forallb (fun k => within (-1) 0.99 (float64OfInt (k - 100) / 100.0)%float)
                         (map Z.of_nat (seq 0 (Z.to_nat 200))) = true)
    by (vm_compute; reflexivity).
  rewrite forallb_forall in Hall. apply Hall. now apply below_In.
Qed.

(** X16. With clock readings after 1970, a test packet has 8 to 12 satellites,
    a position within a hundredth of a degree north and east of
    (54.687157, 25.279652), and every acceleration axis between -1 and
    0.99. *)
Theorem CreateTestPacket_ranges (clock : string) (n1 n2 n3 n4 n5 n6 : Z) :
  (0 <= n1)%Z -> (0 <= n2)%Z -> (0 <= n3)%Z ->
  (0 <= n4)%Z -> (0 <= n5)%Z -> (0 <= n6)%Z ->
  (8 <= Satellites (CreateTestPacket clock n1 n2 n3 n4 n5 n6) <= 12)%Z
  /\ within 54.687157 54.6972 (Latitude (CreateTestPacket clock n1 n2 n3 n4 n5 n6)) = true
  /\ within 25.279652 25.2897 (Longitude (CreateTestPacket clock n1 n2 n3 n4 n5 n6)) = true
  /\ (forall i, within (-1) 0.99
                  (get3 (Acceleration (CreateTestPacket clock n1 n2 n3 n4 n5 n6)) i)
                = true)
  /\ Time (CreateTestPacket clock n1 n2 n3 n4 n5 n6) = clock.
Proof.
  intros H1 H2 H3 H4 H5 H6. unfold CreateTestPacket.
  cbn [Satellites Latitude Longitude Acceleration Time].
  split; [pose proof (Z.rem_bound_pos n3 5 H3); lia|].
  split; [apply latitude_range, Z.rem_bound_pos; lia|].
  split; [apply longitude_range, Z.rem_bound_pos; lia|].
  split; [|reflexivity].
  intros i. unfold get3. destruct i as [|[|i]];
    apply acceleration_range, Z.rem_bound_pos; lia.
Qed.

Lemma CreateTestPacket_ranges_witness :
  (8 <= Satellites (CreateTestPacket "12:00:00" 1999 2 14 250 99 0) <= 12)%Z.
Proof.
  apply (CreateTestPacket_ranges "12:00:00" 1999 2 14 250 99 0); lia.
Defined.

Lemma eqb_empty (s : string) : negb (String.eqb s "") = true <-> s <> "".
Proof.
  destruct (String.eqb_spec s ""); simpl; split; congruence.
Qed.

Lemma getEnvOrDefault_cases (env : environment) (key defaultValue : string) :
  (env key <> "" /\ getEnvOrDefault env key defaultValue = env key)
  \/ (env key = "" /\ getEnvOrDefault env key defaultValue = defaultValue).
Proof.
  unfold getEnvOrDefault. cbv zeta.
  destruct (String.eqb_spec (env key) ""); simpl; auto.
Qed.

Lemma string_app_not_empty (s t : string) : t <> "" -> (s ++ t)%string <> "".
Proof. destruct s; simpl; [auto|discriminate]. Qed.

(** X17. The connection string: [DATABASE_DSN] as it is when it is set to
    something; otherwise [user:password@tcp(host:port)/name?parseTime=true],
    where a variable that is not set, or set to nothing, gives way to its
    default, so that user, host, port and name are never empty. The result
    is never empty. *)
Theorem getDatabaseDSN_cases (env : environment) :
  (env "DATABASE_DSN" <> "" -> getDatabaseDSN env = env "DATABASE_DSN")
  /\ (env "DATABASE_DSN" = "" ->
      exists user password host port name,
        getDatabaseDSN env
        = (user ++ ":" ++ password ++ "@tcp(" ++ host ++ ":" ++ port ++ ")/" ++ name
                ++ "?parseTime=true")%string
        /\ user = getEnvOrDefault env "DB_USER" "root"
        /\ password = env "DB_PASSWORD"
        /\ host = getEnvOrDefault env "DB_HOST" "127.0.0.1"
        /\ port = getEnvOrDefault env "DB_PORT" "3306"
        /\ name = getEnvOrDefault env "DB_NAME" "komkomunikacijos"
        /\ user <> "" /\ host <> "" /\ port <> "" /\ name <> "")
  /\ getDatabaseDSN env <> "".
Proof.
  assert (Hne : forall key def, def <> "" -> getEnvOrDefault env key def <> "").
  { intros key def Hd.
    destruct (getEnvOrDefault_cases env key def) as [[H ->]|[_ ->]]; assumption. }
  unfold getDatabaseDSN. cbv zeta.
  destruct (String.eqb_spec (env "DATABASE_DSN") "") as [E|N]; cbn [negb].
  - split; [congruence|]. split.
    + intros _. eexists _, _, _, _, _. split; [reflexivity|].
      split; [reflexivity|]. split.
      * destruct (getEnvOrDefault_cases env "DB_PASSWORD" "") as [[_ ->]|[-> ->]];
          reflexivity.
      * repeat split; apply Hne; discriminate.
    + apply string_app_not_empty. discriminate.
  - split; [reflexivity|]. split; [contradiction|exact N].
Qed.


(** ** The frame event *)

(** A handler ends with [trimLog]: whatever it logged, the state is within
    capacity after it when the two series are. *)
Lemma trimLog_withinCapacity (a : AppState) :
  (List.length (Series (ui a)) <= seriesCapacity)%nat ->
  (List.length (elems (DBSeries a)) <= seriesCapacity)%nat ->
  withinCapacity (trimLog a).
Proof.
  intros H1 H2. unfold withinCapacity, trimLog. cbn.
  repeat split; try assumption. apply keepLast_length.
Qed.

Lemma shownSeries_length (a : AppState) :
  withinCapacity a -> (List.length (shownSeries a) <= 300)%nat.
Proof.
  intros (H1 & _ & H3). unfold shownSeries.
  destruct (0 <? len (DBSeries a))%Z; assumption.
Qed.

Section FrameFacts.

Variable sortRows : direction -> list StoredPacket -> list StoredPacket.
Variable errorText : error -> string.

Lemma logFirstThree_fields (i : nat) (packets : list StoredPacket) (a : AppState) :
  Series (ui (logFirstThree i packets a)) = Series (ui a)
  /\ sameDatabaseFields (logFirstThree i packets a) a.
Proof.
  revert i a. induction packets as [|p ps IH]; intros i a; simpl.
  - unfold sameDatabaseFields. auto 6.
  - destruct (IH (S i) (if (i <? 3)%nat then appendLog a (storedLine p) else a))
      as (H1 & H2 & H3 & H4 & H5).
    unfold sameDatabaseFields. rewrite H1, H2, H3, H4, H5.
    destruct (i <? 3)%nat; auto 6.
Qed.

(** A property of the state and the database that every handler keeps is
    kept by a guarded handler, run or not. *)
Lemma handle_keeps (P : AppState -> option Database -> Prop) (click : bool) (h : handler)
      (s : AppState * option Database * list exported) :
  (forall a d, P a (Some d) -> P (fst (fst (h a d))) (Some (snd (fst (h a d))))) ->
  P (fst (fst s)) (snd (fst s)) ->
  P (fst (fst (handle click h s))) (snd (fst (handle click h s))).
Proof.
  intros Hh. destruct s as [[a db] written]. cbn [fst snd handle].
  destruct db as [d|]; [|auto].
  destruct (click && DBConnected a)%bool; [|auto].
  intros HP. specialize (Hh a d HP). destruct (h a d) as [[a' d'] fs]. exact Hh.
Qed.

Lemma onTestWrite_withinCapacity (input : frameInput) (a : AppState) (db : Database) :
  withinCapacity a -> withinCapacity (fst (fst (onTestWrite errorText input a db))).
Proof.
  intros (H1 & _ & H3). unfold onTestWrite.
  destruct (InsertPacket (insertTime input) db (testPacket input)) as [db' [id [e|]]];
    cbn [fst]; [apply trimLog_withinCapacity; cbn; assumption|].
  destruct (GetPacketCount db') as [count [e|]];
    apply trimLog_withinCapacity; cbn; assumption.
Qed.

Lemma onTestRead_withinCapacity (a : AppState) (db : Database) :
  withinCapacity a -> withinCapacity (fst (fst (onTestRead sortRows errorText a db))).
Proof.
  intros (H1 & _ & H3). unfold onTestRead.
  destruct (GetPackets sortRows db 5) as [packets [e|]]; cbn [fst];
    [apply trimLog_withinCapacity; cbn; assumption|].
  cbv zeta.
  set (a0 := appendLog a _).
  destruct (logFirstThree_fields 0 (elems packets) a0) as (E1 & _ & _ & E2 & _).
  set (a1 := logFirstThree 0 (elems packets) a0) in *.
  assert (S1 : Series (ui a1) = Series (ui a)) by (rewrite E1; reflexivity).
  assert (S2 : DBSeries a1 = DBSeries a) by (rewrite E2; reflexivity).
  clearbody a1. clear E1 E2.
  destruct (elems packets) as [|first rest];
    apply trimLog_withinCapacity; cbn; rewrite ?S1, ?S2; assumption.
Qed.

Lemma onClearDB_withinCapacity (a : AppState) (db : Database) :
  withinCapacity a -> withinCapacity (fst (fst (onClearDB errorText a db))).
Proof.
  intros (H1 & _ & H3). unfold onClearDB.
  destruct (DeleteAllPackets db) as [db' [e|]]; cbn [fst];
    apply trimLog_withinCapacity; cbn; try assumption.
  unfold seriesCapacity. lia.
Qed.

Lemma GetAccelerationSeries_length (db : Database) (limit : Z) :
  (0 < limit)%Z ->
  (List.length (elems (fst (GetAccelerationSeries sortRows db limit)))
   <= Z.to_nat limit)%nat.
Proof.
  intros Hl. unfold GetAccelerationSeries, Query. cbv zeta.
  destruct (down db); [simpl; lia|].
  rewrite selectRows_capped. cbn [fst]. rewrite elems_fold_append_map. cbn.
  rewrite length_map. unfold capped. destruct (Z.leb_spec limit 0); [lia|].
  rewrite length_firstn. lia.
Qed.

Lemma onLoadFromDB_withinCapacity (a : AppState) (db : Database) :
  withinCapacity a -> withinCapacity (fst (fst (onLoadFromDB sortRows errorText a db))).
Proof.
  intros (H1 & _ & H3). unfold onLoadFromDB.
  pose proof (GetAccelerationSeries_length db (Z.of_nat seriesCapacity)) as Hlen.
  destruct (GetAccelerationSeries sortRows db (Z.of_nat seriesCapacity))
    as [series [e|]]; cbn [fst]; apply trimLog_withinCapacity; cbn; try assumption.
  cbn [fst] in Hlen. rewrite Nat2Z.id in Hlen. apply Hlen.
  unfold seriesCapacity. lia.
Qed.

Lemma onSaveCSV_withinCapacity (input : frameInput) (a : AppState) (db : Database) :
  withinCapacity a ->
  withinCapacity (fst (fst (onSaveCSV sortRows errorText input a db))).
Proof.
  intros (H1 & _ & H3). unfold onSaveCSV. cbv zeta.
  destruct (SavePacketsToCSV sortRows db (csvCreated input) 0) as [file [e|]];
    cbn [fst]; apply trimLog_withinCapacity; cbn; assumption.
Qed.

Lemma onSaveJSON_withinCapacity (input : frameInput) (a : AppState) (db : Database) :
  withinCapacity a ->
  withinCapacity (fst (fst (onSaveJSON sortRows errorText input a db))).
Proof.
  intros (H1 & _ & H3). unfold onSaveJSON. cbv zeta.
  destruct (SavePacketsToJSON sortRows db (jsonCreated input) 0) as [file [e|]];
    cbn [fst]; apply trimLog_withinCapacity; cbn; assumption.
Qed.

Lemma beforeButtons_withinCapacity (input : frameInput) (a : AppState) :
  withinCapacity a ->
  withinCapacity
    (let a1 := withUI a (drain (ui a) (received input)) in
     let a2 := if OpenBtn (clicked input) then onOpen a1 else a1 in
     if ClearBtn (clicked input) then onClear a2 else a2).
Proof.
  intros (H1 & H2 & H3). cbv zeta.
  destruct (drain_bounded (received input) (ui a) H1 H2) as [D1 D2].
  destruct (ClearBtn (clicked input)).
  - unfold withinCapacity, onClear. cbn.
    repeat split; [unfold seriesCapacity; lia|unfold logCapacity; lia|].
    destruct (OpenBtn (clicked input)); exact H3.
  - destruct (OpenBtn (clicked input)).
    + apply trimLog_withinCapacity; cbn; assumption.
    + repeat split; assumption.
Qed.

Lemma frame_withinCapacity (input : frameInput) (a : AppState) (db : option Database) :
  withinCapacity a -> withinCapacity (state (frame sortRows errorText input a db)).
Proof.
  intros H0. pose proof (beforeButtons_withinCapacity input a H0) as H3.
  unfold frame. cbv zeta in *.
  set (s6 := handle (SaveJSONBtn _) _ _).
  assert (H : withinCapacity (fst (fst s6))).
  { subst s6.
    apply (handle_keeps (fun a _ => withinCapacity a));
      [intros ? ?; apply onSaveJSON_withinCapacity|].
    apply (handle_keeps (fun a _ => withinCapacity a));
      [intros ? ?; apply onSaveCSV_withinCapacity|].
    apply (handle_keeps (fun a _ => withinCapacity a));
      [intros ? ?; apply onLoadFromDB_withinCapacity|].
    apply (handle_keeps (fun a _ => withinCapacity a));
      [intros ? ?; apply onClearDB_withinCapacity|].
    apply (handle_keeps (fun a _ => withinCapacity a));
      [intros ? ?; apply onTestRead_withinCapacity|].
    apply (handle_keeps (fun a _ => withinCapacity a));
      [intros ? ?; apply onTestWrite_withinCapacity|].
    exact H3. }
  destruct s6 as [[a6 db6] w6]. exact H.
Qed.

(** X18. Frame after frame, whatever is clicked, received, read from the
    database or refused by it, the live series and the series loaded from
    the database hold at most 300 samples and the log at most 200 lines; so
    what is handed to [drawGraph] never has more than 300 points. *)
Theorem frames_withinCapacity (inputs : list frameInput) (connected : bool)
        (db : option Database) :
  withinCapacity (state (frames sortRows errorText inputs (startState connected) db))
  /\ (List.length (shownSeries
                     (state (frames sortRows errorText inputs (startState connected) db)))
      <= 300)%nat.
Proof.
  assert (H : forall a d, withinCapacity a ->
                          withinCapacity (state (frames sortRows errorText inputs a d))).
  { induction inputs as [|input inputs IH]; intros a d Ha; cbn; [exact Ha|].
    apply IH. now apply frame_withinCapacity. }
  assert (Hs : withinCapacity (startState connected)).
  { repeat split; cbn; unfold seriesCapacity, logCapacity; lia. }
  split; [apply H, Hs|apply shownSeries_length, H, Hs].
Qed.

Lemma handle_released (h : handler) (s : AppState * option Database * list exported) :
  handle false h s = s.
Proof. destruct s as [[a [d|]] w]; reflexivity. Qed.

Lemma handle_not_connected (click : bool) (h : handler) (a : AppState)
      (db : option Database) (w : list exported) :
  DBConnected a = false \/ db = None -> handle click h (a, db, w) = (a, db, w).
Proof.
  intros [H| ->]; [|reflexivity]. cbn. rewrite H, andb_false_r. now destruct db.
Qed.

Lemma handle_connected (h : handler) (a : AppState) (d : Database) (w : list exported) :
  DBConnected a = true ->
  handle true h (a, Some d, w)
  = (fst (fst (h a d)), Some (snd (fst (h a d))), w ++ snd (h a d)).
Proof. intros H. cbn. rewrite H. now destruct (h a d) as [[a' d'] fs]. Qed.

Lemma onTestRead_fields (a : AppState) (d : Database) :
  snd (fst (onTestRead sortRows errorText a d)) = d
  /\ DBConnected (fst (fst (onTestRead sortRows errorText a d))) = DBConnected a
  /\ DBPacketCount (fst (fst (onTestRead sortRows errorText a d))) = DBPacketCount a
  /\ DBSeries (fst (fst (onTestRead sortRows errorText a d))) = DBSeries a.
Proof.
  unfold onTestRead.
  destruct (GetPackets sortRows d 5) as [packets [e|]]; cbn [fst snd]; [now cbn|].
  cbv zeta. set (a0 := appendLog a _).
  destruct (logFirstThree_fields 0 (elems packets) a0) as (_ & E1 & E2 & E3 & _).
  set (a1 := logFirstThree 0 (elems packets) a0) in *. clearbody a1.
  destruct (elems packets); cbn; rewrite ?E1, ?E2, ?E3; now cbn.
Qed.

Lemma onLoadFromDB_fields (a : AppState) (d : Database) :
  snd (fst (onLoadFromDB sortRows errorText a d)) = d
  /\ DBConnected (fst (fst (onLoadFromDB sortRows errorText a d))) = DBConnected a
  /\ DBPacketCount (fst (fst (onLoadFromDB sortRows errorText a d))) = DBPacketCount a
  /\ DBLastPacket (fst (fst (onLoadFromDB sortRows errorText a d))) = DBLastPacket a.
Proof.
  unfold onLoadFromDB.
  destruct (GetAccelerationSeries sortRows d (Z.of_nat seriesCapacity)) as [series [e|]];
    now cbn.
Qed.

Lemma onSaveCSV_fields (input : frameInput) (a : AppState) (d : Database) :
  snd (fst (onSaveCSV sortRows errorText input a d)) = d
  /\ sameDatabaseFields (fst (fst (onSaveCSV sortRows errorText input a d))) a.
Proof.
  unfold onSaveCSV, sameDatabaseFields. cbv zeta.
  destruct (SavePacketsToCSV sortRows d (csvCreated input) 0) as [file [e|]]; now cbn.
Qed.

Lemma onSaveJSON_fields (input : frameInput) (a : AppState) (d : Database) :
  snd (fst (onSaveJSON sortRows errorText input a d)) = d
  /\ sameDatabaseFields (fst (fst (onSaveJSON sortRows errorText input a d))) a.
Proof.
  unfold onSaveJSON, sameDatabaseFields. cbv zeta.
  destruct (SavePacketsToJSON sortRows d (jsonCreated input) 0) as [file [e|]]; now cbn.
Qed.

Lemma onTestWrite_fields (input : frameInput) (a : AppState) (d : Database) :
  DBConnected (fst (fst (onTestWrite errorText input a d))) = DBConnected a
  /\ (down d = None -> down (snd (fst (onTestWrite errorText input a d))) = None).
Proof.
  unfold onTestWrite, InsertPacket.
  destruct (down d) as [e|] eqn:Hup; [now cbn|].
  destruct (Acceleration (testPacket input)) as [[x y] z]. now cbn.
Qed.

(** X19. While the database is not connected, by the flag or by the nil handle,
    its six buttons do nothing: the frame is the frame with these buttons
    released, it leaves the handle and the database fields of the state as
    they are, and writes no file. *)
Theorem frame_not_connected (input : frameInput) (a : AppState) (db : option Database) :
  DBConnected a = false \/ db = None ->
  frame sortRows errorText input a db
  = frame sortRows errorText (withClicks input (withoutDatabaseButtons (clicked input)))
          a db
  /\ database (frame sortRows errorText input a db) = db
  /\ files (frame sortRows errorText input a db) = []
  /\ sameDatabaseFields (state (frame sortRows errorText input a db)) a.
Proof.
  intros H. unfold frame. cbv zeta. cbn [clicked withClicks withoutDatabaseButtons
    OpenBtn ClearBtn TestWriteBtn TestReadBtn ClearDBBtn LoadFromDBBtn SaveCSVBtn
    SaveJSONBtn received].
  set (a3 := if ClearBtn (clicked input) then _ else _).
  assert (H3 : sameDatabaseFields a3 a).
  { subst a3. unfold sameDatabaseFields.
    destruct (ClearBtn (clicked input)), (OpenBtn (clicked input)); now cbn. }
  assert (Hc : DBConnected a3 = false \/ db = None).
  { destruct H as [H|H]; [left|now right]. destruct H3 as [-> _]. exact H. }
  rewrite !handle_released.
  rewrite !(handle_not_connected _ _ a3 db [] Hc). cbn. auto.
Qed.

(** X20. A click on "Clear Database", when the database is connected and up and
    "Show DB data" is not clicked in the same frame, leaves the table
    without rows, the packet count at 0, no last packet and no loaded
    series, so that the graph shows the live series again. *)
Theorem frame_clear_database (input : frameInput) (a : AppState) (d : Database) :
  DBConnected a = true -> down d = None ->
  ClearDBBtn (clicked input) = true -> LoadFromDBBtn (clicked input) = false ->
  exists d',
    database (frame sortRows errorText input a (Some d)) = Some d'
    /\ rows d' = [] /\ down d' = None
    /\ DBPacketCount (state (frame sortRows errorText input a (Some d))) = 0%Z
    /\ DBLastPacket (state (frame sortRows errorText input a (Some d))) = None
    /\ DBSeries (state (frame sortRows errorText input a (Some d))) = None
    /\ shownSeries (state (frame sortRows errorText input a (Some d)))
       = Series (ui (state (frame sortRows errorText input a (Some d)))).
Proof.
  intros Hcon Hup Hclear Hload. unfold frame. cbv zeta. rewrite Hclear, Hload.
  set (a3 := if ClearBtn (clicked input) then _ else _).
  assert (H3 : DBConnected a3 = true).
  { subst a3. destruct (ClearBtn (clicked input)), (OpenBtn (clicked input));
      cbn; exact Hcon. }
  clearbody a3.
  set (s2 := handle (TestReadBtn _) _ _).
  assert (H2 : DBConnected (fst (fst s2)) = true
               /\ exists d2, snd (fst s2) = Some d2 /\ down d2 = None).
  { subst s2.
    apply (handle_keeps (fun a db => DBConnected a = true
                                     /\ exists d2, db = Some d2 /\ down d2 = None)).
    { intros a0 d0 (Hc & d2 & [= <-] & Hd).
      destruct (onTestRead_fields a0 d0) as (-> & -> & _). eauto. }
    apply (handle_keeps (fun a db => DBConnected a = true
                                     /\ exists d2, db = Some d2 /\ down d2 = None)).
    { intros a0 d0 (Hc & d2 & [= <-] & Hd).
      destruct (onTestWrite_fields input a0 d0) as (-> & Hk). eauto. }
    cbn. eauto. }
  destruct s2 as [[a2 db2] w2]. cbn [fst snd] in H2.
  destruct H2 as (Hc2 & d2 & -> & Hd2).
  rewrite (handle_connected _ a2 d2 w2 Hc2), handle_released.
  set (q := onClearDB errorText a2 d2).
  assert (Hq : rows (snd (fst q)) = [] /\ down (snd (fst q)) = None
               /\ DBPacketCount (fst (fst q)) = 0%Z
               /\ DBLastPacket (fst (fst q)) = None /\ DBSeries (fst (fst q)) = None).
  { subst q. unfold onClearDB, DeleteAllPackets. rewrite Hd2. now cbn. }
  clearbody q. destruct q as [[a4 d4] f4]. cbn [fst snd] in *.
  destruct Hq as (Q1 & Q2 & Q3 & Q4 & Q5).
  set (s6 := handle (SaveJSONBtn _) _ _).
  assert (H6 : (DBPacketCount (fst (fst s6)) = 0%Z
                /\ DBLastPacket (fst (fst s6)) = None /\ DBSeries (fst (fst s6)) = None)
               /\ snd (fst s6) = Some d4).
  { subst s6.
    apply (handle_keeps (fun a db => (DBPacketCount a = 0%Z /\ DBLastPacket a = None
                                      /\ DBSeries a = None) /\ db = Some d4)).
    { intros a0 d0 (Hf & [= <-]).
      destruct (onSaveJSON_fields input a0 d0) as (-> & _ & -> & -> & ->). auto. }
    apply (handle_keeps (fun a db => (DBPacketCount a = 0%Z /\ DBLastPacket a = None
                                      /\ DBSeries a = None) /\ db = Some d4)).
    { intros a0 d0 (Hf & [= <-]).
      destruct (onSaveCSV_fields input a0 d0) as (-> & _ & -> & -> & ->). auto. }
    cbn. auto. }
  destruct s6 as [[a6 db6] w6]. cbn [fst snd state database] in *.
  destruct H6 as ((F1 & F2 & F3) & ->).
  exists d4. repeat split; try assumption.
  unfold shownSeries. now rewrite F3.
Qed.

(** X21. A click on "Test Write", when the database is connected and up,
    "Clear Database" is not clicked in the same frame and the read loop
    writes nothing meanwhile, adds to the table one row holding the test
    packet, and leaves in the state the number of rows the table then
    has. *)
Theorem frame_test_write (input : frameInput) (a : AppState) (d : Database) :
  DBConnected a = true -> down d = None ->
  TestWriteBtn (clicked input) = true -> ClearDBBtn (clicked input) = false ->
  exists r,
    database (frame sortRows errorText input a (Some d))
    = Some (mkDatabase (rows d ++ [r]) (lastID d + 1) None)
    /\ holds r (testPacket input)
    /\ StoredPacket.ID r = (lastID d + 1)%Z
    /\ StoredPacket.CreatedAt r = insertTime input
    /\ DBPacketCount (state (frame sortRows errorText input a (Some d)))
       = (Z.of_nat (List.length (rows d)) + 1)%Z.
Proof.
  intros Hcon Hup Hwrite Hclear. unfold frame. cbv zeta. rewrite Hwrite, Hclear.
  set (a3 := if ClearBtn (clicked input) then _ else _).
  assert (H3 : DBConnected a3 = true).
  { subst a3. destruct (ClearBtn (clicked input)), (OpenBtn (clicked input));
      cbn; exact Hcon. }
  clearbody a3.
  rewrite (handle_connected _ a3 d [] H3), handle_released.
  set (q := onTestWrite errorText input a3 d).
  assert (Hq : exists r,
             snd (fst q) = mkDatabase (rows d ++ [r]) (lastID d + 1) None
             /\ holds r (testPacket input)
             /\ StoredPacket.ID r = (lastID d + 1)%Z
             /\ StoredPacket.CreatedAt r = insertTime input
             /\ DBPacketCount (fst (fst q)) = (Z.of_nat (List.length (rows d)) + 1)%Z).
  { subst q. unfold onTestWrite, InsertPacket. rewrite Hup.
    destruct (testPacket input) as [t la lo sa [[x y] z]]. cbn.
    eexists. split; [reflexivity|]. cbn. unfold holds. cbn.
    repeat split. rewrite length_app. simpl. lia. }
  clearbody q. destruct q as [[a1 d1] f1]. cbn [fst snd] in Hq.
  destruct Hq as (r & -> & Hr1 & Hr2 & Hr3 & Hcount). exists r.
  set (d1 := mkDatabase (rows d ++ [r]) (lastID d + 1) None) in *.
  set (s6 := handle (SaveJSONBtn _) _ _).
  assert (H6 : DBPacketCount (fst (fst s6)) = (Z.of_nat (List.length (rows d)) + 1)%Z
               /\ snd (fst s6) = Some d1).
  { subst s6.
    apply (handle_keeps (fun a db =>
             DBPacketCount a = (Z.of_nat (List.length (rows d)) + 1)%Z /\ db = Some d1)).
    { intros a0 d0 (Hf & [= <-]).
      destruct (onSaveJSON_fields input a0 d0) as (-> & _ & -> & _). auto. }
    apply (handle_keeps (fun a db =>
             DBPacketCount a = (Z.of_nat (List.length (rows d)) + 1)%Z /\ db = Some d1)).
    { intros a0 d0 (Hf & [= <-]).
      destruct (onSaveCSV_fields input a0 d0) as (-> & _ & -> & _). auto. }
    apply (handle_keeps (fun a db =>
             DBPacketCount a = (Z.of_nat (List.length (rows d)) + 1)%Z /\ db = Some d1)).
    { intros a0 d0 (Hf & [= <-]).
      destruct (onLoadFromDB_fields a0 d0) as (-> & _ & -> & _). auto. }
    apply (handle_keeps (fun a db =>
             DBPacketCount a = (Z.of_nat (List.length (rows d)) + 1)%Z /\ db = Some d1)).
    { intros a0 d0 (Hf & [= <-]).
      destruct (onTestRead_fields a0 d0) as (-> & _ & -> & _). auto. }
    cbn. auto. }
  destruct s6 as [[a6 db6] w6]. cbn [fst snd state database] in *.
  destruct H6 as (F1 & ->). auto.
Qed.

End FrameFacts.


(** ** The theorems above at concrete inputs *)

Lemma ParsePacket_missing_field_zero_witness :
  samePart KAcceleration zeroPacket
    (fst (ParsePacket (lib := goStrconv) "x;Time-1;Latitude-54.5;Satellites-7;a;b")).
Proof.
  apply (ParsePacket_missing_field_zero (lib := goStrconv)
           "x;Time-1;Latitude-54.5;Satellites-7;a;b").
  - vm_compute. lia.
  - intros f Hin. vm_compute in Hin.
    repeat (destruct Hin as [<-|Hin]; [reflexivity|]). destruct Hin.
  - vm_compute. reflexivity.
Defined.

Lemma ParsePacket_stops_at_first_failure_witness :
  exists p q err,
    parseFields (lib := goStrconv) zeroPacket ["Time-1"] = (p, None)
    /\ parseField (lib := goStrconv) p "Latitude-north" = (q, Some err)
    /\ ParsePacket (lib := goStrconv) "x;Time-1;Latitude-north;Satellites-7;a;b"
       = (q, Some err)
    /\ (forall after', parseFields (lib := goStrconv) zeroPacket
                         (["Time-1"] ++ "Latitude-north" :: after')
                       = (q, Some err))
    /\ (hasKind KAcceleration "Latitude-north" = false -> q = p)
    /\ (forall k, k <> KAcceleration -> samePart k p q).
Proof.
  apply (ParsePacket_stops_at_first_failure (lib := goStrconv)
           "x;Time-1;Latitude-north;Satellites-7;a;b" ["Time-1"]
           ["Satellites-7"; "a"; "b"] "Latitude-north").
  - vm_compute. lia.
  - vm_compute. reflexivity.
  - intros f [<-|[]] [[(v & E & _)|[(v & E & _)|[(v & E & _)|((r & E) & _)]]]|((r & E) & _)];
      discriminate E.
  - left. left. exists "north". split; [reflexivity|]. vm_compute. discriminate.
Defined.


Lemma InsertPacket_stored_witness :
  exists r,
    rows (fst (InsertPacket 400%Z exampleDatabase zeroPacket))
    = rows exampleDatabase ++ [r]
    /\ StoredPacket.ID r = 4%Z /\ holds r zeroPacket
    /\ StoredPacket.CreatedAt r = 400%Z /\ StoredPacket.UpdatedAt r = 400%Z
    /\ GetPacketCount (fst (InsertPacket 400%Z exampleDatabase zeroPacket))
       = ((Z.of_nat (List.length (rows exampleDatabase)) + 1)%Z, None)
    /\ snd (GetPackets stableSort (fst (InsertPacket 400%Z exampleDatabase zeroPacket)) 0)
       = None
    /\ In r (elems (fst (GetPackets stableSort
                           (fst (InsertPacket 400%Z exampleDatabase zeroPacket)) 0))).
Proof.
  apply (InsertPacket_stored stableSort stableSort_lawful 400%Z exampleDatabase
           (fst (InsertPacket 400%Z exampleDatabase zeroPacket)) zeroPacket 4%Z).
  reflexivity.
Defined.

Lemma GetLatestPacket_most_recent_witness :
  exists r, GetLatestPacket stableSort exampleDatabase = (Some r, None)
            /\ In r (rows exampleDatabase)
            /\ Forall (fun x => (StoredPacket.CreatedAt x <= StoredPacket.CreatedAt r)%Z)
                      (rows exampleDatabase).
Proof.
  apply (GetLatestPacket_most_recent stableSort stableSort_lawful exampleDatabase).
  - reflexivity.
  - discriminate.
Defined.

Lemma GetPackets_length_witness :
  List.length (elems (fst (GetPackets stableSort exampleDatabase 2%Z))) = 2%nat.
Proof.
  apply (GetPackets_length stableSort stableSort_lawful exampleDatabase 2%Z).
  reflexivity.
Defined.

Lemma GetAccelerationSeries_reverses_GetPackets_witness :
  elems (fst (GetAccelerationSeries stableSort exampleDatabase 0%Z))
  = rev (map (fun r => toFloat32 (StoredPacket.AccelerationZ r))
             (elems (fst (GetPackets stableSort exampleDatabase 0%Z)))).
Proof.
  apply (GetAccelerationSeries_reverses_GetPackets stableSort stableSort_lawful
           exampleDatabase 0%Z).
  - reflexivity.
  - lia.
  - cbn. repeat constructor; cbn; intuition discriminate.
Defined.

Lemma Database_down_witness :
  InsertPacket 400%Z (mkDatabase (rows exampleDatabase) 3%Z (Some (errorString "bad connection")))
               zeroPacket
  = (mkDatabase (rows exampleDatabase) 3%Z (Some (errorString "bad connection")),
     (0%Z, Some (wrapError "failed to insert packet" (errorString "bad connection")))).
Proof.
  apply (Database_down stableSort
           (mkDatabase (rows exampleDatabase) 3%Z (Some (errorString "bad connection")))
           (errorString "bad connection") 400%Z zeroPacket 0%Z None).
  reflexivity.
Defined.

Lemma SavePacketsToCSV_table_witness :
  Forall (fun record => List.length record = 10%nat)
         (csvHeader :: map csvRow (elems (fst (GetPackets stableSort exampleDatabase 0%Z))))
  /\ List.length
       (csvHeader :: map csvRow (elems (fst (GetPackets stableSort exampleDatabase 0%Z))))
     = S (List.length (elems (fst (GetPackets stableSort exampleDatabase 0%Z))))
  /\ map (fun record => hd ""%string record)
         (tl (csvHeader
                :: map csvRow (elems (fst (GetPackets stableSort exampleDatabase 0%Z)))))
     = map (fun p => strconv.FormatInt (StoredPacket.ID p))
           (elems (fst (GetPackets stableSort exampleDatabase 0%Z))).
Proof.
  apply (SavePacketsToCSV_table stableSort exampleDatabase None 0%Z).
  vm_compute. reflexivity.
Defined.

Lemma SavePacketsToJSON_array_witness :
  SavePacketsToJSON stableSort exampleDatabase None 0%Z
  = (Some (JArray (map marshalPacket
                       (elems (fst (GetPackets stableSort exampleDatabase 0%Z))))), None).
Proof.
  apply (SavePacketsToJSON_array stableSort stableSort_lawful exampleDatabase 0%Z).
  - reflexivity.
  - discriminate.
  - vm_compute. reflexivity.
Defined.

Lemma frame_not_connected_witness :
  database (frame stableSort (fun _ => "error"%string)
              (mkFrameInput (mkClicks true false true true true true true true) []
                            zeroPacket 400%Z "20250101_120000" "20250101_120001" None None)
              (startState false) (Some exampleDatabase))
  = Some exampleDatabase
  /\ files (frame stableSort (fun _ => "error"%string)
              (mkFrameInput (mkClicks true false true true true true true true) []
                            zeroPacket 400%Z "20250101_120000" "20250101_120001" None None)
              (startState false) (Some exampleDatabase))
     = [].
Proof.
  destruct (frame_not_connected stableSort (fun _ => "error"%string)
              (mkFrameInput (mkClicks true false true true true true true true) []
                            zeroPacket 400%Z "20250101_120000" "20250101_120001" None None)
              (startState false) (Some exampleDatabase)) as (_ & H2 & H3 & _).
  - left. reflexivity.
  - split; [exact H2|exact H3].
Defined.

Lemma frame_clear_database_witness :
  exists d',
    database (frame stableSort (fun _ => "error"%string)
                (mkFrameInput (mkClicks false false true true true false true false) []
                              zeroPacket 400%Z "20250101_120000" "20250101_120001" None None)
                (startState true) (Some exampleDatabase))
    = Some d'
    /\ rows d' = [].
Proof.
  destruct (frame_clear_database stableSort (fun _ => "error"%string)
              (mkFrameInput (mkClicks false false true true true false true false) []
                            zeroPacket 400%Z "20250101_120000" "20250101_120001" None None)
              (startState true) exampleDatabase) as (d' & H1 & H2 & _);
    try reflexivity.
  exists d'. split; [exact H1|exact H2].
Defined.

Lemma frame_test_write_witness :
  exists r,
    database (frame stableSort (fun _ => "error"%string)
                (mkFrameInput (mkClicks false false true true false true false false) []
                              zeroPacket 400%Z "20250101_120000" "20250101_120001" None None)
                (startState true) (Some exampleDatabase))
    = Some (mkDatabase (rows exampleDatabase ++ [r]) 4%Z None)
    /\ holds r zeroPacket
    /\ DBPacketCount
         (state (frame stableSort (fun _ => "error"%string)
                   (mkFrameInput (mkClicks false false true true false true false false) []
                                 zeroPacket 400%Z "20250101_120000" "20250101_120001"
                                 None None)
                   (startState true) (Some exampleDatabase)))
       = 4%Z.
Proof.
  destruct (frame_test_write stableSort (fun _ => "error"%string)
              (mkFrameInput (mkClicks false false true true false true false false) []
                            zeroPacket 400%Z "20250101_120000" "20250101_120001" None None)
              (startState true) exampleDatabase) as (r & H1 & H2 & _ & _ & H5);
    try reflexivity.
  exists r. split; [exact H1|]. split; [exact H2|exact H5].
Defined.
